(** * ETL pipeline: Extract, Transform, Load

    A shallow embedding of the pipeline of [app.py], of the three stages it
    sequences ([src/Extract/Extract.py], [src/Transform/Transform.py],
    [src/Load/Load.py]), of the reply handling of
    [src/Analyze/Analyze.py] and of the polling loop of [app.py], with the
    properties of the specification proved over it.

    Conventions of the embedding.
    - A Python [str] is a [string]; its characters are read as code points
      below 256.  A text that is sent to the database holds no NUL
      character, which the client library refuses to send.
    - A Python [float] is modelled by the rational number it denotes
      ([Q], kept in lowest terms); rounding to binary64, overflow and the
      sign of zero are outside the model.  The rounding of the database to
      two decimals is in the model.
    - A Python exception is the [Raise] arm of [result]; nothing in the
      three stages catches an exception except [_to_decimal]. *)

From Stdlib Require Import ZArith QArith List Bool Ascii String Lia.
From Stdlib Require Import Numbers.DecimalString Numbers.DecimalPos.
From Stdlib Require Import Sorting.Permutation.
Import ListNotations.

Set Warnings "-register-all".

Open Scope string_scope.
Open Scope Z_scope.

(** ** Exceptions and results *)

Inductive exn : Type :=
| InvalidOperation   (* decimal.InvalidOperation *)
| JSONDecodeError    (* json.JSONDecodeError *)
| ClientError        (* botocore: the S3 or Bedrock call did not succeed *)
| DatabaseError      (* psycopg2.Error raised for a refused statement *)
| IntegrityError     (* psycopg2: a key or reference constraint is violated *)
| ReportError.       (* anything raised by the reporting stage *)

Inductive result (A : Type) : Type :=
| Ok (a : A)
| Raise (e : exn).

Arguments Ok {A} a.
Arguments Raise {A} e.

Definition rbind {A B} (r : result A) (k : A -> result B) : result B :=
  match r with
  | Ok a => k a
  | Raise e => Raise e
  end.

Declare Scope result_scope.
Delimit Scope result_scope with result.
Notation "x <- c ;; k" := (rbind c (fun x => k))
  (at level 61, c at next level, right associativity) : result_scope.

(** Code with a state: a result and the state after it, also when it
    raises. *)
Definition prog (S A : Type) : Type := S -> result A * S.

Definition ret {S A} (a : A) : prog S A := fun st => (Ok a, st).

Definition raise {S A} (e : exn) : prog S A := fun st => (Raise e, st).

Definition bind {S A B} (m : prog S A) (k : A -> prog S B) : prog S B :=
  fun st =>
    match m st with
    | (Ok a, st') => k a st'
    | (Raise e, st') => (Raise e, st')
    end.

Definition lift {S A} (r : result A) : prog S A := fun st => (r, st).

Declare Scope prog_scope.
Delimit Scope prog_scope with prog.
Notation "x <- c ;; k" := (bind c (fun x => k))
  (at level 61, c at next level, right associativity) : prog_scope.
Notation "c ;;; k" := (bind c (fun _ => k))
  (at level 61, right associativity) : prog_scope.

(** ** Python values, as [json.loads] produces them *)

Inductive pyval : Type :=
| PNone
| PBool (b : bool)
| PInt (z : Z)
| PFloat (q : Q)
| PStr (s : string)
| PList (l : list pyval)
| PDict (d : list (string * pyval)).

(** A [dict] with string keys, in insertion order; its keys are distinct,
    and [lookup] reads the first binding of a key. *)
Definition pydict (V : Type) : Type := list (string * V).

Fixpoint lookup {V} (k : string) (d : pydict V) : option V :=
  match d with
  | [] => None
  | (k', v) :: d' => if String.eqb k k' then Some v else lookup k d'
  end.

(** [d[k] = v]: the value is replaced where the key stands, a new key goes
    to the end. *)
Fixpoint setitem {V} (d : pydict V) (k : string) (v : V) : pydict V :=
  match d with
  | [] => [(k, v)]
  | (k', v') :: d' =>
      if String.eqb k k' then (k', v) :: d' else (k', v') :: setitem d' k v
  end.

Definition keys {V} (d : pydict V) : list string := map fst d.

(** [d.get(k, default)] *)
Definition get (d : pydict pyval) (k : string) (default : pyval) : pyval :=
  match lookup k d with
  | Some v => v
  | None => default
  end.

(** Truth value of an object ([not x] is its negation). *)
Definition truthy (v : pyval) : bool :=
  match v with
  | PNone => false
  | PBool b => b
  | PInt z => negb (z =? 0)
  | PFloat q => negb (Qnum q =? 0)
  | PStr s => negb (String.eqb s "")
  | PList l => match l with [] => false | _ => true end
  | PDict d => match d with [] => false | _ => true end
  end.

(** [v == s] for a string literal [s]. *)
Definition eq_str (v : pyval) (s : string) : bool :=
  match v with
  | PStr s' => String.eqb s' s
  | _ => false
  end.

(** ** Characters *)

Definition code (c : ascii) : nat := nat_of_ascii c.

(** [str.isspace] on one character, which is also the class [\s] of [re]
    on [str] patterns. *)
Definition is_space (c : ascii) : bool :=
  let n := code c in
  ((9 <=? n) && (n <=? 13) || (28 <=? n) && (n <=? 32)
   || (n =? 133) || (n =? 160))%nat.

(** The class [\d]. *)
Definition is_digit (c : ascii) : bool :=
  let n := code c in ((48 <=? n) && (n <=? 57))%nat.

Definition digit_value (c : ascii) : Z := Z.of_nat (code c - 48).

Arguments is_space : simpl never.
Arguments is_digit : simpl never.

Definition Z_to_string (z : Z) : string := NilZero.string_of_int (Z.to_int z).

(** ** Canonical documents *)

Record line_item : Type := mk_line_item {
  item : string;
  quantity : Q;
  unit_price : Q;
  total : Q
}.

Record document : Type := mk_document {
  document_id : string;
  name : string;
  description : string;
  line_items : list line_item
}.

(** * Transform.py *)

Module Transform.

(** Characters that [re.sub(r'[^\d.,\-]', '', value)] keeps. *)
Definition is_numeric_char (c : ascii) : bool :=
  is_digit c || Ascii.eqb c "." || Ascii.eqb c "," || Ascii.eqb c "-".

Fixpoint keep_numeric (s : string) : string :=
  match s with
  | EmptyString => EmptyString
  | String c r =>
      if is_numeric_char c then String c (keep_numeric r) else keep_numeric r
  end.

(** [s.replace(',', '.')] *)
Fixpoint replace_comma (s : string) : string :=
  match s with
  | EmptyString => EmptyString
  | String c r =>
      String (if Ascii.eqb c "," then "."%char else c) (replace_comma r)
  end.

(** [decimal.Decimal(s)] followed by [float], on the strings this program
    builds: an optional minus sign, then digits with at most one point and
    at least one digit.  [None] stands for [InvalidOperation].  (Exponents
    and the words the constructor also accepts hold a letter or a plus
    sign; no string that reaches it here does, but for 'True' and 'False',
    which it refuses.) *)
Fixpoint all_digits (s : string) : bool :=
  match s with
  | EmptyString => true
  | String c r => is_digit c && all_digits r
  end.

Fixpoint digits_to_Z (acc : Z) (s : string) : Z :=
  match s with
  | EmptyString => acc
  | String c r => digits_to_Z (10 * acc + digit_value c) r
  end.

Fixpoint pow10 (n : nat) : positive :=
  match n with
  | O => 1%positive
  | S n' => (10 * pow10 n')%positive
  end.

(** The text before the first point, and the text after it if there is one. *)
Fixpoint split_point (s : string) : string * option string :=
  match s with
  | EmptyString => (EmptyString, None)
  | String c r =>
      if Ascii.eqb c "." then (EmptyString, Some r)
      else let (ip, fp) := split_point r in (String c ip, fp)
  end.

Definition unsigned_decimal (s : string) : option Q :=
  let (ip, fp) := split_point s in
  let fp := match fp with Some f => f | None => EmptyString end in
  if all_digits ip && all_digits fp && (0 <? String.length (ip ++ fp))%nat
  then Some (Qred (digits_to_Z 0 (ip ++ fp) # pow10 (String.length fp)))
  else None.

Definition Decimal (s : string) : option Q :=
  match s with
  | String "-" r => option_map (fun q => Qred (- q)) (unsigned_decimal r)
  | _ => unsigned_decimal s
  end.

(** [s.strip()] *)
Fixpoint lstrip (s : string) : string :=
  match s with
  | EmptyString => EmptyString
  | String c r => if is_space c then lstrip r else s
  end.

Fixpoint rstrip (s : string) : string :=
  match s with
  | EmptyString => EmptyString
  | String c r =>
      match rstrip r with
      | EmptyString => if is_space c then EmptyString else String c EmptyString
      | r' => String c r'
      end
  end.

Definition strip (s : string) : string := rstrip (lstrip s).

(** [re.sub(r'\s+', ' ', s)]: every maximal run of whitespace becomes one
    space.  [in_run] tells that the previous character was whitespace. *)
Fixpoint sub_spaces (in_run : bool) (s : string) : string :=
  match s with
  | EmptyString => EmptyString
  | String c r =>
      if is_space c
      then if in_run then sub_spaces true r
           else String " " (sub_spaces true r)
      else String c (sub_spaces false r)
  end.

Section WithRepr.

(** [str(x)] of a float, a list or a dict: Python's [repr], which is not
    code of this repository. *)
Variable repr : pyval -> string.

(** [str(x)] *)
Definition str (x : pyval) : string :=
  match x with
  | PStr s => s
  | PNone => "None"
  | PBool true => "True"
  | PBool false => "False"
  | PInt z => Z_to_string z
  | PFloat _ | PList _ | PDict _ => repr x
  end.

(** [_clean_text]: "Removes extra spaces and normalizes text". *)
Definition _clean_text (text : pyval) : string :=
  if negb (truthy text) || eq_str text "N/A" then "N/A"
  else sub_spaces false (strip (str text)).

(** [_to_decimal]: "Converts values to Decimal, handling errors".
    [isinstance(value, (int, float, Decimal))] holds of [bool] too, a
    subclass of [int]; that branch has no [try].  The text of a float is
    its shortest representation, which reads back as the same float:
    [float(Decimal(str(x)))] is [x]. *)
Definition _to_decimal (value : pyval) : result Q :=
  match value with
  | PBool _ | PInt _ =>
      match Decimal (str value) with
      | Some q => Ok q
      | None => Raise InvalidOperation
      end
  | PFloat q => Ok q
  | PStr s =>
      match Decimal (replace_comma (keep_numeric s)) with
      | Some q => Ok q
      | None => Ok 0%Q
      end
  | PNone | PList _ | PDict _ => Ok 0%Q
  end.

(** The dict display built for one element of the loop of
    [_clean_line_items]; its entries are evaluated in order. *)
Definition clean_item (item : pydict pyval) : result line_item :=
  (let item_ := _clean_text (get item "item" (get item "description"
                  (get item "name" (PStr "N/A")))) in
   quantity_ <- _to_decimal (get item "quantity" (get item "qty" (PInt 0))) ;;
   unit_price_ <- _to_decimal (get item "unit_price" (get item "price"
                    (get item "unit" (PInt 0)))) ;;
   total_ <- _to_decimal (get item "total" (get item "amount" (PInt 0))) ;;
   Ok (mk_line_item item_ quantity_ unit_price_ total_))%result.

(** The [for item in items] loop, [cleaned] being the list built so far. *)
Fixpoint clean_loop (items : list pyval) (cleaned : list line_item)
  : result (list line_item) :=
  match items with
  | [] => Ok cleaned
  | PDict d :: rest =>
      (cleaned_item <- clean_item d ;;
       clean_loop rest (cleaned ++ [cleaned_item]))%result
  | _ :: rest => clean_loop rest cleaned
  end.

Definition is_list (x : pyval) : bool :=
  match x with PList _ => true | _ => false end.

Definition _clean_line_items (items : pyval) : result (list line_item) :=
  if negb (truthy items) || negb (is_list items) then Ok []
  else match items with
       | PList l => clean_loop l []
       | _ => Ok []
       end.

Definition _clean_document (doc : pydict pyval) : result document :=
  (let document_id_ := _clean_text (get doc "document_id" (get doc "id"
                         (get doc "number" (PStr "N/A")))) in
   let name_ := _clean_text (get doc "name" (get doc "contractor"
                  (get doc "supplier" (get doc "client" (PStr "N/A"))))) in
   let description_ := _clean_text (get doc "description"
                         (get doc "desc" (PStr "N/A"))) in
   line_items_ <- _clean_line_items (get doc "line_items"
                    (get doc "items" (PList []))) ;;
   Ok (mk_document document_id_ name_ description_ line_items_))%result.

(** The loop of [transform], [transformed] being the dict built so far. *)
Fixpoint transform_loop (extracted_data : pydict (pydict pyval))
    (transformed : pydict document) : result (pydict document) :=
  match extracted_data with
  | [] => Ok transformed
  | (filename, data) :: rest =>
      (doc <- _clean_document data ;;
       transform_loop rest (setitem transformed filename doc))%result
  end.

Definition transform (extracted_data : pydict (pydict pyval))
  : result (pydict document) :=
  transform_loop extracted_data [].

End WithRepr.

End Transform.

(** * Extract.py *)

Module Extract.

(** [text.find(c)]; [None] stands for -1. *)
Fixpoint find (c : ascii) (text : string) : option nat :=
  match text with
  | EmptyString => None
  | String c' r =>
      if Ascii.eqb c' c then Some O else option_map S (find c r)
  end.

(** [text[n:]] *)
Fixpoint drop (n : nat) (text : string) : string :=
  match n, text with
  | O, _ => text
  | S n', EmptyString => EmptyString
  | S n', String _ r => drop n' r
  end.

(** The loop [for idx in range(start, len(text))], entered at index [idx]
    with [rest = text[idx:]] and the current [brace_count]; it returns the
    index at which the loop breaks, or [None] when the range is exhausted. *)
Fixpoint scan (rest : string) (idx : nat) (brace_count : Z) : option nat :=
  match rest with
  | EmptyString => None
  | String c r =>
      if Ascii.eqb c "{" then scan r (S idx) (brace_count + 1)
      else if Ascii.eqb c "}" then
        let brace_count := brace_count - 1 in
        if brace_count =? 0 then Some idx else scan r (S idx) brace_count
      else scan r (S idx) brace_count
  end.

(** The span [text[start:idx+1]] that is handed to [json.loads], if any. *)
Definition first_object (text : string) : option string :=
  match find "{" text with
  | None => None
  | Some start =>
      match scan (drop start text) start 0 with
      | Some idx => Some (substring start (idx + 1 - start) text)
      | None => None
      end
  end.

Section WithServices.

(** The calls to S3 and to the model for image [i], with the decoding of
    the response down to its text: the text, or the exception raised. *)
Variable invoke_model : string -> result string.

(** [json.loads] on a text that starts with an opening brace: a JSON
    object, or [None] for [JSONDecodeError]. *)
Variable json_loads : string -> option (pydict pyval).

(** The loop [for i in images], [results] being the dict built so far. *)
Fixpoint extract_loop (images : list string)
    (results : pydict (pydict pyval)) : result (pydict (pydict pyval)) :=
  match images with
  | [] => Ok results
  | i :: rest =>
      (text <- invoke_model i ;;
       match first_object text with
       | None => extract_loop rest results
       | Some span =>
           match json_loads span with
           | Some obj => extract_loop rest (setitem results (i ++ ".jpg") obj)
           | None => Raise JSONDecodeError
           end
       end)%result
  end.

Definition extract_text_from_images (images : list string)
  : result (pydict (pydict pyval)) :=
  extract_loop images [].

End WithServices.

End Extract.

(** * Load.py *)

Module Load.

(** ** The relations of [_create_tables] *)

(** documents (id SERIAL PRIMARY KEY, filename VARCHAR(255) UNIQUE,
    document_id VARCHAR(255), name VARCHAR(255), description TEXT) *)
Record documents_row : Type := mk_documents_row {
  d_id : Z;
  d_filename : string;
  d_document_id : string;
  d_name : string;
  d_description : string
}.

(** line_items (id SERIAL PRIMARY KEY,
    document_id INTEGER REFERENCES documents(id), item VARCHAR(255),
    quantity, unit_price, total DECIMAL(10,2)).
    A row holds what the server makes of the values the code passes, to fit
    them to their columns. *)
Record line_items_row : Type := mk_line_items_row {
  li_id : Z;
  li_document_id : Z;
  li_item : string;
  li_quantity : Q;
  li_unit_price : Q;
  li_total : Q
}.

Record tables : Type := mk_tables {
  documents : list documents_row;
  items : list line_items_row
}.

(** The database server as one writer sees it: the committed relations,
    the relations as the open transaction of the connection sees them, the
    two sequences behind the SERIAL columns (a sequence is never rolled
    back), and the number of requests received so far. *)
Record store : Type := mk_store {
  committed : tables;
  working : tables;
  documents_id_seq : Z;
  line_items_id_seq : Z;
  clock : nat
}.

(** ** What the server makes of a value to fit its column *)

Fixpoint only_spaces (s : string) : bool :=
  match s with
  | EmptyString => true
  | String c r => Ascii.eqb c " " && only_spaces r
  end.

(** VARCHAR(n): a text of at most [n] characters is stored as it is; of a
    longer text whose characters after the [n]th are all spaces, the first
    [n] characters are stored; any other text is refused. *)
Fixpoint varchar (n : nat) (s : string) {struct s} : option string :=
  match s with
  | EmptyString => Some EmptyString
  | String c r =>
      match n with
      | O => if only_spaces s then Some EmptyString else None
      | S k => option_map (String c) (varchar k r)
      end
  end.

(** The number in hundredths, rounded to the nearest integer, a tie away
    from zero. *)
Definition hundredths (q : Q) : Z :=
  let a := Z.abs (Qnum q) * 100 in
  let d := Z.pos (Qden q) in
  Z.sgn (Qnum q) * ((2 * a + d) / (2 * d)).

(** DECIMAL(10,2): the number is rounded to two decimals; a number that
    rounds to 10^8 or more in absolute value is refused. *)
Definition decimal_10_2 (q : Q) : option Q :=
  let h := hundredths q in
  if Z.abs h <? 10 ^ 10 then Some (Qred (h # 100)) else None.

(** The columns document_id and name of one row of documents. *)
Definition document_columns (di n : string) : option (string * string) :=
  match varchar 255 di, varchar 255 n with
  | Some di', Some n' => Some (di', n')
  | _, _ => None
  end.

(** The columns item, quantity, unit_price and total of one row of
    line_items. *)
Definition item_columns (it : string) (q u t : Q) : option line_item :=
  match varchar 255 it, decimal_10_2 q, decimal_10_2 u, decimal_10_2 t with
  | Some it', Some q', Some u', Some t' => Some (mk_line_item it' q' u' t')
  | _, _, _, _ => None
  end.

(** What the code asks of the server. *)
Inductive request : Type :=
| Connect
| CreateDocuments
| CreateLineItems
| SelectId (filename : string)
| UpdateDocument (document_id name description : string) (id : Z)
| DeleteLineItems (doc_id : Z)
| InsertDocument (filename document_id name description : string)
| InsertLineItem (doc_id : Z) (item : string) (quantity unit_price total : Q)
| Commit.

(** Code that talks to the server. *)
Definition db (A : Type) : Type := prog store A.

Definition set_working (w : tables) (st : store) : store :=
  mk_store (committed st) w (documents_id_seq st) (line_items_id_seq st)
    (clock st).

Definition tick (st : store) : store :=
  mk_store (committed st) (working st) (documents_id_seq st)
    (line_items_id_seq st) (S (clock st)).

Definition has_document (id : Z) (t : tables) : bool :=
  existsb (fun r => d_id r =? id) (documents t).

Definition has_filename (f : string) (t : tables) : bool :=
  existsb (fun r => String.eqb (d_filename r) f) (documents t).

Definition has_item (id : Z) (t : tables) : bool :=
  existsb (fun r => li_id r =? id) (items t).

(** [UPDATE documents SET document_id, name, description WHERE id = %s],
    on one row. *)
Definition update_row (di n de : string) (id : Z) (r : documents_row)
  : documents_row :=
  if d_id r =? id then mk_documents_row (d_id r) (d_filename r) di n de
  else r.

(** The effect of an accepted request on the relations of the transaction
    and on the sequences; the rows of the result set hold one column, an id.
    A value that does not fit its column is refused, before anything is
    changed; a key or reference constraint of the schema that does not hold
    raises. *)
Definition perform (rq : request) (st : store) : result (list Z) * store :=
  let w := working st in
  match rq with
  | Connect =>
      (Ok [], set_working (committed st) st)
  | CreateDocuments | CreateLineItems =>
      (Ok [], st)     (* IF NOT EXISTS: an existing relation is left as is *)
  | SelectId f =>
      (Ok (map d_id
             (filter (fun r => String.eqb (d_filename r) f) (documents w))),
       st)
  | UpdateDocument di n de id =>
      match document_columns di n with
      | Some (di', n') =>
          (Ok [],
           set_working
             (mk_tables (map (update_row di' n' de id) (documents w))
                (items w)) st)
      | None => (Raise DatabaseError, st)
      end
  | DeleteLineItems id =>
      (Ok [],
       set_working
         (mk_tables (documents w)
            (filter (fun r => negb (li_document_id r =? id)) (items w))) st)
  | InsertDocument f di n de =>
      match varchar 255 f, document_columns di n with
      | Some f', Some (di', n') =>
          let id := documents_id_seq st in
          let st' := mk_store (committed st) w (id + 1)
                       (line_items_id_seq st) (clock st) in
          if has_document id w || has_filename f' w
          then (Raise IntegrityError, st')
          else (Ok [id],
                set_working
                  (mk_tables
                     (documents w ++ [mk_documents_row id f' di' n' de])
                     (items w)) st')
      | _, _ => (Raise DatabaseError, st)
      end
  | InsertLineItem doc it q u t =>
      match item_columns it q u t with
      | Some li =>
          let id := line_items_id_seq st in
          let st' := mk_store (committed st) w (documents_id_seq st)
                       (id + 1) (clock st) in
          if has_item id w || negb (has_document doc w)
          then (Raise IntegrityError, st')
          else (Ok [],
                set_working
                  (mk_tables (documents w)
                     (items w
                      ++ [mk_line_items_row id doc (item li) (quantity li)
                            (unit_price li) (total li)])) st')
      | None => (Raise DatabaseError, st)
      end
  | Commit =>
      (Ok [],
       mk_store w w (documents_id_seq st) (line_items_id_seq st) (clock st))
  end.

Section WithServer.

(** Whether the server is there to take the request it receives at a given
    time: the connection is up, the server has the means to serve it.  A
    request that is not taken raises and changes no relation. *)
Variable server_ok : nat -> request -> bool.

Definition execute (rq : request) : db (list Z) :=
  fun st =>
    if server_ok (clock st) rq then perform rq (tick st)
    else (Raise DatabaseError, tick st).

(** [cursor.fetchone()]: the first row of the result set, if any. *)
Definition fetchone (rows : list Z) : option Z := hd_error rows.

Definition commit : db unit := (execute Commit ;;; ret tt)%prog.

Definition _create_tables : db unit :=
  (execute CreateDocuments ;;;
   execute CreateLineItems ;;;
   commit)%prog.

(** [Load.__init__] *)
Definition init : db unit :=
  (execute Connect ;;; _create_tables)%prog.

(** The loop [for item in doc['line_items']]. *)
Fixpoint insert_items (doc_id : Z) (its : list line_item) : db unit :=
  match its with
  | [] => ret tt
  | it :: rest =>
      (execute (InsertLineItem doc_id (item it) (quantity it)
                  (unit_price it) (total it)) ;;;
       insert_items doc_id rest)%prog
  end.

(** One turn of the loop [for filename, doc in transformed_data.items()]. *)
Definition load_document (filename : string) (doc : document) : db unit :=
  (rows <- execute (SelectId filename) ;;
   doc_id <-
     match fetchone rows with
     | Some doc_id =>
         execute (UpdateDocument (document_id doc) (name doc)
                    (description doc) doc_id) ;;;
         execute (DeleteLineItems doc_id) ;;;
         ret doc_id
     | None =>
         rows <- execute (InsertDocument filename (document_id doc)
                            (name doc) (description doc)) ;;
         match fetchone rows with
         | Some doc_id => ret doc_id
         | None => raise DatabaseError
         end
     end ;;
   insert_items doc_id (line_items doc))%prog.

Fixpoint load_loop (transformed_data : pydict document) : db unit :=
  match transformed_data with
  | [] => ret tt
  | (filename, doc) :: rest =>
      (load_document filename doc ;;; load_loop rest)%prog
  end.

Definition load (transformed_data : pydict document) : db unit :=
  (load_loop transformed_data ;;; commit)%prog.

(** [close]: the session ends, and with it any work not committed. *)
Definition close : db unit :=
  fun st => (Ok tt, set_working (committed st) st).

End WithServer.

(** The server before the first run: no row, both sequences at 1. *)
Definition empty_tables : tables := mk_tables [] [].

Definition fresh : store := mk_store empty_tables empty_tables 1 1 0.

End Load.

Arguments Load.varchar : simpl never.
Arguments Load.decimal_10_2 : simpl never.
Arguments Load.document_columns : simpl never.
Arguments Load.item_columns : simpl never.

(** * app.py *)

Section App.

Variable repr : pyval -> string.
Variable invoke_model : string -> result string.
Variable json_loads : string -> option (pydict pyval).
Variable server_ok : nat -> Load.request -> bool.

(** The reporting stage ([Analyze]): it reads the committed relations and
    writes none; it returns or raises. *)
Variable report : Load.tables -> result unit.

Definition run_etl (images : list string) : Load.db unit :=
  (extracted_data <-
     lift (Extract.extract_text_from_images invoke_model json_loads images) ;;
   transformed_data <- lift (Transform.transform repr extracted_data) ;;
   Load.init server_ok ;;;
   Load.load server_ok transformed_data ;;;
   Load.close ;;;
   (fun st => (report (Load.committed st), st)))%prog.

End App.

(** * Vocabulary of the specification *)

(** ** Alias resolution, in the words of the specification: the value of
    the first alias key that is present. *)
Fixpoint first_present (aliases : list string) (d : pydict pyval)
  : option pyval :=
  match aliases with
  | [] => None
  | k :: rest =>
      match lookup k d with
      | Some v => Some v
      | None => first_present rest d
      end
  end.

Section FieldPolicy.

Variable repr : pyval -> string.

(** A text field: the cleaned value of the first alias present, else the
    sentinel. *)
Definition text_field (aliases : list string) (d : pydict pyval) : string :=
  match first_present aliases d with
  | Some v => Transform._clean_text repr v
  | None => "N/A"
  end.

(** A numeric field: the coerced value of the first alias present, else
    zero. *)
Definition numeric_field (aliases : list string) (d : pydict pyval)
  : result Q :=
  match first_present aliases d with
  | Some v => Transform._to_decimal repr v
  | None => Ok 0%Q
  end.

(** The line-item sequence: the first of [line_items], [items] present,
    else the empty list. *)
Definition items_field (d : pydict pyval) : result (list line_item) :=
  match first_present ["line_items"; "items"] d with
  | Some v => Transform._clean_line_items repr v
  | None => Ok []
  end.

End FieldPolicy.

(** A value that numeric coercion accepts: anything but a [bool]. *)
Definition coercible (v : pyval) : bool :=
  match v with
  | PBool _ => false
  | _ => true
  end.

(** No numeric field of the line item resolves to a [bool]. *)
Definition item_coercible (it : pydict pyval) : bool :=
  coercible (get it "quantity" (get it "qty" (PInt 0)))
  && coercible (get it "unit_price" (get it "price" (get it "unit" (PInt 0))))
  && coercible (get it "total" (get it "amount" (PInt 0))).

Definition element_coercible (x : pyval) : bool :=
  match x with
  | PDict d => item_coercible d
  | _ => true
  end.

Definition document_coercible (doc : pydict pyval) : bool :=
  match get doc "line_items" (get doc "items" (PList [])) with
  | PList l => forallb element_coercible l
  | _ => true
  end.

(** ** Tidy text: no whitespace at either end, no whitespace character but
    the space, no two spaces in a row. *)
Fixpoint tidy_from (after_space : bool) (s : string) : bool :=
  match s with
  | EmptyString => negb after_space
  | String c r =>
      if is_space c
      then Ascii.eqb c " " && negb after_space && tidy_from true r
      else tidy_from false r
  end.

Definition tidy (s : string) : bool :=
  match s with
  | EmptyString => true
  | String c _ => negb (is_space c) && tidy_from false s
  end.

(** The characters of a text that are not whitespace, in order. *)
Fixpoint visible (s : string) : string :=
  match s with
  | EmptyString => EmptyString
  | String c r => if is_space c then visible r else String c (visible r)
  end.

(** A text that does not end in whitespace. *)
Fixpoint no_trailing_space (s : string) : bool :=
  match s with
  | EmptyString => true
  | String c EmptyString => negb (is_space c)
  | String _ r => no_trailing_space r
  end.

(** ** Brace depth, in the words of the specification *)

Definition brace (c : ascii) : Z :=
  if Ascii.eqb c "{" then 1 else if Ascii.eqb c "}" then -1 else 0.

(** Opening braces minus closing braces. *)
Fixpoint depth (s : string) : Z :=
  match s with
  | EmptyString => 0
  | String c r => brace c + depth r
  end.

(** A balanced span: it opens with a brace, and its depth is zero at its
    end and at no place before. *)
Definition balanced_span (s : string) : Prop :=
  (exists r, s = String "{" r)
  /\ depth s = 0
  /\ forall p q, s = p ++ q -> p <> "" -> q <> "" -> depth p <> 0.

(** A text that opens with a brace and whose depth never returns to
    zero. *)
Definition never_closed (s : string) : Prop :=
  (exists r, s = String "{" r)
  /\ forall p q, s = p ++ q -> p <> "" -> depth p <> 0.

(** ** The relational store *)

(** The constraints of the schema, with the two sequences ahead of every
    key in use and every file name within its column. *)
Record wf_tables (t : Load.tables) (dseq iseq : Z) : Prop := mk_wf_tables {
  wf_document_key : NoDup (map Load.d_id (Load.documents t));
  wf_filename_unique : NoDup (map Load.d_filename (Load.documents t));
  wf_document_seq : Forall (fun r => Load.d_id r < dseq) (Load.documents t);
  wf_item_key : NoDup (map Load.li_id (Load.items t));
  wf_item_seq : Forall (fun r => Load.li_id r < iseq) (Load.items t);
  wf_reference :
    Forall (fun r => In (Load.li_document_id r)
                       (map Load.d_id (Load.documents t))) (Load.items t);
  wf_filename_fits :
    Forall (fun r => (String.length (Load.d_filename r) <= 255)%nat)
      (Load.documents t)
}.

(** What identifies a document row for good: its key and its file name. *)
Definition row_key (r : Load.documents_row) : Z * string :=
  (Load.d_id r, Load.d_filename r).

(** Every document row of [t] is still a row of [t'], under the same key
    and file name and at the same place. *)
Definition extends (t t' : Load.tables) : Prop :=
  exists more,
    map row_key (Load.documents t')
    = (map row_key (Load.documents t) ++ more)%list.

(** A store in which the committed relations and those of the open
    transaction meet the constraints, and the transaction has deleted no
    document row. *)
Record consistent (st : Load.store) : Prop := mk_consistent {
  committed_wf :
    wf_tables (Load.committed st) (Load.documents_id_seq st)
      (Load.line_items_id_seq st);
  working_wf :
    wf_tables (Load.working st) (Load.documents_id_seq st)
      (Load.line_items_id_seq st);
  working_extends : extends (Load.committed st) (Load.working st)
}.

(** The canonical view of the rows. *)
Definition line_item_of (r : Load.line_items_row) : line_item :=
  mk_line_item (Load.li_item r) (Load.li_quantity r) (Load.li_unit_price r)
    (Load.li_total r).

Definition items_of (t : Load.tables) (id : Z) : list line_item :=
  map line_item_of
    (filter (fun r => Load.li_document_id r =? id) (Load.items t)).

Definition document_of (t : Load.tables) (r : Load.documents_row)
  : document :=
  mk_document (Load.d_document_id r) (Load.d_name r) (Load.d_description r)
    (items_of t (Load.d_id r)).

(** The documents stored under a file name, one for each document row with
    that file name, each with its child rows in the order of their
    insertion. *)
Definition stored (t : Load.tables) (f : string) : list document :=
  map (document_of t)
    (filter (fun r => String.eqb (Load.d_filename r) f) (Load.documents t)).

(** ** Values as their columns hold them *)

(** A text as a VARCHAR(255) column holds it, where the server takes
    it. *)
Definition stored_text (s : string) : string :=
  match Load.varchar 255 s with
  | Some s' => s'
  | None => s
  end.

(** A number as a DECIMAL(10,2) column holds it, where the server takes
    it. *)
Definition stored_number (q : Q) : Q :=
  match Load.decimal_10_2 q with
  | Some q' => q'
  | None => q
  end.

Definition column_item (it : line_item) : line_item :=
  mk_line_item (stored_text (item it)) (stored_number (quantity it))
    (stored_number (unit_price it)) (stored_number (total it)).

(** A document as the two relations hold it: description is a TEXT column,
    which takes any text. *)
Definition column_document (doc : document) : document :=
  mk_document (stored_text (document_id doc)) (stored_text (name doc))
    (description doc) (map column_item (line_items doc)).

Definition column_batch (data : pydict document) : pydict document :=
  map (fun e => (stored_text (fst e), column_document (snd e))) data.

(** Every value of the line item, of the document, is one that the server
    takes. *)
Definition storable_item (it : line_item) : bool :=
  match Load.item_columns (item it) (quantity it) (unit_price it) (total it)
  with
  | Some _ => true
  | None => false
  end.

Definition storable (doc : document) : bool :=
  match Load.document_columns (document_id doc) (name doc) with
  | Some _ => forallb storable_item (line_items doc)
  | None => false
  end.

(** A file name of at most 255 characters: the server stores it as it
    is. *)
Definition fits_name (f : string) : bool := (String.length f <=? 255)%nat.

(** A file name that the server does not cut: it stores it as it is, or
    refuses it. *)
Definition kept_name (f : string) : bool :=
  match Load.varchar 255 f with
  | Some f' => String.eqb f' f
  | None => true
  end.

Definition storable_entry (e : string * document) : bool :=
  fits_name (fst e) && storable (snd e).

(** Every entry of the batch whose file name is longer than its column
    comes, under the name that is stored for it, before any other entry
    stored under that name, and finds no row of that name in [t]. *)
Definition cut_names_first (data : pydict document) (t : Load.tables)
  : Prop :=
  forall p e q,
    data = (p ++ e :: q)%list ->
    fits_name (fst e) = false ->
    Load.has_filename (stored_text (fst e)) t = false
    /\ forall e', In e' p -> stored_text (fst e') <> stored_text (fst e).

(** The child rows written for a line-item sequence, keys taken from
    [next] on. *)
Fixpoint item_rows (doc_id next : Z) (its : list line_item)
  : list Load.line_items_row :=
  match its with
  | [] => []
  | it :: rest =>
      Load.mk_line_items_row next doc_id (item it) (quantity it)
        (unit_price it) (total it)
      :: item_rows doc_id (next + 1) rest
  end.

(** The relations after the upsert of one document. *)
Definition upsert (f : string) (doc : document) (t : Load.tables)
    (dseq iseq : Z) : Load.tables :=
  match map Load.d_id
          (filter (fun r => String.eqb (Load.d_filename r) f)
             (Load.documents t)) with
  | id :: _ =>
      Load.mk_tables
        (map (Load.update_row (document_id doc) (name doc) (description doc)
                id) (Load.documents t))
        (filter (fun r => negb (Load.li_document_id r =? id)) (Load.items t)
         ++ item_rows id iseq (line_items doc))
  | [] =>
      Load.mk_tables
        (Load.documents t
         ++ [Load.mk_documents_row dseq f (document_id doc) (name doc)
               (description doc)])
        (Load.items t ++ item_rows dseq iseq (line_items doc))
  end.

Section Runs.

Variable server_ok : nat -> Load.request -> bool.

(** One run of the loading stage, as [run_etl] performs it:
    [loader = Load(); loader.load(data); loader.close()]. *)
Definition load_run (transformed_data : pydict document) : Load.db unit :=
  (Load.init server_ok ;;;
   Load.load server_ok transformed_data ;;;
   Load.close)%prog.

(** Runs one after the other, each on the store the run before it has
    left, whether that run returned or raised. *)
Fixpoint load_runs (batches : list (pydict document)) (st : Load.store)
  : Load.store :=
  match batches with
  | [] => st
  | b :: rest => load_runs rest (snd (load_run b st))
  end.

(** The server refuses some request. *)
Definition refuses : Prop := exists n rq, server_ok n rq = false.

(** [m] run on [st] returns, with [Q] of its result and store, unless the
    server refuses a request or [unless] holds. *)
Definition ensures {A} (m : Load.db A) (st : Load.store) (unless : Prop)
    (Q : A -> Load.store -> Prop) : Prop :=
  match m st with
  | (Ok a, st') => Q a st'
  | (Raise _, _) => refuses \/ unless
  end.

End Runs.

(** Whatever [m] does to a consistent store, returning or raising, the
    store stays consistent and keeps its committed document rows. *)
Definition safe {A} (m : Load.db A) : Prop :=
  forall st,
    consistent st ->
    consistent (snd (m st))
    /\ extends (Load.committed st) (Load.committed (snd (m st))).

(** [m] commits nothing, whether it returns or raises. *)
Definition keeps_committed {A} (m : Load.db A) : Prop :=
  forall st, Load.committed (snd (m st)) = Load.committed st.

(** ** The end-to-end scenario of the specification *)

(** What extraction yields for image 000. *)
Definition invoice_000 : pydict pyval :=
  [("document_id", PStr "INV-1");
   ("name", PStr "Acme");
   ("line_items",
    PList [PDict [("item", PStr "Widget");
                  ("qty", PStr "2");
                  ("price", PStr "10,50")]])].

(** A server that refuses every request about one file name. *)
Definition refuses_file (f : string) (n : nat) (rq : Load.request) : bool :=
  match rq with
  | Load.InsertDocument f' _ _ _ => negb (String.eqb f' f)
  | _ => true
  end.

(** ** More vocabulary *)

(** How many characters of a text satisfy a test. *)
Fixpoint count_if (p : ascii -> bool) (s : string) : nat :=
  match s with
  | EmptyString => O
  | String c r => ((if p c then 1 else 0) + count_if p r)%nat
  end.

(** A decimal separator before [replace(',', '.')]: a comma or a point. *)
Definition is_separator (c : ascii) : bool :=
  Ascii.eqb c "," || Ascii.eqb c ".".

(** The elements of a list that are dicts, in order. *)
Fixpoint dict_elements (l : list pyval) : list (pydict pyval) :=
  match l with
  | [] => []
  | PDict d :: rest => d :: dict_elements rest
  | _ :: rest => dict_elements rest
  end.

(** The dicts among the elements of the line-item list of a document: the
    value of the first of [line_items], [items] that is present, where it
    is a list. *)
Definition item_dicts (doc : pydict pyval) : list (pydict pyval) :=
  match first_present ["line_items"; "items"] doc with
  | Some (PList l) => dict_elements l
  | _ => []
  end.

(** The line item [li] holds, field by field, what the alias lists resolve
    to in the dict [it]. *)
Definition resolved (repr : pyval -> string) (it : pydict pyval)
    (li : line_item) : Prop :=
  item li = text_field repr ["item"; "description"; "name"] it
  /\ numeric_field repr ["quantity"; "qty"] it = Ok (quantity li)
  /\ numeric_field repr ["unit_price"; "price"; "unit"] it
     = Ok (unit_price li)
  /\ numeric_field repr ["total"; "amount"] it = Ok (total li).

(** A function that may raise, over a list from left to right: the results,
    or the first exception. *)
Fixpoint map_result {A B} (f : A -> result B) (l : list A)
  : result (list B) :=
  match l with
  | [] => Ok []
  | a :: rest =>
      (b <- f a ;; bs <- map_result f rest ;; Ok (b :: bs))%result
  end.

(** One entry of the mapping of [transform]: the file name with its
    cleaned document. *)
Definition clean_entry (repr : pyval -> string)
    (entry : string * pydict pyval) : result (string * document) :=
  (doc <- Transform._clean_document repr (snd entry) ;;
   Ok (fst entry, doc))%result.

(** An image whose processing raises nothing: the call returns a text, and
    the span cut out of it, if there is one, parses. *)
Definition image_ok (invoke_model : string -> result string)
    (json_loads : string -> option (pydict pyval)) (i : string) : bool :=
  match invoke_model i with
  | Ok text =>
      match Extract.first_object text with
      | None => true
      | Some span =>
          match json_loads span with
          | Some _ => true
          | None => false
          end
      end
  | Raise _ => false
  end.

(** [m] run on [st] returns with [Q] of its result and store, or raises
    the exception of a refused request, [DatabaseError], and no other. *)
Definition outcome {A} (m : Load.db A) (st : Load.store)
    (Q : A -> Load.store -> Prop) : Prop :=
  match m st with
  | (Ok a, st') => Q a st'
  | (Raise e, _) => e = DatabaseError
  end.

(** * Analyze.py *)

Module Analyze.

(** [c in chars], for a character [c] of a text. *)
Fixpoint among (chars : string) (c : ascii) : bool :=
  match chars with
  | EmptyString => false
  | String c' rest => Ascii.eqb c c' || among rest c
  end.

(** [s.strip(chars)]: the characters of [chars] are taken off the two ends
    of [s], [chars] being a set of characters and not a prefix.
    [s.strip()] is the same with the whitespace characters. *)
Fixpoint lstrip_chars (drop : ascii -> bool) (s : string) : string :=
  match s with
  | EmptyString => EmptyString
  | String c r => if drop c then lstrip_chars drop r else s
  end.

Fixpoint rstrip_chars (drop : ascii -> bool) (s : string) : string :=
  match s with
  | EmptyString => EmptyString
  | String c r =>
      match rstrip_chars drop r with
      | EmptyString => if drop c then EmptyString else String c EmptyString
      | r' => String c r'
      end
  end.

Definition strip_chars (drop : ascii -> bool) (s : string) : string :=
  rstrip_chars drop (lstrip_chars drop s).

Definition newline : ascii := "010"%char.

(** The literal ['```latex\n']. *)
Definition fence : string := "```latex" ++ String newline EmptyString.

Section WithModel.

(** The rows of the two relations put into the prompt, the call of the
    model and the text of its reply: services outside this repository. *)
Variable generate : Load.tables -> result string.

(** [analyze]: the reply,
    [latex.strip('```latex\n').strip('```').strip()]. *)
Definition analyze (t : Load.tables) : result string :=
  (latex <- generate t ;;
   Ok (strip_chars is_space
         (strip_chars (among "```")
            (strip_chars (among fence) latex))))%result.

End WithModel.

End Analyze.

(** ** Vocabulary for the ends of a text *)

Fixpoint all_chars (p : ascii -> bool) (s : string) : bool :=
  match s with
  | EmptyString => true
  | String c r => p c && all_chars p r
  end.

(** The text does not begin with a character of [p]. *)
Definition clean_head (p : ascii -> bool) (s : string) : bool :=
  match s with
  | EmptyString => true
  | String c _ => negb (p c)
  end.

(** The text does not end with a character of [p]. *)
Fixpoint clean_last (p : ascii -> bool) (s : string) : bool :=
  match s with
  | EmptyString => true
  | String c EmptyString => negb (p c)
  | String _ r => clean_last p r
  end.

(** A character that [analyze] may take off an end: one of the fence
    literal, or whitespace. *)
Definition wrapping (c : ascii) : bool :=
  Analyze.among Analyze.fence c || is_space c.

(** * app.py: the polling of the queue *)

Module Poll.

(** A message of the queue, with the two fields that [poll_sqs] reads. *)
Record message : Type := mk_message {
  Body : string;
  ReceiptHandle : string
}.

(** What is outside the pipeline: the receipt handles of the messages
    deleted from the queue, in order, and the store. *)
Record world : Type := mk_world {
  deleted : list string;
  db : Load.store
}.

(** A step of the pipeline, as a step of the world. *)
Definition on_db {A} (m : Load.db A) : prog world A :=
  fun w =>
    let (r, st) := m (db w) in (r, mk_world (deleted w) st).

(** The statements of the [try] block raise [KeyError], [IndexError],
    [TypeError], [AttributeError] or what [json.loads] raises; the handler
    [except Exception] catches each of them, so the block is modelled with
    [option], [None] being an exception. *)
Definition and_then {A B} (o : option A) (k : A -> option B) : option B :=
  match o with
  | Some a => k a
  | None => None
  end.

(** [sub in s] for two texts. *)
Fixpoint occurs (sub s : string) : bool :=
  String.prefix sub s
  || match s with
     | EmptyString => false
     | String _ r => occurs sub r
     end.

(** ['Records' in body]: a key of a dict, an element of a list, a part of
    a text; [TypeError] on the other values. *)
Definition has_records (body : pyval) : option bool :=
  match body with
  | PDict d =>
      Some (match lookup "Records" d with Some _ => true | None => false end)
  | PList l => Some (existsb (fun v => eq_str v "Records") l)
  | PStr s => Some (occurs "Records" s)
  | _ => None
  end.

(** [v[k]] for a text [k]: the value of a dict, [KeyError] where the key is
    missing, [TypeError] on any other value. *)
Definition item (v : pyval) (k : string) : option pyval :=
  match v with
  | PDict d => lookup k d
  | _ => None
  end.

(** [v[0]]: the first element of a list or character of a text,
    [IndexError] where it is empty; [KeyError] on a dict, whose keys are
    texts; [TypeError] on the other values. *)
Definition item0 (v : pyval) : option pyval :=
  match v with
  | PList l => hd_error l
  | PStr (String c _) => Some (PStr (String c EmptyString))
  | _ => None
  end.

(** [body['Records'][0]['s3']['object']['key']] *)
Definition key_of (body : pyval) : option pyval :=
  and_then (item body "Records") (fun records =>
  and_then (item0 records) (fun record =>
  and_then (item record "s3") (fun s3 =>
  and_then (item s3 "object") (fun object =>
  item object "key")))).

(** [s.endswith(suffix)] *)
Fixpoint endswith (s suffix : string) : bool :=
  String.eqb s suffix
  || match s with
     | EmptyString => false
     | String _ r => endswith r suffix
     end.

(** [s.replace(old, '')] for a text [old] that is not empty: from left to
    right, each occurrence of [old] that does not overlap the one before
    it is dropped.  [skip] counts the characters still to drop of the
    occurrence that is being dropped. *)
Fixpoint remove_all (old : string) (skip : nat) (s : string) : string :=
  match s with
  | EmptyString => EmptyString
  | String c r =>
      match skip with
      | S k => remove_all old k r
      | O =>
          if String.prefix old s
          then remove_all old (String.length old - 1) r
          else String c (remove_all old 0 r)
      end
  end.

Definition replace_with_empty (s old : string) : string :=
  remove_all old 0 s.

Section WithServices.

Variable repr : pyval -> string.
Variable invoke_model : string -> result string.

(** [json.loads]: the value, or [None] where it raises. *)
Variable loads : string -> option pyval.

Variable server_ok : nat -> Load.request -> bool.
Variable report : Load.tables -> result unit.

(** [sqs.delete_message]: whether the queue accepts the deletion, given
    how many it has accepted before. *)
Variable delete_ok : nat -> string -> bool.

(** [json.loads] on a span cut out by [Extract]: a span begins with a
    brace, so what parses is an object. *)
Definition loads_object (span : string) : option (pydict pyval) :=
  match loads span with
  | Some (PDict d) => Some d
  | _ => None
  end.

(** The [try] block on one message: the list [images] after it, or [None]
    where a statement raises, which is before anything is appended. *)
Definition try_block (images : list string) (msg : message)
  : option (list string) :=
  and_then (loads (Body msg)) (fun body =>
  and_then (has_records body) (fun found =>
  if found then
    and_then (key_of body) (fun key =>
    match key with
    | PStr k =>
        if endswith k ".jpg"
        then Some (images ++ [replace_with_empty k ".jpg"])%list
        else Some images
    | _ => None
    end)
  else Some images)).

Definition delete_message (handle : string) : prog world unit :=
  fun w =>
    if delete_ok (List.length (deleted w)) handle
    then (Ok tt, mk_world (deleted w ++ [handle]) (db w))
    else (Raise ClientError, w).

(** [for msg in response['Messages']]: the [try] block, its handler, which
    only prints, and the deletion of the [finally] clause. *)
Fixpoint for_messages (msgs : list message) (images : list string)
  : prog world (list string) :=
  match msgs with
  | [] => ret images
  | msg :: rest =>
      let images' :=
        match try_block images msg with
        | Some l => l
        | None => images
        end in
      (delete_message (ReceiptHandle msg) ;;;
       for_messages rest images')%prog
  end.

(** One turn of the loop [while True] on the response received, which
    holds messages or has no key ['Messages']. *)
Definition poll_turn (response : option (list message)) : prog world unit :=
  match response with
  | Some msgs =>
      (images <- for_messages msgs [] ;;
       match images with
       | [] => ret tt
       | _ :: _ =>
           on_db (run_etl repr invoke_model loads_object server_ok report
                    images)
       end)%prog
  | None => ret tt
  end.

(** [poll_sqs] on the responses that [receive_message] returns one after
    the other: the loop does not end by itself, and the result is the
    world when these responses are dealt with, or the exception that ends
    the loop before.  [queue_url] is [None] where the variable is not
    set. *)
Fixpoint poll_loop (responses : list (option (list message)))
  : prog world unit :=
  match responses with
  | [] => ret tt
  | response :: rest => (poll_turn response ;;; poll_loop rest)%prog
  end.

Definition poll_sqs (queue_url : option string)
    (responses : list (option (list message))) : prog world unit :=
  match queue_url with
  | None | Some EmptyString => ret tt
  | Some _ => poll_loop responses
  end.

End WithServices.

End Poll.

(** ** Vocabulary for the polling *)

(** The images that one message adds to the batch: one or none. *)
Definition images_of (loads : string -> option pyval) (msg : Poll.message)
  : list string :=
  match Poll.try_block loads [] msg with
  | Some l => l
  | None => []
  end.

(** The body of the notification of one object of the bucket. *)
Definition notification (key : pyval) : pyval :=
  PDict [("Records",
          PList [PDict [("s3", PDict [("object", PDict [("key", key)])])]])].

(** * The text of an integer reads back as the integer *)

Lemma Qred_integer (z : Z) : Qred (z # 1) = z # 1.
Proof.
  destruct z as [|p|p]; [reflexivity | destruct p; reflexivity
                        | destruct p; reflexivity].
Qed.

Lemma digits_of_uint_acc (d : Decimal.uint) (acc : positive) :
  Transform.digits_to_Z (Z.pos acc) (NilEmpty.string_of_uint d)
  = Z.pos (Pos.of_uint_acc d acc).
Proof.
  revert acc.
  induction d; intros acc;
    cbn [NilEmpty.string_of_uint Transform.digits_to_Z Pos.of_uint_acc];
    auto; rewrite <- IHd; f_equal;
    match goal with
    | |- context [digit_value ?c] =>
        let v := eval vm_compute in (digit_value c) in
        change (digit_value c) with v
    end; lia.
Qed.

Lemma digits_of_uint (d : Decimal.uint) :
  Transform.digits_to_Z 0 (NilEmpty.string_of_uint d)
  = Z.of_N (Pos.of_uint d).
Proof.
  induction d; simpl; auto; apply digits_of_uint_acc.
Qed.

Lemma all_digits_of_uint (d : Decimal.uint) :
  Transform.all_digits (NilEmpty.string_of_uint d) = true.
Proof. induction d; simpl; auto. Qed.

Lemma split_point_digits (s : string) :
  Transform.all_digits s = true -> Transform.split_point s = (s, None).
Proof.
  induction s as [|c r IH]; simpl; auto.
  intros H. apply andb_prop in H as [Hc Hr]. rewrite (IH Hr).
  destruct (Ascii.eqb_spec c "."); [subst c; discriminate | reflexivity].
Qed.

Lemma append_empty (s : string) : s ++ EmptyString = s.
Proof. induction s; simpl; congruence. Qed.

Lemma unsigned_decimal_of_pos (p : positive) :
  Transform.unsigned_decimal (NilEmpty.string_of_uint (Pos.to_uint p))
  = Some (Z.pos p # 1).
Proof.
  unfold Transform.unsigned_decimal.
  rewrite (split_point_digits _ (all_digits_of_uint _)).
  rewrite append_empty, all_digits_of_uint.
  assert (Hlen : (0 <? String.length
                         (NilEmpty.string_of_uint (Pos.to_uint p)))%nat = true).
  { pose proof (Unsigned.to_uint_nonnil p) as Hn.
    destruct (Pos.to_uint p); try congruence; reflexivity. }
  rewrite Hlen. cbn [andb String.length Transform.pow10].
  rewrite digits_of_uint, Unsigned.of_to. cbn [Z.of_N].
  now rewrite Qred_integer.
Qed.

Lemma decimal_unsigned (s : string) :
  Transform.all_digits s = true ->
  Transform.Decimal s = Transform.unsigned_decimal s.
Proof.
  destruct s as [|c r]; auto. simpl. intros H.
  apply andb_prop in H as [Hc _].
  destruct c as [[] [] [] [] [] [] [] []]; try reflexivity; discriminate.
Qed.

Lemma string_of_uint_nonnil (d : Decimal.uint) :
  d <> Decimal.Nil ->
  NilZero.string_of_uint d = NilEmpty.string_of_uint d.
Proof. destruct d; intros H; [congruence | reflexivity ..]. Qed.

(** [Decimal(str(z))] is [z]. *)
Lemma decimal_of_int (z : Z) :
  Transform.Decimal (Z_to_string z) = Some (inject_Z z).
Proof.
  unfold Z_to_string. destruct z as [|p|p].
  - reflexivity.
  - cbn [Z.to_int NilZero.string_of_int].
    rewrite string_of_uint_nonnil by apply Unsigned.to_uint_nonnil.
    rewrite decimal_unsigned by apply all_digits_of_uint.
    apply unsigned_decimal_of_pos.
  - cbn [Z.to_int NilZero.string_of_int].
    rewrite string_of_uint_nonnil by apply Unsigned.to_uint_nonnil.
    change (Transform.Decimal
              (String "-" (NilEmpty.string_of_uint (Pos.to_uint p))))
      with (option_map (fun q => Qred (- q))
              (Transform.unsigned_decimal
                 (NilEmpty.string_of_uint (Pos.to_uint p)))).
    rewrite unsigned_decimal_of_pos. cbn [option_map].
    change (- (Z.pos p # 1))%Q with (Z.neg p # 1).
    now rewrite Qred_integer.
Qed.

(** * Properties of Transform *)

Section TransformFacts.

Variable repr : pyval -> string.

Local Abbreviation _clean_text := (Transform._clean_text repr).
Local Abbreviation _to_decimal := (Transform._to_decimal repr).
Local Abbreviation clean_item := (Transform.clean_item repr).
Local Abbreviation _clean_line_items := (Transform._clean_line_items repr).
Local Abbreviation _clean_document := (Transform._clean_document repr).
Local Abbreviation transform := (Transform.transform repr).

(** ** Alias resolution *)

Lemma get2 (d : pydict pyval) (k1 k2 : string) (default : pyval) :
  get d k1 (get d k2 default)
  = match first_present [k1; k2] d with Some v => v | None => default end.
Proof.
  unfold get. simpl. destruct (lookup k1 d), (lookup k2 d); reflexivity.
Qed.

Lemma get3 (d : pydict pyval) (k1 k2 k3 : string) (default : pyval) :
  get d k1 (get d k2 (get d k3 default))
  = match first_present [k1; k2; k3] d with
    | Some v => v
    | None => default
    end.
Proof.
  unfold get. simpl.
  destruct (lookup k1 d), (lookup k2 d), (lookup k3 d); reflexivity.
Qed.

Lemma get4 (d : pydict pyval) (k1 k2 k3 k4 : string) (default : pyval) :
  get d k1 (get d k2 (get d k3 (get d k4 default)))
  = match first_present [k1; k2; k3; k4] d with
    | Some v => v
    | None => default
    end.
Proof.
  unfold get. simpl.
  destruct (lookup k1 d), (lookup k2 d), (lookup k3 d), (lookup k4 d);
    reflexivity.
Qed.

(** Nested [get] calls with a last default are the first alias present;
    the longest nest is folded first. *)
Ltac fold_aliases := rewrite ?get4, ?get3, ?get2.

Lemma first_present_head (k : string) (rest : list string)
    (d : pydict pyval) (v : pyval) :
  lookup k d = Some v -> first_present (k :: rest) d = Some v.
Proof. intros H. simpl. now rewrite H. Qed.

Lemma first_present_skip (k : string) (rest : list string)
    (d : pydict pyval) :
  lookup k d = None -> first_present (k :: rest) d = first_present rest d.
Proof. intros H. simpl. now rewrite H. Qed.

(** The value found is the value of an alias, and every alias before it is
    absent. *)
Lemma first_present_spec (aliases : list string) (d : pydict pyval)
    (v : pyval) :
  first_present aliases d = Some v <->
  exists before k after,
    aliases = (before ++ k :: after)%list
    /\ lookup k d = Some v
    /\ Forall (fun k' => lookup k' d = None) before.
Proof.
  induction aliases as [|a rest IH]; simpl.
  - split; [discriminate|]. intros (b & k & af & E & _).
    destruct b; discriminate.
  - destruct (lookup a d) as [w|] eqn:La.
    + split.
      * intros [= <-]. exists [], a, rest. repeat split; auto.
      * intros (b & k & af & E & Lk & Fb). destruct b as [|b0 b]; simpl in E.
        -- injection E as <- _. congruence.
        -- injection E as <- _. inversion Fb; congruence.
    + rewrite IH. split.
      * intros (b & k & af & E & Lk & Fb). exists (a :: b), k, af.
        subst rest. repeat split; auto.
      * intros (b & k & af & E & Lk & Fb). destruct b as [|b0 b]; simpl in E.
        -- injection E as <- _. congruence.
        -- injection E as _ ->. inversion Fb; subst. now exists b, k, af.
Qed.

Lemma first_present_none (aliases : list string) (d : pydict pyval) :
  first_present aliases d = None <->
  Forall (fun k => lookup k d = None) aliases.
Proof.
  induction aliases as [|a rest IH]; simpl.
  - split; auto.
  - destruct (lookup a d) eqn:La.
    + split; [discriminate|]. intros H. inversion H; congruence.
    + rewrite IH. split; intros H.
      * constructor; auto.
      * now inversion H.
Qed.

Lemma clean_text_sentinel : _clean_text (PStr "N/A") = "N/A".
Proof. reflexivity. Qed.

Lemma to_decimal_zero : _to_decimal (PInt 0) = Ok 0%Q.
Proof. reflexivity. Qed.

Lemma text_field_get (aliases : list string) (d : pydict pyval) :
  _clean_text
    (match first_present aliases d with Some v => v | None => PStr "N/A" end)
  = text_field repr aliases d.
Proof. unfold text_field. destruct (first_present aliases d); reflexivity. Qed.

Lemma numeric_field_get (aliases : list string) (d : pydict pyval) :
  _to_decimal
    (match first_present aliases d with Some v => v | None => PInt 0 end)
  = numeric_field repr aliases d.
Proof.
  unfold numeric_field. destruct (first_present aliases d); reflexivity.
Qed.

Lemma items_field_get (d : pydict pyval) :
  _clean_line_items
    (match first_present ["line_items"; "items"] d with
     | Some v => v
     | None => PList []
     end)
  = items_field repr d.
Proof.
  unfold items_field. destruct (first_present _ d); reflexivity.
Qed.

(** The nested [get] calls of [_clean_document] and of the loop over the
    line items, as resolutions over the alias lists. *)
Lemma alias_equations :
  (forall doc : pydict pyval,
     _clean_document doc =
     (line_items_ <- items_field repr doc ;;
      Ok {| document_id := text_field repr ["document_id"; "id"; "number"] doc;
            name := text_field repr
                      ["name"; "contractor"; "supplier"; "client"] doc;
            description := text_field repr ["description"; "desc"] doc;
            line_items := line_items_ |})%result)
  /\
  (forall it : pydict pyval,
     clean_item it =
     (quantity_ <- numeric_field repr ["quantity"; "qty"] it ;;
      unit_price_ <- numeric_field repr ["unit_price"; "price"; "unit"] it ;;
      total_ <- numeric_field repr ["total"; "amount"] it ;;
      Ok {| item := text_field repr ["item"; "description"; "name"] it;
            quantity := quantity_;
            unit_price := unit_price_;
            total := total_ |})%result).
Proof.
  split.
  - intros doc. unfold Transform._clean_document. fold_aliases.
    rewrite !text_field_get, items_field_get. reflexivity.
  - intros it. unfold Transform.clean_item. fold_aliases.
    rewrite !numeric_field_get, text_field_get. reflexivity.
Qed.

(** ** Text cleaning *)

Lemma clean_text_falsy (v : pyval) :
  truthy v = false -> _clean_text v = "N/A".
Proof. intros H. unfold Transform._clean_text. now rewrite H. Qed.

Lemma clean_text_regular (v : pyval) :
  truthy v = true -> eq_str v "N/A" = false ->
  _clean_text v
  = Transform.sub_spaces false (Transform.strip (Transform.str repr v)).
Proof. intros H1 H2. unfold Transform._clean_text. now rewrite H1, H2. Qed.

Lemma rstrip_no_trailing_space (s : string) :
  no_trailing_space (Transform.rstrip s) = true.
Proof.
  induction s as [|c r IH]; simpl; auto.
  destruct (Transform.rstrip r) as [|c' r'] eqn:E.
  - destruct (is_space c) eqn:Hc; simpl; auto. now rewrite Hc.
  - simpl in *. exact IH.
Qed.

Lemma rstrip_head (c : ascii) (r : string) :
  is_space c = false ->
  Transform.rstrip (String c r) = String c (Transform.rstrip r).
Proof.
  intros Hc. simpl. rewrite Hc. now destruct (Transform.rstrip r).
Qed.

Lemma lstrip_head (s : string) :
  match Transform.lstrip s with
  | EmptyString => True
  | String c _ => is_space c = false
  end.
Proof.
  induction s as [|c r IH]; simpl; auto.
  destruct (is_space c) eqn:Hc; auto.
Qed.

Lemma strip_head (s : string) :
  match Transform.strip s with
  | EmptyString => True
  | String c _ => is_space c = false
  end.
Proof.
  unfold Transform.strip. pose proof (lstrip_head s) as H.
  destruct (Transform.lstrip s) as [|c r]; simpl; auto.
  rewrite H. now destruct (Transform.rstrip r).
Qed.

Lemma sub_spaces_tidy (s : string) :
  no_trailing_space s = true ->
  tidy_from false (Transform.sub_spaces false s) = true
  /\ (s <> EmptyString ->
      tidy_from true (Transform.sub_spaces true s) = true).
Proof.
  induction s as [|c r IH]; intros Hs.
  - split; [reflexivity | congruence].
  - assert (Hr : no_trailing_space r = true).
    { destruct r; [reflexivity | exact Hs]. }
    destruct (IH Hr) as [IH1 IH2].
    simpl. destruct (is_space c) eqn:Hc.
    + assert (Hne : r <> EmptyString).
      { intros ->. simpl in Hs. now rewrite Hc in Hs. }
      split.
      * simpl. now apply IH2.
      * intros _. now apply IH2.
    + split; [|intros _]; simpl; rewrite Hc; exact IH1.
Qed.

(** What [_clean_text] computes from a text is tidy: trimmed at both ends,
    with single spaces as its only whitespace. *)
Lemma clean_text_tidy (s : string) :
  tidy (Transform.sub_spaces false (Transform.strip s)) = true.
Proof.
  pose proof (strip_head s) as Hh.
  assert (Ht : no_trailing_space (Transform.strip s) = true)
    by apply rstrip_no_trailing_space.
  destruct (Transform.strip s) as [|c r] eqn:E; [reflexivity|].
  destruct (sub_spaces_tidy _ Ht) as [H1 _].
  simpl in H1 |- *. rewrite Hh in H1 |- *.
  unfold tidy. rewrite Hh. exact H1.
Qed.

Lemma visible_sub_spaces (b : bool) (s : string) :
  visible (Transform.sub_spaces b s) = visible s.
Proof.
  revert b. induction s as [|c r IH]; intros b; simpl; auto.
  destruct (is_space c) eqn:Hc.
  - destruct b; simpl; now rewrite ?IH.
  - simpl. now rewrite Hc, IH.
Qed.

Lemma visible_lstrip (s : string) : visible (Transform.lstrip s) = visible s.
Proof.
  induction s as [|c r IH]; simpl; auto.
  destruct (is_space c) eqn:Hc; simpl; auto. now rewrite Hc.
Qed.

Lemma visible_rstrip (s : string) : visible (Transform.rstrip s) = visible s.
Proof.
  induction s as [|c r IH]; simpl; auto.
  destruct (Transform.rstrip r) as [|c' r'] eqn:E.
  - destruct (is_space c) eqn:Hc; simpl; rewrite ?Hc; now rewrite <- IH.
  - simpl in *. destruct (is_space c); now rewrite <- IH.
Qed.

(** Cleaning changes whitespace only. *)
Lemma clean_text_visible (s : string) :
  visible (Transform.sub_spaces false (Transform.strip s)) = visible s.
Proof.
  unfold Transform.strip.
  now rewrite visible_sub_spaces, visible_rstrip, visible_lstrip.
Qed.

Lemma sub_spaces_empty (b : bool) (s : string) :
  Transform.sub_spaces b s = EmptyString ->
  s = EmptyString \/ b = true.
Proof.
  destruct s as [|c r]; simpl; auto.
  destruct (is_space c), b; auto; discriminate.
Qed.

(** The result is empty exactly on a truthy value whose text is all
    whitespace. *)
Lemma clean_text_empty_iff (v : pyval) :
  _clean_text v = "" <->
  truthy v = true /\ Transform.strip (Transform.str repr v) = "".
Proof.
  unfold Transform._clean_text.
  destruct (truthy v) eqn:Ht; simpl.
  - destruct (eq_str v "N/A") eqn:Es.
    + split; [discriminate|]. intros [_ H].
      destruct v; try discriminate. simpl in Es.
      apply String.eqb_eq in Es. subst s. discriminate.
    + split.
      * intros H. split; auto.
        destruct (sub_spaces_empty _ _ H); [assumption | discriminate].
      * intros [_ ->]. reflexivity.
  - split; [discriminate | intros [? _]; discriminate].
Qed.

(** C5.  A text of whitespace only is truthy, passes the guard of
    [_clean_text] and is stripped to the empty string, where the claim has
    the sentinel 'N/A' and never the empty string. *)
Theorem clean_text_blank_is_empty : _clean_text (PStr "   ") = "".
Proof. reflexivity. Qed.

(** ** Numeric coercion *)

Lemma to_decimal_of_bool (b : bool) :
  _to_decimal (PBool b) = Raise InvalidOperation.
Proof. destruct b; reflexivity. Qed.

(** Coercion returns on every value that is not a [bool]. *)
Lemma to_decimal_of_int (z : Z) : _to_decimal (PInt z) = Ok (inject_Z z).
Proof.
  unfold Transform._to_decimal, Transform.str. now rewrite decimal_of_int.
Qed.

Lemma to_decimal_returns (v : pyval) :
  coercible v = true -> exists q, _to_decimal v = Ok q.
Proof.
  destruct v as [ |b|z|q|s|l|d]; simpl; try discriminate; intros _; eauto.
  - rewrite decimal_of_int. eauto.
  - destruct (Transform.Decimal _); eauto.
Qed.

Lemma to_decimal_raises_iff (v : pyval) :
  (exists e, _to_decimal v = Raise e) <-> coercible v = false.
Proof.
  split.
  - intros [e He]. destruct (coercible v) eqn:Hc; auto.
    destruct (to_decimal_returns v Hc) as [q Hq]. congruence.
  - destruct v; try discriminate. intros _.
    exists InvalidOperation. apply to_decimal_of_bool.
Qed.

(** Coercion of a text: what is left of it is parsed, and a failure of the
    parse is zero. *)
Lemma to_decimal_of_str (s : string) :
  _to_decimal (PStr s)
  = Ok (match Transform.Decimal
                (Transform.replace_comma (Transform.keep_numeric s)) with
        | Some q => q
        | None => 0%Q
        end).
Proof. simpl. now destruct (Transform.Decimal _). Qed.

(** C6.  Coercion of the JSON value [true] raises [InvalidOperation]
    instead of returning: [bool] passes the [isinstance] test on [int], and
    [Decimal('True')] is evaluated outside of any [try]. *)
Theorem to_decimal_true_raises :
  _to_decimal (PBool true) = Raise InvalidOperation.
Proof. reflexivity. Qed.

(** ** The coercion and the cleaning on sample values *)

Example to_decimal_comma : _to_decimal (PStr "10,50") = Ok (21 # 2).
Proof. reflexivity. Qed.

Example to_decimal_currency : _to_decimal (PStr "USD -12.5 ") = Ok (-25 # 2).
Proof. reflexivity. Qed.

Example to_decimal_two_separators : _to_decimal (PStr "1.234,56") = Ok 0%Q.
Proof. reflexivity. Qed.

Example to_decimal_words : _to_decimal (PStr "two") = Ok 0%Q.
Proof. reflexivity. Qed.

Example to_decimal_null : _to_decimal PNone = Ok 0%Q.
Proof. reflexivity. Qed.

Example to_decimal_int : _to_decimal (PInt (-7)) = Ok (-7 # 1).
Proof. reflexivity. Qed.

Example clean_text_spaces :
  _clean_text (PStr "  Acme    Tools Ltd ") = "Acme Tools Ltd".
Proof. reflexivity. Qed.

Example clean_text_number : _clean_text (PInt 1024) = "1024".
Proof. reflexivity. Qed.

Example clean_text_null : _clean_text PNone = "N/A".
Proof. reflexivity. Qed.

(** ** Presence, not usability *)

(** A falsy value that is not a [bool] is coerced to zero. *)
Lemma to_decimal_falsy (v : pyval) :
  truthy v = false -> coercible v = true ->
  exists q, _to_decimal v = Ok q /\ (q == 0)%Q.
Proof.
  destruct v; simpl; try discriminate; intros Ht _.
  - exists 0%Q. split; reflexivity.
  - apply negb_false_iff, Z.eqb_eq in Ht. subst z.
    exists (inject_Z 0). split; reflexivity.
  - apply negb_false_iff, Z.eqb_eq in Ht.
    exists q. split; auto. unfold Qeq. simpl. rewrite Ht. reflexivity.
  - apply negb_false_iff, String.eqb_eq in Ht. subst s.
    exists 0%Q. split; reflexivity.
  - exists 0%Q. split; reflexivity.
  - exists 0%Q. split; reflexivity.
Qed.

(** An alias that is present wins over the later ones whatever it holds:
    a falsy value gives the text default. *)
Lemma text_field_falsy (k : string) (rest : list string) (d : pydict pyval)
    (v : pyval) :
  lookup k d = Some v -> truthy v = false ->
  text_field repr (k :: rest) d = "N/A".
Proof.
  intros Hk Hv. unfold text_field.
  rewrite (first_present_head k rest d v Hk). now apply clean_text_falsy.
Qed.

Lemma numeric_field_falsy (k : string) (rest : list string)
    (d : pydict pyval) (v : pyval) :
  lookup k d = Some v -> truthy v = false -> coercible v = true ->
  exists q, numeric_field repr (k :: rest) d = Ok q /\ (q == 0)%Q.
Proof.
  intros Hk Hv Hc. unfold numeric_field.
  rewrite (first_present_head k rest d v Hk). now apply to_decimal_falsy.
Qed.

(** C9.  With [quantity] present and holding the falsy value [false] and
    [qty] holding 5, the earlier alias wins, but the field does not become
    0.0: the coercion of [false] raises and no line item is built. *)
Theorem falsy_bool_alias_raises :
  clean_item [("quantity", PBool false); ("qty", PInt 5)]
  = Raise InvalidOperation.
Proof. reflexivity. Qed.

(** ** The mapping built by [transform] *)

Lemma in_keys_setitem {V} (d : pydict V) (k k' : string) (v : V) :
  In k (keys (setitem d k' v)) <-> k = k' \/ In k (keys d).
Proof.
  induction d as [|[k0 v0] d IH]; simpl.
  - intuition.
  - destruct (String.eqb_spec k' k0) as [->|Hn]; simpl.
    + intuition.
    + unfold keys in IH. rewrite IH. intuition.
Qed.

Lemma keys_setitem_new {V} (d : pydict V) (k : string) (v : V) :
  ~ In k (keys d) -> keys (setitem d k v) = (keys d ++ [k])%list.
Proof.
  induction d as [|[k0 v0] d IH]; simpl; intros Hn; auto.
  destruct (String.eqb_spec k k0) as [->|Hk]; simpl.
  - exfalso. auto.
  - f_equal. apply IH. intros Hin. auto.
Qed.

Lemma lookup_setitem {V} (d : pydict V) (k k' : string) (v : V) :
  lookup k (setitem d k' v)
  = if String.eqb k k' then Some v else lookup k d.
Proof.
  induction d as [|[k0 v0] d IH]; simpl.
  - reflexivity.
  - destruct (String.eqb_spec k' k0) as [->|Hn]; simpl.
    + destruct (String.eqb k k0); reflexivity.
    + rewrite IH. destruct (String.eqb_spec k k0) as [->|Hk]; auto.
      destruct (String.eqb_spec k0 k'); congruence.
Qed.

Lemma lookup_none_keys {V} (d : pydict V) (k : string) :
  lookup k d = None <-> ~ In k (keys d).
Proof.
  induction d as [|[k0 v0] d IH]; simpl.
  - intuition.
  - destruct (String.eqb_spec k k0) as [->|Hk].
    + split; [discriminate | intros H; exfalso; auto].
    + rewrite IH. intuition.
Qed.

Lemma transform_loop_keys (e : pydict (pydict pyval))
    (t t' : pydict document) :
  Transform.transform_loop repr e t = Ok t' ->
  forall k, In k (keys t') <-> In k (keys t) \/ In k (keys e).
Proof.
  revert t. induction e as [|[f data] e IH]; simpl; intros t H k.
  - injection H as <-. intuition.
  - destruct (_clean_document data) as [doc|] eqn:Hd; simpl in H;
      [|discriminate].
    rewrite (IH _ H k), in_keys_setitem. intuition.
Qed.

Lemma transform_loop_keys_exact (e : pydict (pydict pyval))
    (t t' : pydict document) :
  Transform.transform_loop repr e t = Ok t' ->
  NoDup (keys t ++ keys e) ->
  keys t' = (keys t ++ keys e)%list.
Proof.
  revert t. induction e as [|[f data] e IH]; simpl; intros t H Hnd.
  - injection H as <-. now rewrite app_nil_r.
  - destruct (_clean_document data) as [doc|] eqn:Hd; simpl in H;
      [|discriminate].
    assert (Hf : ~ In f (keys t)).
    { apply NoDup_remove_2 in Hnd. intros Hin. apply Hnd.
      apply in_or_app. now left. }
    rewrite (IH _ H); rewrite keys_setitem_new by assumption.
    + now rewrite <- app_assoc.
    + now rewrite <- app_assoc.
Qed.

(** Where [transform] returns, its result has the file names of its input,
    in the same order. *)
Lemma transform_keys (e : pydict (pydict pyval)) (t : pydict document) :
  transform e = Ok t ->
  (forall k, In k (keys t) <-> In k (keys e))
  /\ (NoDup (keys e) -> keys t = keys e).
Proof.
  intros H. split.
  - intros k. rewrite (transform_loop_keys _ _ _ H k). simpl. intuition.
  - intros Hnd. now apply (transform_loop_keys_exact _ _ _ H).
Qed.

Lemma transform_loop_lookup (e : pydict (pydict pyval))
    (t t' : pydict document) :
  Transform.transform_loop repr e t = Ok t' ->
  NoDup (keys e) ->
  forall k,
    match lookup k e with
    | Some data => exists doc,
        _clean_document data = Ok doc /\ lookup k t' = Some doc
    | None => lookup k t' = lookup k t
    end.
Proof.
  revert t. induction e as [|[f data] e IH]; simpl; intros t H Hnd k.
  - now injection H as <-.
  - destruct (_clean_document data) as [doc|] eqn:Hd; simpl in H;
      [|discriminate].
    inversion Hnd as [|? ? Hf Hnd']; subst.
    specialize (IH _ H Hnd' k).
    destruct (String.eqb_spec k f) as [->|Hk].
    + apply lookup_none_keys in Hf. rewrite Hf in IH.
      exists doc. split; auto. rewrite IH, lookup_setitem.
      now rewrite String.eqb_refl.
    + destruct (lookup k e); auto.
      rewrite IH, lookup_setitem.
      destruct (String.eqb_spec k f); congruence.
Qed.

(** Where [transform] returns, the value under a file name is the cleaned
    document of that file name. *)
Lemma transform_lookup (e : pydict (pydict pyval)) (t : pydict document)
    (k : string) (data : pydict pyval) :
  transform e = Ok t -> NoDup (keys e) -> lookup k e = Some data ->
  exists doc, _clean_document data = Ok doc /\ lookup k t = Some doc.
Proof.
  intros H Hnd Hk. pose proof (transform_loop_lookup _ _ _ H Hnd k) as L.
  now rewrite Hk in L.
Qed.

Lemma clean_item_returns (it : pydict pyval) :
  item_coercible it = true -> exists c, clean_item it = Ok c.
Proof.
  unfold item_coercible, Transform.clean_item. intros H.
  apply andb_prop in H as [H Ht]. apply andb_prop in H as [Hq Hu].
  destruct (to_decimal_returns _ Hq) as [q ->].
  destruct (to_decimal_returns _ Hu) as [u ->].
  destruct (to_decimal_returns _ Ht) as [t ->].
  simpl. eauto.
Qed.

Lemma clean_loop_returns (l : list pyval) (cleaned : list line_item) :
  forallb element_coercible l = true ->
  exists c, Transform.clean_loop repr l cleaned = Ok c.
Proof.
  revert cleaned. induction l as [|x l IH]; simpl; intros cleaned H.
  - eauto.
  - apply andb_prop in H as [Hx Hl].
    destruct x; auto.
    destruct (clean_item_returns _ Hx) as [c ->]. simpl. auto.
Qed.

Lemma clean_document_returns (doc : pydict pyval) :
  document_coercible doc = true -> exists d, _clean_document doc = Ok d.
Proof.
  unfold document_coercible, Transform._clean_document,
    Transform._clean_line_items.
  destruct (get doc "line_items" (get doc "items" (PList []))) as
    [ |b|z|q|s|l|d]; simpl; rewrite ?orb_true_r; simpl; eauto.
  intros H. destruct l as [|x l]; simpl; eauto.
  destruct (clean_loop_returns (x :: l) [] H) as [c Hc].
  simpl in Hc. rewrite Hc. simpl. eauto.
Qed.

(** [transform] returns on every batch no numeric field of which resolves
    to a [bool]. *)
Lemma transform_returns (e : pydict (pydict pyval)) :
  forallb document_coercible (map snd e) = true ->
  exists t, transform e = Ok t.
Proof.
  unfold Transform.transform. generalize (@nil (string * document)).
  induction e as [|[f data] e IH]; simpl; intros t H.
  - eauto.
  - apply andb_prop in H as [Hd He].
    destruct (clean_document_returns _ Hd) as [d ->]. simpl. auto.
Qed.

(** C10.  On a batch of one document whose line item holds the JSON value
    [true] under [quantity], [transform] raises [InvalidOperation] and
    returns no mapping at all, where the claim has a mapping with the file
    name of the input. *)
Theorem transform_bool_quantity_raises :
  transform
    [("a.jpg", [("line_items", PList [PDict [("quantity", PBool true)]])])]
  = Raise InvalidOperation.
Proof. reflexivity. Qed.

End TransformFacts.

(** * Properties of Extract *)

Lemma depth_app (p q : string) : depth (p ++ q) = depth p + depth q.
Proof. induction p as [|c p IH]; simpl; lia. Qed.

Lemma brace_bounds (c : ascii) : -1 <= brace c <= 1.
Proof.
  unfold brace. destruct (Ascii.eqb c "{"), (Ascii.eqb c "}"); lia.
Qed.

Lemma find_app_brace (pre rest : string) :
  Extract.find "{" pre = None ->
  Extract.find "{" (pre ++ String "{" rest) = Some (String.length pre).
Proof.
  induction pre as [|c pre IH]; simpl; auto.
  destruct (Ascii.eqb c "{"); [discriminate|].
  destruct (Extract.find "{" pre); [discriminate|].
  intros _. now rewrite IH.
Qed.

Lemma drop_app (pre rest : string) :
  Extract.drop (String.length pre) (pre ++ rest) = rest.
Proof. induction pre as [|c pre IH]; simpl; auto. Qed.

Lemma substring_app (pre span post : string) :
  substring (String.length pre) (String.length span) (pre ++ span ++ post)
  = span.
Proof.
  induction pre as [|c pre IH]; simpl; auto.
  induction span as [|c span IH]; simpl.
  - now destruct post.
  - now rewrite IH.
Qed.

(** The scan inside a span that is open at depth [bc] and closes at its
    end, and nowhere before: it breaks on the last character. *)
Lemma scan_closes (s post : string) (idx : nat) (bc : Z) :
  0 < bc ->
  s <> "" ->
  bc + depth s = 0 ->
  (forall p q, s = p ++ q -> p <> "" -> q <> "" -> bc + depth p <> 0) ->
  Extract.scan (s ++ post) idx bc = Some (idx + String.length s - 1)%nat.
Proof.
  revert idx bc. induction s as [|c r IH]; intros idx bc Hbc Hne Hend Hpre.
  - congruence.
  - destruct r as [|c' r'].
    + (* the last character: it is the closing brace *)
      simpl in *. unfold brace in Hend.
      destruct (Ascii.eqb c "{"); [lia|].
      destruct (Ascii.eqb c "}"); [|lia].
      replace (bc - 1 =? 0) with true by (symmetry; apply Z.eqb_eq; lia).
      f_equal. lia.
    + assert (Hstep : bc + brace c <> 0).
      { specialize (Hpre (String c "") (String c' r') eq_refl).
        simpl in Hpre. rewrite Z.add_0_r in Hpre.
        apply Hpre; discriminate. }
      pose proof (brace_bounds c) as Hb.
      assert (IH' : Extract.scan (String c' r' ++ post) (S idx) (bc + brace c)
                    = Some (S idx + String.length (String c' r') - 1)%nat).
      { apply IH.
        - lia.
        - discriminate.
        - simpl in *. lia.
        - intros p q E Hp Hq.
          specialize (Hpre (String c p) q). simpl in Hpre.
          rewrite <- E in Hpre.
          specialize (Hpre eq_refl). rewrite Z.add_assoc in Hpre.
          apply Hpre; [discriminate | assumption]. }
      change (String c (String c' r') ++ post)
        with (String c (String c' r' ++ post)).
      cbn [Extract.scan]. unfold brace in IH', Hstep.
      destruct (Ascii.eqb c "{").
      * rewrite IH'. f_equal. simpl. lia.
      * destruct (Ascii.eqb c "}").
        -- replace (bc - 1 =? 0) with false
             by (symmetry; apply Z.eqb_neq; lia).
           replace (bc - 1) with (bc + -1) by lia.
           rewrite IH'. f_equal. simpl. lia.
        -- rewrite Z.add_0_r in IH'. rewrite IH'. f_equal. simpl. lia.
Qed.

(** The scan over a text whose depth, counted from [bc], never comes to
    zero: the range is exhausted. *)
Lemma scan_exhausts (s : string) (idx : nat) (bc : Z) :
  (forall p q, s = p ++ q -> p <> "" -> bc + depth p <> 0) ->
  Extract.scan s idx bc = None.
Proof.
  revert idx bc. induction s as [|c r IH]; intros idx bc Hpre; simpl; auto.
  assert (Hstep : bc + brace c <> 0).
  { specialize (Hpre (String c "") r eq_refl). simpl in Hpre.
    rewrite Z.add_0_r in Hpre. apply Hpre. discriminate. }
  assert (IH' : Extract.scan r (S idx) (bc + brace c) = None).
  { apply IH. intros p q E Hp.
    specialize (Hpre (String c p) q). simpl in Hpre. rewrite <- E in Hpre.
    specialize (Hpre eq_refl). rewrite Z.add_assoc in Hpre.
    apply Hpre. discriminate. }
  unfold brace in IH', Hstep.
  destruct (Ascii.eqb c "{"); auto.
  destruct (Ascii.eqb c "}").
  - replace (bc - 1 =? 0) with false by (symmetry; apply Z.eqb_neq; lia).
    now replace (bc - 1) with (bc + -1) by lia.
  - now rewrite Z.add_0_r in IH'.
Qed.

Lemma balanced_span_length (span : string) :
  balanced_span span -> (2 <= String.length span)%nat.
Proof.
  intros ([r ->] & Hd & _).
  destruct r as [|c r]; [vm_compute in Hd; discriminate | simpl; lia].
Qed.

(** A balanced span, after any text without an opening brace and before
    any text at all, is the span that is cut out. *)
Lemma first_object_found (pre span post : string) :
  Extract.find "{" pre = None ->
  balanced_span span ->
  Extract.first_object (pre ++ span ++ post) = Some span.
Proof.
  intros Hpre Hbal. pose proof (balanced_span_length _ Hbal) as Hlen.
  destruct Hbal as ([r ->] & Hd & Hp).
  unfold Extract.first_object.
  change (String "{" r ++ post) with (String "{" (r ++ post)).
  rewrite (find_app_brace pre (r ++ post) Hpre), drop_app.
  cbn [Extract.scan]. rewrite Ascii.eqb_refl.
  assert (Hr : r <> "") by (intros ->; simpl in Hlen; lia).
  rewrite (scan_closes r post (S (String.length pre)) (0 + 1)).
  - change (String "{" (r ++ post)) with (String "{" r ++ post).
    replace (S (String.length pre) + String.length r - 1 + 1
             - String.length pre)%nat
      with (String.length (String "{" r)) by (simpl; lia).
    now rewrite substring_app.
  - lia.
  - assumption.
  - cbn [depth] in Hd. change (brace "{") with 1 in Hd. lia.
  - intros p q E Hpn Hqn. specialize (Hp (String "{" p) q).
    cbn [append depth] in Hp. rewrite <- E in Hp. specialize (Hp eq_refl).
    change (brace "{") with 1 in Hp. rewrite Z.add_0_l.
    apply Hp; [discriminate | assumption].
Qed.

Lemma first_object_no_brace (text : string) :
  Extract.find "{" text = None -> Extract.first_object text = None.
Proof. intros H. unfold Extract.first_object. now rewrite H. Qed.

Lemma first_object_never_closed (pre rest : string) :
  Extract.find "{" pre = None ->
  never_closed rest ->
  Extract.first_object (pre ++ rest) = None.
Proof.
  intros Hpre ([r ->] & Hp). unfold Extract.first_object.
  rewrite (find_app_brace pre r Hpre), drop_app.
  rewrite scan_exhausts; auto.
Qed.

Lemma find_sound (text : string) (n : nat) :
  Extract.find "{" text = Some n ->
  exists pre rest,
    text = pre ++ String "{" rest
    /\ String.length pre = n
    /\ Extract.find "{" pre = None.
Proof.
  revert n. induction text as [|c r IH]; simpl; intros n H; [discriminate|].
  destruct (Ascii.eqb_spec c "{") as [->|Hc].
  - injection H as <-. now exists "", r.
  - destruct (Extract.find "{" r) as [m|]; [|discriminate].
    injection H as <-. destruct (IH m eq_refl) as (pre & rest & -> & Hl & Hf).
    exists (String c pre), rest. simpl. rewrite Hl, Hf.
    apply Ascii.eqb_neq in Hc. rewrite Hc. auto.
Qed.

(** Where the scan breaks, the text read since it was entered at depth
    [bc] brings the depth to zero, for the first time. *)
Lemma scan_sound (s : string) (idx j : nat) (bc : Z) :
  0 < bc ->
  Extract.scan s idx bc = Some j ->
  exists p q,
    s = p ++ q /\ p <> ""
    /\ j = (idx + String.length p - 1)%nat
    /\ bc + depth p = 0
    /\ forall p1 p2, p = p1 ++ p2 -> p1 <> "" -> p2 <> "" ->
                     bc + depth p1 <> 0.
Proof.
  revert idx bc. induction s as [|c r IH]; simpl; intros idx bc Hbc H;
    [discriminate|].
  assert (Hext : forall bc', 0 < bc' -> bc' = bc + brace c ->
            Extract.scan r (S idx) bc' = Some j ->
            exists p q,
              String c r = p ++ q /\ p <> ""
              /\ j = (idx + String.length p - 1)%nat
              /\ bc + depth p = 0
              /\ forall p1 p2, p = p1 ++ p2 -> p1 <> "" -> p2 <> "" ->
                               bc + depth p1 <> 0).
  { intros bc' Hpos Hbc' Hs.
    destruct (IH _ _ Hpos Hs) as (p & q & -> & Hp & Hj & Hd & Hpre).
    exists (String c p), q. repeat split.
    - discriminate.
    - destruct p; [congruence | simpl in *; lia].
    - simpl. lia.
    - intros p1 p2 E Hp1 Hp2. destruct p1 as [|c1 p1]; [congruence|].
      simpl in E. injection E as <- E. simpl.
      destruct p1 as [|c2 p1].
      + simpl. lia.
      + rewrite Z.add_assoc, <- Hbc'.
        apply (Hpre _ p2 E); [discriminate | assumption]. }
  unfold brace in Hext.
  destruct (Ascii.eqb c "{") eqn:Eo.
  - apply (Hext (bc + 1)); auto; lia.
  - destruct (Ascii.eqb c "}") eqn:Ec.
    + destruct (bc - 1 =? 0) eqn:Ez.
      * injection H as <-. apply Z.eqb_eq in Ez.
        exists (String c ""), r. repeat split.
        -- discriminate.
        -- simpl. lia.
        -- simpl. unfold brace. rewrite Eo, Ec. lia.
        -- intros p1 p2 E Hp1 Hp2. destruct p1 as [|c1 p1]; [congruence|].
           simpl in E. injection E as _ E.
           destruct p1; [simpl in E; congruence | discriminate].
      * apply Z.eqb_neq in Ez. apply (Hext (bc - 1)); auto; lia.
    + apply (Hext bc); auto; lia.
Qed.

(** What is cut out of a text is a balanced span of it, after a text
    without an opening brace. *)
Lemma first_object_sound (text span : string) :
  Extract.first_object text = Some span ->
  exists pre post,
    text = pre ++ span ++ post
    /\ Extract.find "{" pre = None
    /\ balanced_span span.
Proof.
  unfold Extract.first_object.
  destruct (Extract.find "{" text) as [start|] eqn:Hf; [|discriminate].
  destruct (find_sound _ _ Hf) as (pre & rest & -> & Hl & Hpre).
  subst start. rewrite drop_app. cbn [Extract.scan].
  rewrite Ascii.eqb_refl.
  destruct (Extract.scan rest (S (String.length pre)) (0 + 1)) as [idx|]
    eqn:Hs; [|discriminate].
  assert (Hpos : 0 < 0 + 1) by lia.
  destruct (scan_sound _ _ _ _ Hpos Hs)
    as (p & q & -> & Hp & -> & Hd & Hpref).
  replace (S (String.length pre) + String.length p - 1 + 1
           - String.length pre)%nat
    with (String.length (String "{" p)) by (simpl; lia).
  change (pre ++ String "{" (p ++ q)) with (pre ++ String "{" p ++ q).
  rewrite substring_app.
  intros H. injection H as <-.
  exists pre, q. repeat split; auto.
  - now exists p.
  - intros p1 p2 E Hp1 Hp2. destruct p1 as [|c1 p1]; [congruence|].
    cbn [append] in E. injection E as <- E. cbn [depth].
    change (brace "{") with 1.
    destruct p1 as [|c2 p1].
    + cbn [depth]. lia.
    + assert (0 + 1 + depth (String c2 p1) <> 0)
        by (apply (Hpref _ _ E); [discriminate | assumption]).
      lia.
Qed.

Example first_object_in_prose :
  Extract.first_object "Here you are: {a {b} c} and also {d}."
  = Some "{a {b} c}".
Proof. reflexivity. Qed.

Example first_object_unbalanced :
  Extract.first_object "Here you are: {a {b} c" = None.
Proof. reflexivity. Qed.

Section ExtractFacts.

Variable invoke_model : string -> result string.
Variable json_loads : string -> option (pydict pyval).

Local Abbreviation extract_text_from_images :=
  (Extract.extract_text_from_images invoke_model json_loads).

(** C3.  For a response text made of any text without an opening brace, a
    balanced span and any text after it, the object stored for the image is
    the parse of exactly that span, whatever follows it (further objects
    included); for a response text with no opening brace, or whose depth
    never returns to zero after the first one, nothing is stored for the
    image. *)
Theorem first_balanced_object (i : string) :
  (forall pre span post,
     invoke_model i = Ok (pre ++ span ++ post) ->
     Extract.find "{" pre = None ->
     balanced_span span ->
     extract_text_from_images [i]
     = match json_loads span with
       | Some obj => Ok [(i ++ ".jpg", obj)]
       | None => Raise JSONDecodeError
       end)
  /\ (forall text,
        invoke_model i = Ok text ->
        Extract.find "{" text = None ->
        extract_text_from_images [i] = Ok [])
  /\ (forall pre rest,
        invoke_model i = Ok (pre ++ rest) ->
        Extract.find "{" pre = None ->
        never_closed rest ->
        extract_text_from_images [i] = Ok []).
Proof.
  unfold Extract.extract_text_from_images. repeat split.
  - intros pre span post Hi Hpre Hbal. simpl. rewrite Hi. simpl.
    rewrite (first_object_found _ _ _ Hpre Hbal).
    now destruct (json_loads span).
  - intros text Hi Hn. simpl. rewrite Hi. simpl.
    now rewrite (first_object_no_brace _ Hn).
  - intros pre rest Hi Hpre Hnc. simpl. rewrite Hi. simpl.
    now rewrite (first_object_never_closed _ _ Hpre Hnc).
Qed.

End ExtractFacts.

(** Splitting a given text in two: one case per place of the cut. *)
Ltac each_cut p q E :=
  repeat (destruct p as [|? p];
          [ cbn in E; subst q; first [congruence | vm_compute; discriminate]
          | cbn in E; injection E as <- E ]);
  destruct p as [|? p];
  [ cbn in E; subst q; first [congruence | vm_compute; discriminate]
  | discriminate E ].

Lemma balanced_span_example : balanced_span "{a{b}}".
Proof.
  repeat split.
  - now exists "a{b}}".
  - intros p q E Hp Hq. each_cut p q E.
Qed.

Lemma never_closed_example : never_closed "{ a {b}".
Proof.
  split.
  - now exists " a {b}".
  - intros p q E Hp. each_cut p q E.
Qed.

Lemma first_balanced_object_witness :
  let invoke_model i :=
    if String.eqb i "000" then Ok "see {a{b}} and {c}"
    else if String.eqb i "001" then Ok "} no object"
    else Ok "so: { a {b}" in
  let json_loads s := Some [("span", PStr s)] in
  Extract.extract_text_from_images invoke_model json_loads ["000"]
  = Ok [("000.jpg", [("span", PStr "{a{b}}")])]
  /\ Extract.extract_text_from_images invoke_model json_loads ["001"] = Ok []
  /\ Extract.extract_text_from_images invoke_model json_loads ["002"] = Ok [].
Proof.
  intros invoke_model json_loads. split; [|split].
  - apply (proj1 (first_balanced_object invoke_model json_loads "000")
             "see " "{a{b}}" " and {c}");
      [reflexivity | reflexivity | exact balanced_span_example].
  - apply (proj1 (proj2 (first_balanced_object invoke_model json_loads "001"))
             "} no object"); reflexivity.
  - apply (proj2 (proj2 (first_balanced_object invoke_model json_loads "002"))
             "so: " "{ a {b}");
      [reflexivity | reflexivity | exact never_closed_example].
Defined.

(** * Properties of Load *)

(** ** Lists of rows *)

Lemma NoDup_map_filter {Row Key} (key : Row -> Key) (keep : Row -> bool)
    (rows : list Row) (Hnd : NoDup (map key rows)) :
  NoDup (map key (filter keep rows)).
Proof.
  induction rows as [|r rows IH]; simpl in *; [exact Hnd|].
  apply NoDup_cons_iff in Hnd as [Hfresh Hrest].
  destruct (keep r); simpl; [|now apply IH].
  apply NoDup_cons_iff. split; [|now apply IH].
  intros Hin. apply Hfresh.
  apply in_map_iff in Hin as (x & <- & Hx).
  apply filter_In in Hx as [Hx _]. now apply in_map.
Qed.

Lemma Forall_filter_weak {A} (P : A -> Prop) (p : A -> bool) (l : list A) :
  Forall P l -> Forall P (filter p l).
Proof.
  rewrite !Forall_forall. intros H x Hx.
  apply filter_In in Hx as [Hx _]. auto.
Qed.

Lemma has_document_false (id : Z) (t : Load.tables) :
  Load.has_document id t = false <->
  ~ In id (map Load.d_id (Load.documents t)).
Proof.
  unfold Load.has_document. induction (Load.documents t) as [|r l IH]; simpl.
  - intuition.
  - destruct (Z.eqb_spec (Load.d_id r) id) as [E|E]; simpl.
    + split; [discriminate | intros H; exfalso; auto].
    + rewrite IH. intuition.
Qed.

Lemma has_document_true (id : Z) (t : Load.tables) :
  Load.has_document id t = true <->
  In id (map Load.d_id (Load.documents t)).
Proof.
  unfold Load.has_document. induction (Load.documents t) as [|r l IH]; simpl.
  - intuition discriminate.
  - destruct (Z.eqb_spec (Load.d_id r) id) as [E|E]; simpl.
    + intuition.
    + rewrite IH. intuition.
Qed.

Lemma has_filename_false (f : string) (t : Load.tables) :
  Load.has_filename f t = false <->
  ~ In f (map Load.d_filename (Load.documents t)).
Proof.
  unfold Load.has_filename. induction (Load.documents t) as [|r l IH]; simpl.
  - intuition.
  - destruct (String.eqb_spec (Load.d_filename r) f) as [E|E]; simpl.
    + split; [discriminate | intros H; exfalso; auto].
    + rewrite IH. intuition.
Qed.

Lemma has_item_false (id : Z) (t : Load.tables) :
  Load.has_item id t = false <-> ~ In id (map Load.li_id (Load.items t)).
Proof.
  unfold Load.has_item. induction (Load.items t) as [|r l IH]; simpl.
  - intuition.
  - destruct (Z.eqb_spec (Load.li_id r) id) as [E|E]; simpl.
    + split; [discriminate | intros H; exfalso; auto].
    + rewrite IH. intuition.
Qed.

Lemma below_not_in {A} (key : A -> Z) (n : Z) (l : list A) :
  Forall (fun r => key r < n) l -> ~ In n (map key l).
Proof.
  intros H Hin. apply in_map_iff in Hin as (r & E & Hr).
  rewrite Forall_forall in H. specialize (H r Hr). lia.
Qed.

Lemma NoDup_snoc {A} (l : list A) (a : A) :
  NoDup l -> ~ In a l -> NoDup (l ++ [a]).
Proof.
  intros Hl Ha. apply NoDup_app; auto.
  - repeat constructor. intros [].
  - intros x Hx [<-|[]]. auto.
Qed.

(** ** Values and their columns *)

Lemma varchar_empty (n : nat) : Load.varchar n "" = Some "".
Proof. reflexivity. Qed.

Lemma varchar_full (c : ascii) (s : string) :
  Load.varchar 0 (String c s)
  = if Load.only_spaces (String c s) then Some "" else None.
Proof. reflexivity. Qed.

Lemma varchar_next (n : nat) (c : ascii) (s : string) :
  Load.varchar (S n) (String c s)
  = option_map (String c) (Load.varchar n s).
Proof. reflexivity. Qed.

Lemma varchar_fits (n : nat) (s : string) :
  (String.length s <= n)%nat -> Load.varchar n s = Some s.
Proof.
  revert n. induction s as [|c s IH]; intros n H; [reflexivity|].
  destruct n as [|n]; simpl in H; [lia|].
  rewrite varchar_next, IH by lia. reflexivity.
Qed.

Lemma varchar_length (n : nat) (s s' : string) :
  Load.varchar n s = Some s' -> (String.length s' <= n)%nat.
Proof.
  revert n s'. induction s as [|c s IH]; intros n s' H.
  - rewrite varchar_empty in H. injection H as <-. simpl. lia.
  - destruct n as [|n].
    + rewrite varchar_full in H.
      destruct (Load.only_spaces _); [|discriminate].
      injection H as <-. simpl. lia.
    + rewrite varchar_next in H.
      destruct (Load.varchar n s) as [r|] eqn:E; [|discriminate].
      injection H as <-. simpl. specialize (IH n r E). lia.
Qed.

(** What is stored of a text that does not fit is shorter than the
    text. *)
Lemma varchar_cut (n : nat) (s s' : string) :
  Load.varchar n s = Some s' -> (n < String.length s)%nat -> s' <> s.
Proof.
  intros H Hn E. subst s'. apply varchar_length in H. lia.
Qed.

Lemma fits_name_length (f : string) :
  fits_name f = true <-> (String.length f <= 255)%nat.
Proof. unfold fits_name. apply Nat.leb_le. Qed.

Lemma fits_name_varchar (f : string) :
  fits_name f = true -> Load.varchar 255 f = Some f.
Proof. intros H. apply varchar_fits. now apply fits_name_length. Qed.

Lemma varchar_stored (s s' : string) :
  Load.varchar 255 s = Some s' -> stored_text s = s'.
Proof. unfold stored_text. now intros ->. Qed.

Lemma stored_text_fits (f : string) :
  fits_name f = true -> stored_text f = f.
Proof. intros H. apply varchar_stored. now apply fits_name_varchar. Qed.

Lemma stored_text_length (f : string) :
  Load.varchar 255 f <> None -> (String.length (stored_text f) <= 255)%nat.
Proof.
  unfold stored_text. destruct (Load.varchar 255 f) as [f'|] eqn:E.
  - intros _. now apply (varchar_length 255 f).
  - congruence.
Qed.

(** A name that the server has taken and not cut is within its column. *)
Lemma kept_name_fits (f : string) :
  kept_name f = true -> Load.varchar 255 f <> None -> fits_name f = true.
Proof.
  unfold kept_name. destruct (Load.varchar 255 f) as [f'|] eqn:E;
    [|congruence].
  intros H _. apply String.eqb_eq in H. subst f'.
  apply fits_name_length. now apply (varchar_length 255 f).
Qed.

Lemma fits_name_kept (f : string) : fits_name f = true -> kept_name f = true.
Proof.
  intros H. unfold kept_name. rewrite (fits_name_varchar f H).
  apply String.eqb_refl.
Qed.

Lemma document_columns_stored (di n di' n' : string) :
  Load.document_columns di n = Some (di', n') ->
  di' = stored_text di /\ n' = stored_text n.
Proof.
  unfold Load.document_columns, stored_text.
  destruct (Load.varchar 255 di), (Load.varchar 255 n); try discriminate.
  now intros [= <- <-].
Qed.

Lemma item_columns_stored (it li : line_item) :
  Load.item_columns (item it) (quantity it) (unit_price it) (total it)
  = Some li ->
  li = column_item it.
Proof.
  unfold Load.item_columns, column_item, stored_text, stored_number.
  destruct (Load.varchar 255 (item it)),
    (Load.decimal_10_2 (quantity it)),
    (Load.decimal_10_2 (unit_price it)),
    (Load.decimal_10_2 (total it)); try discriminate.
  now intros [= <-].
Qed.

(** ** The constraints are kept by every change the code asks for *)

Section Rewrite.

Variables (di n de : string) (id : Z).

Local Abbreviation rewrite_row := (Load.update_row di n de id).

Lemma rewrite_row_id (r : Load.documents_row) :
  Load.d_id (rewrite_row r) = Load.d_id r.
Proof. unfold Load.update_row. now destruct (Load.d_id r =? id). Qed.

Lemma rewrite_row_filename (r : Load.documents_row) :
  Load.d_filename (rewrite_row r) = Load.d_filename r.
Proof. unfold Load.update_row. now destruct (Load.d_id r =? id). Qed.

Lemma map_id_rewrite (l : list Load.documents_row) :
  map Load.d_id (map rewrite_row l) = map Load.d_id l.
Proof.
  rewrite map_map. apply map_ext. intros r. apply rewrite_row_id.
Qed.

Lemma map_filename_rewrite (l : list Load.documents_row) :
  map Load.d_filename (map rewrite_row l) = map Load.d_filename l.
Proof.
  rewrite map_map. apply map_ext. intros r. apply rewrite_row_filename.
Qed.

Lemma map_key_rewrite (l : list Load.documents_row) :
  map row_key (map rewrite_row l) = map row_key l.
Proof.
  rewrite map_map. apply map_ext. intros r. unfold row_key.
  now rewrite rewrite_row_id, rewrite_row_filename.
Qed.

End Rewrite.

Lemma wf_seq_mono (t : Load.tables) (dseq iseq dseq' iseq' : Z) :
  wf_tables t dseq iseq -> dseq <= dseq' -> iseq <= iseq' ->
  wf_tables t dseq' iseq'.
Proof.
  intros [H1 H2 H3 H4 H5 H6 H7] Hd Hi. constructor; auto.
  - eapply Forall_impl; [|exact H3]. simpl. intros; lia.
  - eapply Forall_impl; [|exact H5]. simpl. intros; lia.
Qed.

Lemma wf_update (t : Load.tables) (dseq iseq : Z) (di n de : string)
    (id : Z) :
  wf_tables t dseq iseq ->
  wf_tables
    (Load.mk_tables (map (Load.update_row di n de id) (Load.documents t))
       (Load.items t)) dseq iseq.
Proof.
  intros [H1 H2 H3 H4 H5 H6 H7]. constructor; simpl; auto.
  - now rewrite map_id_rewrite.
  - now rewrite map_filename_rewrite.
  - rewrite Forall_forall in *. intros r Hr.
    apply in_map_iff in Hr as (r0 & <- & Hr0).
    rewrite rewrite_row_id. auto.
  - now rewrite map_id_rewrite.
  - rewrite Forall_forall in *. intros r Hr.
    apply in_map_iff in Hr as (r0 & <- & Hr0).
    rewrite rewrite_row_filename. auto.
Qed.

Lemma wf_delete (t : Load.tables) (dseq iseq : Z)
    (p : Load.line_items_row -> bool) :
  wf_tables t dseq iseq ->
  wf_tables (Load.mk_tables (Load.documents t) (filter p (Load.items t)))
    dseq iseq.
Proof.
  intros [H1 H2 H3 H4 H5 H6 H7]. constructor; simpl; auto.
  - now apply NoDup_map_filter.
  - now apply Forall_filter_weak.
  - now apply Forall_filter_weak.
Qed.

Lemma wf_insert_document (t : Load.tables) (dseq iseq : Z)
    (f di n de : string) :
  wf_tables t dseq iseq ->
  ~ In f (map Load.d_filename (Load.documents t)) ->
  (String.length f <= 255)%nat ->
  wf_tables
    (Load.mk_tables
       (Load.documents t ++ [Load.mk_documents_row dseq f di n de])
       (Load.items t)) (dseq + 1) iseq.
Proof.
  intros [H1 H2 H3 H4 H5 H6 H7] Hf Hlen. constructor; simpl; auto.
  - rewrite map_app. simpl. apply NoDup_snoc; auto.
    now apply below_not_in.
  - rewrite map_app. simpl. now apply NoDup_snoc.
  - apply Forall_app. split.
    + eapply Forall_impl; [|exact H3]. simpl. intros; lia.
    + repeat constructor. simpl. lia.
  - eapply Forall_impl; [|exact H6]. simpl. intros r Hr.
    rewrite map_app. apply in_or_app. now left.
  - apply Forall_app. split; [exact H7|].
    constructor; [exact Hlen | constructor].
Qed.

Lemma wf_insert_item (t : Load.tables) (dseq iseq doc : Z) (it : string)
    (q u tot : Q) :
  wf_tables t dseq iseq ->
  In doc (map Load.d_id (Load.documents t)) ->
  wf_tables
    (Load.mk_tables (Load.documents t)
       (Load.items t ++ [Load.mk_line_items_row iseq doc it q u tot]))
    dseq (iseq + 1).
Proof.
  intros [H1 H2 H3 H4 H5 H6 H7] Hdoc. constructor; simpl; auto.
  - rewrite map_app. simpl. apply NoDup_snoc; auto.
    now apply below_not_in.
  - apply Forall_app. split.
    + eapply Forall_impl; [|exact H5]. simpl. intros; lia.
    + repeat constructor. simpl. lia.
  - apply Forall_app. split; auto.
Qed.

(** ** Document rows are kept *)

Lemma extends_refl (t : Load.tables) : extends t t.
Proof. exists []. now rewrite app_nil_r. Qed.

Lemma extends_trans (t1 t2 t3 : Load.tables) :
  extends t1 t2 -> extends t2 t3 -> extends t1 t3.
Proof.
  intros [m1 H1] [m2 H2]. exists (m1 ++ m2)%list.
  now rewrite H2, H1, app_assoc.
Qed.

Lemma extends_same_keys (t t' : Load.tables) :
  map row_key (Load.documents t') = map row_key (Load.documents t) ->
  extends t t'.
Proof. intros H. exists []. now rewrite app_nil_r. Qed.

(** A row of [t] is found again in any [t'] that extends it. *)
Lemma extends_row (t t' : Load.tables) (r : Load.documents_row) :
  extends t t' -> In r (Load.documents t) ->
  exists r', In r' (Load.documents t')
             /\ Load.d_id r' = Load.d_id r
             /\ Load.d_filename r' = Load.d_filename r.
Proof.
  intros [more H] Hr.
  assert (Hk : In (row_key r) (map row_key (Load.documents t')))
    by (rewrite H; apply in_or_app; left; now apply in_map).
  apply in_map_iff in Hk as (r' & E & Hr').
  exists r'. unfold row_key in E. injection E as E1 E2. auto.
Qed.

(** ** Every request keeps a consistent store consistent *)

Lemma tick_consistent (st : Load.store) :
  consistent st -> consistent (Load.tick st).
Proof. intros [H1 H2 H3]. constructor; assumption. Qed.

Lemma perform_safe (rq : Load.request) : safe (Load.perform rq).
Proof.
  intros st [Hc Hw He].
  destruct rq as [ | | |f|di n de id|id|f di n de|doc it q u tot| ]; simpl.
  - (* Connect *)
    split; [constructor; simpl; auto using extends_refl | apply extends_refl].
  - split; [now constructor | apply extends_refl].
  - split; [now constructor | apply extends_refl].
  - split; [now constructor | apply extends_refl].
  - (* UpdateDocument *)
    destruct (Load.document_columns di n) as [[di' n']|]; simpl;
      [|split; [now constructor | apply extends_refl]].
    split; [|apply extends_refl].
    constructor; simpl; auto using wf_update.
    eapply extends_trans; [exact He|].
    apply extends_same_keys. simpl. apply map_key_rewrite.
  - (* DeleteLineItems *)
    split; [|apply extends_refl].
    constructor; simpl; auto using wf_delete.
  - (* InsertDocument *)
    assert (Hseq : Load.documents_id_seq st <= Load.documents_id_seq st + 1)
      by lia.
    destruct (Load.varchar 255 f) as [f'|] eqn:Ef';
      [|split; [now constructor | apply extends_refl]].
    destruct (Load.document_columns di n) as [[di' n']|];
      [|split; [now constructor | apply extends_refl]].
    destruct (Load.has_document _ _ || Load.has_filename _ _) eqn:E; simpl.
    + split; [|apply extends_refl].
      constructor; simpl; auto; eapply wf_seq_mono; eauto; lia.
    + apply orb_false_elim in E as [_ Ef]. apply has_filename_false in Ef.
      split; [|apply extends_refl].
      constructor; simpl.
      * eapply wf_seq_mono; eauto; lia.
      * apply wf_insert_document; auto. now apply (varchar_length 255 f).
      * eapply extends_trans; [exact He|].
        exists [row_key (Load.mk_documents_row (Load.documents_id_seq st)
                           f' di' n' de)].
        simpl. now rewrite map_app.
  - (* InsertLineItem *)
    destruct (Load.item_columns it q u tot) as [li|];
      [|split; [now constructor | apply extends_refl]].
    destruct (Load.has_item _ _ || negb (Load.has_document _ _)) eqn:E; simpl.
    + split; [|apply extends_refl].
      constructor; simpl; auto; eapply wf_seq_mono; eauto; lia.
    + apply orb_false_elim in E as [_ Ed].
      apply negb_false_iff, has_document_true in Ed.
      split; [|apply extends_refl].
      constructor; simpl.
      * eapply wf_seq_mono; eauto; lia.
      * now apply wf_insert_item.
      * exact He.
  - (* Commit *)
    split; [constructor; simpl; auto using extends_refl | exact He].
Qed.

Section LoadSafety.

Variable server_ok : nat -> Load.request -> bool.

Lemma safe_ret {A} (a : A) : safe (@ret Load.store A a).
Proof. intros st H. split; [exact H | apply extends_refl]. Qed.

Lemma safe_raise {A} (e : exn) : safe (@raise Load.store A e).
Proof. intros st H. split; [exact H | apply extends_refl]. Qed.

Lemma safe_bind {A B} (m : Load.db A) (k : A -> Load.db B) :
  safe m -> (forall a, safe (k a)) -> safe (bind m k).
Proof.
  intros Hm Hk st Hst. unfold bind.
  destruct (Hm st Hst) as [H1 H2].
  destruct (m st) as [[a|e] st1]; simpl in *.
  - destruct (Hk a st1 H1) as [H3 H4].
    split; [exact H3 | eapply extends_trans; eauto].
  - auto.
Qed.

Lemma safe_execute (rq : Load.request) : safe (Load.execute server_ok rq).
Proof.
  intros st Hst. unfold Load.execute.
  destruct (server_ok (Load.clock st) rq).
  - apply (perform_safe rq (Load.tick st)). now apply tick_consistent.
  - simpl. split; [now apply tick_consistent | apply extends_refl].
Qed.

Lemma safe_commit : safe (Load.commit server_ok).
Proof.
  apply safe_bind; [apply safe_execute | intros; apply safe_ret].
Qed.

Lemma safe_insert_items (doc_id : Z) (its : list line_item) :
  safe (Load.insert_items server_ok doc_id its).
Proof.
  induction its as [|it rest IH]; simpl.
  - apply safe_ret.
  - apply safe_bind; [apply safe_execute | intros; exact IH].
Qed.

Lemma safe_load_document (f : string) (doc : document) :
  safe (Load.load_document server_ok f doc).
Proof.
  unfold Load.load_document.
  apply safe_bind; [apply safe_execute | intros rows].
  apply safe_bind; [|intros; apply safe_insert_items].
  destruct (Load.fetchone rows).
  - repeat (apply safe_bind; [apply safe_execute | intros]).
    apply safe_ret.
  - apply safe_bind; [apply safe_execute | intros rows'].
    destruct (Load.fetchone rows'); [apply safe_ret | apply safe_raise].
Qed.

Lemma safe_load_loop (data : pydict document) :
  safe (Load.load_loop server_ok data).
Proof.
  induction data as [|[f doc] rest IH]; simpl.
  - apply safe_ret.
  - apply safe_bind; [apply safe_load_document | intros; exact IH].
Qed.

Lemma safe_load (data : pydict document) : safe (Load.load server_ok data).
Proof.
  apply safe_bind; [apply safe_load_loop | intros; apply safe_commit].
Qed.

Lemma safe_init : safe (Load.init server_ok).
Proof.
  unfold Load.init, Load._create_tables.
  do 3 (apply safe_bind; [apply safe_execute | intros]).
  apply safe_commit.
Qed.

Lemma safe_close : safe Load.close.
Proof.
  intros st [Hc Hw He]. simpl.
  split; [constructor; simpl; auto using extends_refl | apply extends_refl].
Qed.

Lemma safe_load_run (data : pydict document) :
  safe (load_run server_ok data).
Proof.
  unfold load_run.
  apply safe_bind; [apply safe_init | intros].
  apply safe_bind; [apply safe_load | intros; apply safe_close].
Qed.

Lemma fresh_consistent : consistent Load.fresh.
Proof.
  constructor; simpl; try apply extends_refl;
    constructor; simpl; constructor.
Qed.

Lemma load_runs_safe (batches : list (pydict document)) (st : Load.store) :
  consistent st ->
  consistent (load_runs server_ok batches st)
  /\ extends (Load.committed st)
       (Load.committed (load_runs server_ok batches st)).
Proof.
  revert st. induction batches as [|b rest IH]; simpl; intros st Hst.
  - split; [exact Hst | apply extends_refl].
  - destruct (safe_load_run b st Hst) as [H1 H2].
    destruct (IH _ H1) as [H3 H4].
    split; [exact H3 | eapply extends_trans; eauto].
Qed.

Lemma load_runs_app (b1 b2 : list (pydict document)) (st : Load.store) :
  load_runs server_ok (b1 ++ b2) st
  = load_runs server_ok b2 (load_runs server_ok b1 st).
Proof. revert st. induction b1 as [|b rest IH]; simpl; auto. Qed.

(** C8.  Over any sequence of runs of the loading stage from the empty
    store, whatever the server refuses on the way: a file name has at most
    one committed document row, every committed line-item row refers to a
    committed document row, and a document row committed after some runs is
    still there, under the same key and file name, after any further
    runs. *)
Theorem store_invariants (batches : list (pydict document)) :
  let t := Load.committed (load_runs server_ok batches Load.fresh) in
  NoDup (map Load.d_filename (Load.documents t))
  /\ Forall (fun r => In (Load.li_document_id r)
                        (map Load.d_id (Load.documents t))) (Load.items t)
  /\ forall (further : list (pydict document)) (r : Load.documents_row),
       In r (Load.documents t) ->
       exists r',
         In r' (Load.documents
                  (Load.committed
                     (load_runs server_ok (batches ++ further) Load.fresh)))
         /\ Load.d_id r' = Load.d_id r
         /\ Load.d_filename r' = Load.d_filename r.
Proof.
  destruct (load_runs_safe batches Load.fresh fresh_consistent) as [Hc _].
  simpl. repeat split.
  - apply (wf_filename_unique _ _ _ (committed_wf _ Hc)).
  - apply (wf_reference _ _ _ (committed_wf _ Hc)).
  - intros further r Hr. rewrite load_runs_app.
    destruct (load_runs_safe further _ Hc) as [_ He].
    now apply (extends_row _ _ r He).
Qed.

End LoadSafety.

(** ** What a run writes *)

Lemma lookup_app {V} (f : string) (b1 b2 : pydict V) :
  lookup f (b1 ++ b2)%list
  = match lookup f b1 with
    | Some v => Some v
    | None => lookup f b2
    end.
Proof.
  induction b1 as [|[k v] b1 IH]; simpl; auto.
  now destruct (String.eqb f k).
Qed.

Lemma lookup_some_in {V} (f : string) (v : V) (b : pydict V) :
  NoDup (keys b) -> (lookup f b = Some v <-> In (f, v) b).
Proof.
  induction b as [|[k w] b IH]; simpl; intros Hnd.
  - split; [discriminate | intros []].
  - inversion Hnd as [|? ? Hk Hb]; subst.
    destruct (String.eqb_spec f k) as [->|Hf].
    + split.
      * intros [= ->]. now left.
      * intros [[= ->]|Hin]; auto.
        exfalso. apply Hk. change k with (fst (k, v)). now apply in_map.
    + rewrite (IH Hb). split; auto.
      intros [[= -> ->]|Hin]; [congruence | auto].
Qed.

Section LoadEffect.

Variable server_ok : nat -> Load.request -> bool.

Lemma ensures_ret {A} (a : A) (st : Load.store) (unless : Prop)
    (Q : A -> Load.store -> Prop) :
  Q a st -> ensures server_ok (ret a) st unless Q.
Proof. intros H. exact H. Qed.

Lemma ensures_bind {A B} (m : Load.db A) (k : A -> Load.db B)
    (st : Load.store) (unless : Prop) (Q : B -> Load.store -> Prop) :
  ensures server_ok m st unless
    (fun a st' => ensures server_ok (k a) st' unless Q) ->
  ensures server_ok (bind m k) st unless Q.
Proof.
  unfold ensures, bind. destruct (m st) as [[a|e] st']; auto.
Qed.

Lemma ensures_weaken {A} (m : Load.db A) (st : Load.store)
    (unless unless' : Prop) (Q Q' : A -> Load.store -> Prop) :
  ensures server_ok m st unless Q ->
  (unless -> unless') ->
  (forall a st', Q a st' -> Q' a st') ->
  ensures server_ok m st unless' Q'.
Proof.
  unfold ensures. destruct (m st) as [[a|e] st']; auto.
  intros [H|H] HU _; auto.
Qed.

Lemma ensures_perform (rq : Load.request) (st : Load.store)
    (unless : Prop) (Q : list Z -> Load.store -> Prop) :
  match Load.perform rq (Load.tick st) with
  | (Ok rows, st') => Q rows st'
  | (Raise _, _) => unless
  end ->
  ensures server_ok (Load.execute server_ok rq) st unless Q.
Proof.
  intros H. unfold ensures, Load.execute.
  destruct (server_ok (Load.clock st) rq) eqn:E.
  - destruct (Load.perform rq (Load.tick st)) as [[rows|e] st']; auto.
  - left. now exists (Load.clock st), rq.
Qed.

Lemma ensures_ok {A} (m : Load.db A) (st st' : Load.store) (a : A)
    (unless : Prop) (Q : A -> Load.store -> Prop) :
  ensures server_ok m st unless Q -> m st = (Ok a, st') -> Q a st'.
Proof. unfold ensures. intros H E. now rewrite E in H. Qed.


(** The loop over the line items appends one child row for each, in
    order, with the values as their columns hold them, and touches nothing
    else; it raises on the first line item that holds a value the server
    does not take. *)
Lemma insert_items_spec (doc_id : Z) (its : list line_item)
    (st : Load.store) :
  In doc_id (map Load.d_id (Load.documents (Load.working st))) ->
  Forall (fun r => Load.li_id r < Load.line_items_id_seq st)
    (Load.items (Load.working st)) ->
  ensures server_ok (Load.insert_items server_ok doc_id its) st
    (forallb storable_item its = false)
    (fun _ st' =>
       Load.working st'
       = Load.mk_tables (Load.documents (Load.working st))
           (Load.items (Load.working st)
            ++ item_rows doc_id (Load.line_items_id_seq st)
                 (map column_item its))
       /\ Load.committed st' = Load.committed st
       /\ Load.documents_id_seq st' = Load.documents_id_seq st).
Proof.
  revert st. induction its as [|it rest IH]; intros st Hdoc Hseq.
  - simpl. apply ensures_ret. rewrite app_nil_r.
    destruct st as [c [d i] dseq iseq k]; simpl. auto.
  - cbn [Load.insert_items map item_rows forallb]. apply ensures_bind.
    apply ensures_perform. unfold Load.perform.
    destruct (Load.item_columns _ _ _ _) as [li|] eqn:Ecol;
      [|unfold storable_item; now rewrite Ecol].
    assert (Hs : storable_item it = true)
      by (unfold storable_item; now rewrite Ecol).
    apply item_columns_stored in Ecol. subst li.
    cbn [Load.working Load.tick Load.line_items_id_seq
         Load.documents_id_seq Load.committed Load.clock].
    replace (Load.has_item _ _) with false
      by (symmetry; apply has_item_false; now apply below_not_in).
    replace (Load.has_document _ _) with true
      by (symmetry; now apply has_document_true).
    cbn [orb negb andb].
    eapply ensures_weaken.
    + apply IH; simpl.
      * exact Hdoc.
      * apply Forall_app. split.
        -- eapply Forall_impl; [|exact Hseq]. simpl. intros; lia.
        -- constructor; [simpl; lia | constructor].
    + intros H. now rewrite Hs, H.
    + simpl. intros _ st' (Hw & Hc & Hd). rewrite Hw, <- app_assoc. auto.
Qed.

Lemma select_none (f : string) (t : Load.tables) :
  map Load.d_id
    (filter (fun r => String.eqb (Load.d_filename r) f) (Load.documents t))
  = [] ->
  ~ In f (map Load.d_filename (Load.documents t)).
Proof.
  induction (Load.documents t) as [|r l IH]; simpl; auto.
  destruct (String.eqb_spec (Load.d_filename r) f) as [E|E]; simpl.
  - discriminate.
  - intros H [E'|Hin]; [congruence | now apply IH].
Qed.

Lemma select_some (f : string) (t : Load.tables) (id : Z) (ids : list Z) :
  map Load.d_id
    (filter (fun r => String.eqb (Load.d_filename r) f) (Load.documents t))
  = id :: ids ->
  In id (map Load.d_id (Load.documents t))
  /\ In f (map Load.d_filename (Load.documents t)).
Proof.
  intros H.
  assert (Hin : In id (map Load.d_id
             (filter (fun r => String.eqb (Load.d_filename r) f)
                (Load.documents t)))) by (rewrite H; now left).
  apply in_map_iff in Hin as (r & <- & Hr).
  apply filter_In in Hr as [Hr Hf]. apply String.eqb_eq in Hf.
  split; [now apply in_map|]. rewrite <- Hf. now apply in_map.
Qed.

(** No row has a file name that is not in the relation. *)
Lemma select_absent (f : string) (t : Load.tables) :
  Load.has_filename f t = false ->
  map Load.d_id
    (filter (fun r => String.eqb (Load.d_filename r) f) (Load.documents t))
  = [].
Proof.
  unfold Load.has_filename.
  induction (Load.documents t) as [|r l IH]; simpl; auto.
  destruct (String.eqb (Load.d_filename r) f); simpl;
    [discriminate | exact IH].
Qed.

(** A file name that is in the relation is within its column. *)
Lemma stored_name_fits (f : string) (t : Load.tables) (dseq iseq : Z) :
  wf_tables t dseq iseq ->
  In f (map Load.d_filename (Load.documents t)) ->
  fits_name f = true.
Proof.
  intros Hwf Hin. apply in_map_iff in Hin as (r & <- & Hr).
  pose proof (wf_filename_fits _ _ _ Hwf) as H.
  rewrite Forall_forall in H. apply fits_name_length. auto.
Qed.

Lemma storable_columns (doc : document) :
  Load.document_columns (document_id doc) (name doc) = None ->
  storable doc = false.
Proof. unfold storable. now intros ->. Qed.

Lemma storable_items (doc : document) :
  forallb storable_item (line_items doc) = false -> storable doc = false.
Proof.
  unfold storable. intros ->. now destruct (Load.document_columns _ _).
Qed.

(** One turn of the loop of [load] leaves the relations of the transaction
    as the upsert of the document as its columns hold it, under the file
    name as its column holds it, and commits nothing; it raises where the
    server does not take a value, or where the file name is cut to a name
    that is in the relation. *)
Lemma load_document_spec (f : string) (doc : document) (st : Load.store) :
  wf_tables (Load.working st) (Load.documents_id_seq st)
    (Load.line_items_id_seq st) ->
  ensures server_ok (Load.load_document server_ok f doc) st
    (storable_entry (f, doc) = false)
    (fun _ st' =>
       Load.working st'
       = upsert (stored_text f) (column_document doc) (Load.working st)
           (Load.documents_id_seq st) (Load.line_items_id_seq st)
       /\ Load.committed st' = Load.committed st
       /\ Load.varchar 255 f <> None
       /\ (fits_name f = false ->
           Load.has_filename (stored_text f) (Load.working st) = false)).
Proof.
  intros Hwf. unfold Load.load_document, storable_entry. cbn [fst snd].
  apply ensures_bind. apply ensures_perform.
  unfold Load.perform at 1. cbn [Load.working Load.tick].
  destruct (map Load.d_id _) as [|id ids] eqn:Hsel;
    cbn [Load.fetchone hd_error].
  - (* no row has the file name: a row is inserted *)
    apply select_none in Hsel.
    apply ensures_bind. apply ensures_bind.
    apply ensures_perform. unfold Load.perform at 1.
    destruct (Load.varchar 255 f) as [f'|] eqn:Ef.
    2:{ destruct (fits_name f) eqn:Hfit; [|reflexivity].
        rewrite (fits_name_varchar f Hfit) in Ef. discriminate. }
    destruct (Load.document_columns _ _) as [[di' n']|] eqn:Ecol.
    2:{ rewrite (storable_columns doc Ecol). apply andb_false_r. }
    apply document_columns_stored in Ecol as [-> ->].
    pose proof (varchar_stored f f' Ef) as Hst.
    cbn [Load.working Load.tick Load.line_items_id_seq
         Load.documents_id_seq Load.committed Load.clock].
    replace (Load.has_document _ _) with false
      by (symmetry; apply has_document_false; apply below_not_in;
          apply (wf_document_seq _ _ _ Hwf)).
    cbn [orb].
    destruct (Load.has_filename f' (Load.working st)) eqn:Hhas.
    + (* the name as cut is in the relation *)
      destruct (fits_name f) eqn:Hfit; [|reflexivity]. exfalso.
      rewrite (fits_name_varchar f Hfit) in Ef. injection Ef as <-.
      apply has_filename_false in Hsel. congruence.
    + cbn [Load.fetchone hd_error]. apply ensures_ret.
      eapply ensures_weaken.
      * apply insert_items_spec; simpl.
        -- rewrite map_app. apply in_or_app. right. now left.
        -- apply (wf_item_seq _ _ _ Hwf).
      * intros H. rewrite (storable_items doc H). apply andb_false_r.
      * simpl. intros _ st' (Hw & Hc & _).
        split; [|split; [exact Hc | split; [discriminate|]]].
        -- unfold upsert. rewrite Hst, (select_absent f' _ Hhas).
           exact Hw.
        -- intros _. now rewrite Hst.
  - (* a row has the file name: it is updated, its child rows replaced *)
    pose proof (select_some _ _ _ _ Hsel) as [Hid Hname].
    pose proof (stored_name_fits f _ _ _ Hwf Hname) as Hfit.
    pose proof (stored_text_fits f Hfit) as Hst.
    apply ensures_bind. apply ensures_bind.
    apply ensures_perform. unfold Load.perform at 1.
    destruct (Load.document_columns _ _) as [[di' n']|] eqn:Ecol.
    2:{ rewrite (storable_columns doc Ecol). apply andb_false_r. }
    apply document_columns_stored in Ecol as [-> ->].
    apply ensures_bind.
    apply ensures_perform. unfold Load.perform at 1.
    apply ensures_ret.
    eapply ensures_weaken.
    + apply insert_items_spec; simpl.
      * now rewrite map_id_rewrite.
      * apply Forall_filter_weak. apply (wf_item_seq _ _ _ Hwf).
    + intros H. rewrite (storable_items doc H). apply andb_false_r.
    + simpl. intros _ st' (Hw & Hc & _).
      split; [|split; [exact Hc | split]].
      * unfold upsert. rewrite Hst, Hsel. exact Hw.
      * rewrite (fits_name_varchar f Hfit). discriminate.
      * rewrite Hfit. discriminate.
Qed.

End LoadEffect.

(** ** The stored documents after an upsert *)

Lemma filter_item_rows_same (doc_id next : Z) (its : list line_item) :
  filter (fun r => Load.li_document_id r =? doc_id)
    (item_rows doc_id next its)
  = item_rows doc_id next its.
Proof.
  revert next. induction its as [|it rest IH]; intros next; simpl; auto.
  now rewrite Z.eqb_refl, IH.
Qed.

Lemma filter_item_rows_other (doc_id id next : Z) (its : list line_item) :
  id <> doc_id ->
  filter (fun r => Load.li_document_id r =? id) (item_rows doc_id next its)
  = [].
Proof.
  intros Hn. revert next. induction its as [|it rest IH]; intros next;
    simpl; auto.
  destruct (Z.eqb_spec doc_id id); [congruence | apply IH].
Qed.

Lemma line_items_of_rows (doc_id next : Z) (its : list line_item) :
  map line_item_of (item_rows doc_id next its) = its.
Proof.
  revert next. induction its as [|[i q u t] rest IH]; intros next; simpl;
    auto.
  now rewrite IH.
Qed.

Lemma filter_deleted (id : Z) (l : list Load.line_items_row) :
  filter (fun r => Load.li_document_id r =? id)
    (filter (fun r => negb (Load.li_document_id r =? id)) l) = [].
Proof.
  induction l as [|r l IH]; simpl; auto.
  destruct (Load.li_document_id r =? id) eqn:E; simpl; auto.
  now rewrite E.
Qed.

Lemma filter_not_deleted (id id' : Z) (l : list Load.line_items_row) :
  id' <> id ->
  filter (fun r => Load.li_document_id r =? id')
    (filter (fun r => negb (Load.li_document_id r =? id)) l)
  = filter (fun r => Load.li_document_id r =? id') l.
Proof.
  intros Hn. induction l as [|r l IH]; simpl; auto.
  destruct (Z.eqb_spec (Load.li_document_id r) id) as [E|E]; simpl.
  - destruct (Z.eqb_spec (Load.li_document_id r) id'); [congruence | auto].
  - destruct (Load.li_document_id r =? id'); now rewrite IH.
Qed.

Lemma filter_unreferenced (id : Z) (t : Load.tables) :
  ~ In id (map Load.d_id (Load.documents t)) ->
  Forall (fun r => In (Load.li_document_id r)
                     (map Load.d_id (Load.documents t))) (Load.items t) ->
  filter (fun r => Load.li_document_id r =? id) (Load.items t) = [].
Proof.
  intros Hn. induction (Load.items t) as [|r l IH]; simpl; auto.
  intros H. inversion H as [|? ? Hr Hl]; subst.
  destruct (Z.eqb_spec (Load.li_document_id r) id) as [E|E]; auto.
  congruence.
Qed.

(** Under a unique key, the rows selected by a key are one at most. *)
Lemma filter_unique {A} (key : A -> string) (k : string) (l : list A) :
  NoDup (map key l) ->
  forall a rest,
    filter (fun r => String.eqb (key r) k) l = a :: rest -> rest = [].
Proof.
  induction l as [|r l IH]; simpl; intros Hnd a rest H; [discriminate|].
  inversion Hnd as [|? ? Hn Hd]; subst.
  destruct (String.eqb_spec (key r) k) as [E|E].
  - injection H as <- <-.
    destruct (filter _ l) as [|b rest'] eqn:F; auto.
    exfalso. apply Hn.
    assert (Hb : In b (filter (fun r0 => String.eqb (key r0) k) l))
      by (rewrite F; now left).
    apply filter_In in Hb as [Hb Eb]. apply String.eqb_eq in Eb.
    rewrite E, <- Eb. now apply in_map.
  - eauto.
Qed.

Lemma NoDup_map_inj {A B} (key : A -> B) (l : list A) (a b : A) :
  NoDup (map key l) -> In a l -> In b l -> key a = key b -> a = b.
Proof.
  induction l as [|r l IH]; simpl; intros Hnd Ha Hb E; [contradiction|].
  inversion Hnd as [|? ? Hn Hd]; subst.
  destruct Ha as [->|Ha], Hb as [->|Hb]; auto.
  - exfalso. apply Hn. rewrite E. now apply in_map.
  - exfalso. apply Hn. rewrite <- E. now apply in_map.
Qed.

Lemma filter_map_rewrite (di n de : string) (id : Z) (f : string)
    (l : list Load.documents_row) :
  filter (fun r => String.eqb (Load.d_filename r) f)
    (map (Load.update_row di n de id) l)
  = map (Load.update_row di n de id)
      (filter (fun r => String.eqb (Load.d_filename r) f) l).
Proof.
  induction l as [|r l IH]; simpl; auto.
  rewrite rewrite_row_filename.
  destruct (String.eqb (Load.d_filename r) f); simpl; now rewrite IH.
Qed.

Lemma update_row_hit (di n de : string) (r : Load.documents_row) :
  Load.update_row di n de (Load.d_id r) r
  = Load.mk_documents_row (Load.d_id r) (Load.d_filename r) di n de.
Proof. unfold Load.update_row. now rewrite Z.eqb_refl. Qed.

Section Upsert.

Variables (f : string) (doc : document) (t : Load.tables) (dseq iseq : Z).
Hypothesis Hwf : wf_tables t dseq iseq.

(** Under the file name of the upsert there is one document, the one
    given. *)
Lemma stored_upsert_same : stored (upsert f doc t dseq iseq) f = [doc].
Proof.
  unfold stored, upsert.
  destruct (filter (fun r => String.eqb (Load.d_filename r) f)
              (Load.documents t)) as [|r rest] eqn:Hsel; simpl.
  - rewrite filter_app, Hsel. simpl. rewrite String.eqb_refl. simpl.
    unfold document_of, items_of. simpl.
    rewrite filter_app, filter_item_rows_same.
    rewrite (filter_unreferenced dseq t).
    + simpl. rewrite line_items_of_rows. now destruct doc.
    + apply below_not_in. apply (wf_document_seq _ _ _ Hwf).
    + apply (wf_reference _ _ _ Hwf).
  - rewrite filter_map_rewrite, Hsel.
    assert (Hrest : rest = [])
      by (eapply (filter_unique Load.d_filename);
          [apply (wf_filename_unique _ _ _ Hwf) | exact Hsel]).
    subst rest. simpl. rewrite update_row_hit.
    unfold document_of, items_of. simpl.
    rewrite filter_app, filter_deleted, filter_item_rows_same. simpl.
    rewrite line_items_of_rows. now destruct doc.
Qed.

(** Under any other file name the stored documents are as before. *)
Lemma stored_upsert_other (f' : string) :
  f' <> f -> stored (upsert f doc t dseq iseq) f' = stored t f'.
Proof.
  intros Hf. unfold stored, upsert.
  destruct (filter (fun r => String.eqb (Load.d_filename r) f)
              (Load.documents t)) as [|r rest] eqn:Hsel; simpl.
  - rewrite filter_app. simpl.
    destruct (String.eqb_spec f f') as [E|_]; [congruence|].
    rewrite app_nil_r. apply map_ext_in. intros r Hr.
    apply filter_In in Hr as [Hr _].
    unfold document_of, items_of. simpl. f_equal.
    rewrite filter_app, filter_item_rows_other; [now rewrite app_nil_r|].
    pose proof (wf_document_seq _ _ _ Hwf) as Hs.
    rewrite Forall_forall in Hs. specialize (Hs r Hr). lia.
  - assert (Hr : In r (Load.documents t) /\ Load.d_filename r = f).
    { assert (Hin : In r (filter (fun r => String.eqb (Load.d_filename r) f)
                            (Load.documents t))) by (rewrite Hsel; now left).
      apply filter_In in Hin as [H1 H2]. apply String.eqb_eq in H2. auto. }
    destruct Hr as [Hr Hrf].
    rewrite filter_map_rewrite, map_map. apply map_ext_in. intros r' Hr'.
    apply filter_In in Hr' as [Hr' Hf']. apply String.eqb_eq in Hf'.
    assert (Hid : Load.d_id r' <> Load.d_id r).
    { intros E.
      assert (r' = r)
        by (eapply (NoDup_map_inj Load.d_id); eauto;
            apply (wf_document_key _ _ _ Hwf)).
      congruence. }
    unfold Load.update_row.
    destruct (Z.eqb_spec (Load.d_id r') (Load.d_id r)); [contradiction|].
    unfold document_of, items_of. simpl. f_equal.
    rewrite filter_app, filter_item_rows_other by assumption.
    rewrite app_nil_r. now rewrite filter_not_deleted.
Qed.

End Upsert.

(** ** File names after an upsert *)

Lemma has_filename_true (f : string) (t : Load.tables) :
  Load.has_filename f t = true <->
  In f (map Load.d_filename (Load.documents t)).
Proof.
  pose proof (has_filename_false f t) as H.
  destruct (Load.has_filename f t).
  - split; [|reflexivity]. intros _.
    destruct (in_dec string_dec f
                (map Load.d_filename (Load.documents t))) as [Hin|Hn];
      [exact Hin|].
    apply H in Hn. discriminate.
  - split; [discriminate|]. intros Hin. exfalso. now apply H.
Qed.

Lemma upsert_names (f : string) (doc : document) (t : Load.tables)
    (dseq iseq : Z) :
  map Load.d_filename (Load.documents (upsert f doc t dseq iseq))
  = (map Load.d_filename (Load.documents t)
     ++ if Load.has_filename f t then [] else [f])%list.
Proof.
  unfold upsert.
  destruct (map Load.d_id _) as [|id ids] eqn:Hsel.
  - apply select_none, has_filename_false in Hsel. rewrite Hsel.
    cbn [Load.documents]. now rewrite map_app.
  - apply select_some in Hsel as [_ Hin]. apply has_filename_true in Hin.
    rewrite Hin. cbn [Load.documents].
    now rewrite map_filename_rewrite, app_nil_r.
Qed.

Lemma upsert_has_name (f : string) (doc : document) (t : Load.tables)
    (dseq iseq : Z) :
  Load.has_filename f (upsert f doc t dseq iseq) = true.
Proof.
  apply has_filename_true. rewrite upsert_names.
  destruct (Load.has_filename f t) eqn:E.
  - rewrite app_nil_r. now apply has_filename_true.
  - apply in_or_app. right. now left.
Qed.

Lemma upsert_keeps_absent (f g : string) (doc : document)
    (t : Load.tables) (dseq iseq : Z) :
  Load.has_filename g (upsert f doc t dseq iseq) = false ->
  Load.has_filename g t = false.
Proof.
  rewrite !has_filename_false, upsert_names. intros H Hin.
  apply H. apply in_or_app. now left.
Qed.

(** ** The last entry of a batch under a stored name *)

Lemma lookup_rev_none {V} (g : string) (d : pydict V) :
  lookup g (rev d) = None <-> ~ In g (keys d).
Proof.
  rewrite lookup_none_keys. unfold keys. rewrite map_rev.
  split; intros H Hin; apply H; [now apply -> in_rev | now apply in_rev].
Qed.

Lemma lookup_rev {V} (g : string) (d : pydict V) :
  NoDup (keys d) -> lookup g (rev d) = lookup g d.
Proof.
  induction d as [|[k v] d IH]; [reflexivity|].
  intros Hnd. inversion Hnd as [|? ? Hk Hd]; subst.
  cbn [rev]. rewrite lookup_app, (IH Hd). cbn [lookup].
  destruct (String.eqb_spec g k) as [->|Hg].
  - apply lookup_none_keys in Hk. now rewrite Hk.
  - now destruct (lookup g d).
Qed.

Lemma keys_column_batch (data : pydict document) :
  keys (column_batch data) = map stored_text (keys data).
Proof. unfold keys, column_batch. now rewrite !map_map. Qed.

Lemma column_batch_kept (data : pydict document) :
  Forall (fun f => stored_text f = f) (keys data) ->
  keys (column_batch data) = keys data
  /\ forall g,
       lookup g (column_batch data)
       = option_map column_document (lookup g data).
Proof.
  induction data as [|[f doc] data IH]; intros H; [now split|].
  inversion H as [|? ? Hf Hrest]; subst. cbn [fst] in Hf.
  destruct (IH Hrest) as [Hk Hl]. split.
  - cbn [column_batch map keys fst]. unfold keys, column_batch in Hk.
    now rewrite Hf, Hk.
  - intros g. cbn [column_batch map lookup fst snd]. rewrite Hf.
    destruct (String.eqb g f); [reflexivity | apply Hl].
Qed.

(** No entry comes under a name that the reversed batch does not hold. *)
Lemma none_stored_under (data : pydict document) (g : string) :
  lookup g (rev (column_batch data)) = None <->
  forall e, In e data -> stored_text (fst e) <> g.
Proof.
  rewrite lookup_rev_none, keys_column_batch. unfold keys.
  rewrite map_map. split.
  - intros H e He E. apply H. rewrite <- E.
    now apply (in_map (fun x => stored_text (fst x))).
  - intros H Hin. apply in_map_iff in Hin as (e & E & He).
    now apply (H e He).
Qed.

(** What the reversed batch holds under a name is the document of the last
    entry that comes under that name. *)
Lemma last_stored_under (data : pydict document) (g : string)
    (d' : document) :
  lookup g (rev (column_batch data)) = Some d' ->
  exists p e q,
    data = (p ++ e :: q)%list
    /\ stored_text (fst e) = g
    /\ d' = column_document (snd e)
    /\ forall e', In e' q -> stored_text (fst e') <> g.
Proof.
  induction data as [|e0 data IH]; [discriminate|].
  cbn [column_batch map rev]. rewrite lookup_app.
  fold (column_batch data).
  destruct (lookup g (rev (column_batch data))) as [d|] eqn:E.
  - intros [= <-]. destruct (IH eq_refl) as (p & e & q & -> & H1 & H2 & H3).
    now exists (e0 :: p), e, q.
  - cbn [lookup fst snd].
    destruct (String.eqb_spec g (stored_text (fst e0))) as [->|Hg];
      [|discriminate].
    intros [= <-]. exists [], e0, data.
    split; [reflexivity|]. split; [reflexivity|]. split; [reflexivity|].
    now apply none_stored_under.
Qed.

(** An entry whose name is within the column is the last one under its
    name. *)
Lemma short_name_last (data : pydict document) (t : Load.tables)
    (f : string) (d : document) :
  NoDup (keys data) ->
  cut_names_first data t ->
  In (f, d) data ->
  fits_name f = true ->
  lookup f (rev (column_batch data)) = Some (column_document d).
Proof.
  intros Hnd Hcut Hin Hfit.
  pose proof (stored_text_fits f Hfit) as Hst.
  destruct (lookup f (rev (column_batch data))) as [d'|] eqn:E.
  2:{ exfalso. apply (proj1 (none_stored_under data f) E (f, d) Hin).
      exact Hst. }
  destruct (last_stored_under data f d' E) as (p & e & q & -> & H1 & -> & H3).
  apply in_app_or in Hin as [Hp|[->|Hq]].
  - exfalso. destruct (fits_name (fst e)) eqn:He.
    + (* two entries of the same name *)
      rewrite (stored_text_fits _ He) in H1.
      unfold keys in Hnd. rewrite map_app in Hnd. cbn [map] in Hnd.
      apply NoDup_remove_2 in Hnd. apply Hnd. apply in_or_app. left.
      rewrite H1. now apply (in_map fst _ (f, d)).
    + destruct (Hcut p e q eq_refl He) as [_ Hp'].
      apply (Hp' (f, d) Hp). cbn [fst]. congruence.
  - reflexivity.
  - exfalso. now apply (H3 (f, d) Hq).
Qed.

(** Two entries whose names are cut to the same name are one entry. *)
Lemma cut_name_once (data : pydict document) (t : Load.tables)
    (e1 e2 : string * document) :
  cut_names_first data t ->
  In e1 data -> In e2 data ->
  fits_name (fst e1) = false -> fits_name (fst e2) = false ->
  stored_text (fst e1) = stored_text (fst e2) ->
  e1 = e2.
Proof.
  intros Hcut H1 H2 F1 F2 E.
  apply in_split in H1 as (p & q & ->).
  apply in_app_or in H2 as [Hp|[->|Hq]]; [| reflexivity |].
  - exfalso. destruct (Hcut p e1 q eq_refl F1) as [_ H].
    now apply (H e2 Hp).
  - exfalso. apply in_split in Hq as (q1 & q2 & ->).
    destruct (Hcut (p ++ e1 :: q1)%list e2 q2) as [_ H]; auto.
    + now rewrite <- app_assoc.
    + apply (H e1); [apply in_or_app; right; now left | exact E].
Qed.

(** Two batches of the same entries, in which every cut name comes first,
    hold the same document last under every name. *)
Lemma last_stored_permutation (b1 b2 : pydict document)
    (t1 t2 : Load.tables) (g : string) :
  NoDup (keys b1) ->
  Permutation b1 b2 ->
  cut_names_first b1 t1 ->
  cut_names_first b2 t2 ->
  lookup g (rev (column_batch b1)) = lookup g (rev (column_batch b2)).
Proof.
  intros Hnd Hp Hc1 Hc2.
  assert (Hnd2 : NoDup (keys b2)).
  { apply (Permutation_NoDup (l := keys b1)); auto.
    now apply Permutation_map. }
  assert (Hin : forall e, In e b1 <-> In e b2).
  { intros e. split; apply Permutation_in; auto.
    now apply Permutation_sym. }
  destruct (lookup g (rev (column_batch b1))) as [d1|] eqn:E1.
  - destruct (last_stored_under b1 g d1 E1)
      as (p & [f1 x1] & q & Hb1 & H1 & -> & _).
    assert (In1 : In (f1, x1) b1)
      by (rewrite Hb1; apply in_or_app; right; now left).
    cbn [fst snd] in *.
    destruct (fits_name f1) eqn:F1.
    + rewrite (stored_text_fits f1 F1) in H1. subst g. symmetry.
      apply (short_name_last b2 t2); auto. now apply Hin.
    + destruct (lookup g (rev (column_batch b2))) as [d2|] eqn:E2.
      2:{ exfalso.
          apply (proj1 (none_stored_under b2 g) E2 (f1, x1));
            [now apply Hin | exact H1]. }
      destruct (last_stored_under b2 g d2 E2)
        as (p2 & [f2 x2] & q2 & Hb2 & H2 & -> & _).
      assert (In2 : In (f2, x2) b2)
        by (rewrite Hb2; apply in_or_app; right; now left).
      cbn [fst snd] in *.
      destruct (fits_name f2) eqn:F2.
      * rewrite (stored_text_fits f2 F2) in H2. subst g.
        apply Hin in In2.
        pose proof (short_name_last b1 t1 f2 x2 Hnd Hc1 In2 F2) as H.
        congruence.
      * assert (E : (f1, x1) = (f2, x2)).
        { apply (cut_name_once b2 t2); auto; [now apply Hin|].
          cbn [fst]. congruence. }
        now injection E as -> ->.
  - symmetry. apply none_stored_under. intros e He.
    apply (proj1 (none_stored_under b1 g) E1). now apply Hin.
Qed.

(** ** A whole run *)


Lemma storable_entries (e : string * document)
    (rest : pydict document) :
  storable_entry e = false \/ forallb storable_entry rest = false ->
  forallb storable_entry (e :: rest) = false.
Proof.
  cbn [forallb]. intros [->| ->]; [reflexivity | apply andb_false_r].
Qed.

Section LoadRun.

Variable server_ok : nat -> Load.request -> bool.

Lemma ensures_safe {A} (m : Load.db A) (st : Load.store) (unless : Prop)
    (Q : A -> Load.store -> Prop) :
  safe m -> consistent st -> ensures server_ok m st unless Q ->
  ensures server_ok m st unless (fun a st' => Q a st' /\ consistent st').
Proof.
  intros Hs Hst. destruct (Hs st Hst) as [Hc _]. unfold ensures.
  destruct (m st) as [[a|e] st']; simpl in *; auto.
Qed.

(** The loop of [load] leaves, under each name that is stored for a file
    name of the batch, the document of the last entry that comes under
    it, as its columns hold it, and what it found under every other name;
    it commits nothing. *)
Lemma load_loop_spec (data : pydict document) (st : Load.store) :
  consistent st ->
  ensures server_ok (Load.load_loop server_ok data) st
    (forallb storable_entry data = false)
    (fun _ st' =>
       consistent st'
       /\ Load.committed st' = Load.committed st
       /\ Forall (fun f => Load.varchar 255 f <> None) (keys data)
       /\ cut_names_first data (Load.working st)
       /\ forall g,
            stored (Load.working st') g
            = match lookup g (rev (column_batch data)) with
              | Some doc => [doc]
              | None => stored (Load.working st) g
              end).
Proof.
  revert st. induction data as [|[f doc] rest IH]; intros st Hst.
  - simpl. apply ensures_ret.
    split; [exact Hst|]. split; [reflexivity|]. split; [constructor|].
    split; [|reflexivity].
    intros p e q E. now destruct p.
  - cbn [Load.load_loop]. apply ensures_bind.
    eapply ensures_weaken.
    + apply ensures_safe;
        [apply safe_load_document | exact Hst |
         apply load_document_spec; apply (working_wf _ Hst)].
    + intros H. apply storable_entries. now left.
    + simpl. intros _ st1 [(Hw & Hc & Hacc & Hcut) Hst1].
      eapply ensures_weaken; [apply (IH st1 Hst1)| |].
      * intros H. apply storable_entries. now right.
      * simpl. intros _ st' (Hst' & Hc' & Hall & Hcuts & Hsto).
        split; [exact Hst'|]. split; [congruence|].
        split; [now constructor|]. split.
        -- (* cut names come first *)
           intros p e q E Hlong. destruct p as [|e0 p].
           ++ injection E as <- _. cbn [fst] in *.
              split; [now apply Hcut | intros e' []].
           ++ injection E as <- ->.
              destruct (Hcuts p e q eq_refl Hlong) as [Habs Hp].
              rewrite Hw in Habs. split.
              ** now apply upsert_keeps_absent in Habs.
              ** intros e' [<-|He']; [|now apply Hp].
                 cbn [fst]. intros E.
                 rewrite <- E, upsert_has_name in Habs. discriminate.
        -- (* what is stored *)
           intros g. rewrite Hsto. cbn [column_batch map rev fst snd].
           fold (column_batch rest). rewrite lookup_app.
           destruct (lookup g (rev (column_batch rest))); [reflexivity|].
           cbn [lookup]. rewrite Hw.
           destruct (String.eqb_spec g (stored_text f)) as [->|Hg].
           ++ apply stored_upsert_same. apply (working_wf _ Hst).
           ++ apply stored_upsert_other; auto. apply (working_wf _ Hst).
Qed.

Lemma commit_spec (st : Load.store) (unless : Prop) :
  ensures server_ok (Load.commit server_ok) st unless
    (fun _ st' =>
       Load.committed st' = Load.working st
       /\ Load.working st' = Load.working st).
Proof.
  unfold Load.commit. apply ensures_bind.
  apply ensures_perform. unfold Load.perform.
  apply ensures_ret. simpl. auto.
Qed.

Lemma init_spec (st : Load.store) (unless : Prop) :
  ensures server_ok (Load.init server_ok) st unless
    (fun _ st' =>
       Load.working st' = Load.committed st
       /\ Load.committed st' = Load.committed st).
Proof.
  unfold Load.init, Load._create_tables.
  do 3 (apply ensures_bind; apply ensures_perform;
        cbv beta iota zeta delta [Load.perform]).
  eapply ensures_weaken; [apply (commit_spec _ unless) | auto |].
  simpl. intros _ st' [Hc Hw]. split; congruence.
Qed.

(** A run that returns has committed, under each name that is stored for a
    file name of the batch, the document of the last entry under it, and
    has left every other name as it was. *)
Lemma load_run_spec (data : pydict document) (st : Load.store) :
  consistent st ->
  ensures server_ok (load_run server_ok data) st
    (forallb storable_entry data = false)
    (fun _ st' =>
       consistent st'
       /\ Forall (fun f => Load.varchar 255 f <> None) (keys data)
       /\ cut_names_first data (Load.committed st)
       /\ forall g,
            stored (Load.committed st') g
            = match lookup g (rev (column_batch data)) with
              | Some doc => [doc]
              | None => stored (Load.committed st) g
              end).
Proof.
  intros Hst. set (U := forallb storable_entry data = false).
  assert (Hrun : ensures server_ok (load_run server_ok data) st U
            (fun _ st' =>
               Forall (fun f => Load.varchar 255 f <> None) (keys data)
               /\ cut_names_first data (Load.committed st)
               /\ forall g,
                    stored (Load.committed st') g
                    = match lookup g (rev (column_batch data)) with
                      | Some doc => [doc]
                      | None => stored (Load.committed st) g
                      end)).
  { unfold load_run. apply ensures_bind.
    eapply (ensures_weaken _ _ _ U U);
      [apply ensures_safe; [apply safe_init | exact Hst | apply init_spec]
      | auto |].
    simpl. intros _ st1 [[Hw Hc] Hst1].
    apply ensures_bind. unfold Load.load. apply ensures_bind.
    eapply (ensures_weaken _ _ _ U U);
      [apply (load_loop_spec data st1 Hst1) | auto |].
    simpl. intros _ st2 (_ & _ & Hall & Hcut & Hsto).
    eapply (ensures_weaken _ _ _ U U); [apply commit_spec | auto |].
    simpl. intros _ st3 [Hc3 _].
    unfold ensures, Load.close. simpl.
    rewrite Hw in Hcut.
    split; [exact Hall|]. split; [exact Hcut|].
    intros g. now rewrite Hc3, Hsto, Hw. }
  eapply (ensures_weaken _ _ _ U U);
    [apply ensures_safe; [apply safe_load_run | exact Hst | exact Hrun]
    | auto |].
  simpl. intros _ st' [(Hall & Hcut & Hsto) Hst'].
  split; [exact Hst'|]. split; [exact Hall|]. split; [exact Hcut|].
  exact Hsto.
Qed.

(** A run that returns on a batch of distinct file names, none of them
    cut, has committed under each file name of the batch its one document,
    as its columns hold it, and has left every other file name as it
    was. *)
Lemma load_run_stored (data : pydict document) (st st' : Load.store) :
  consistent st ->
  NoDup (keys data) ->
  forallb kept_name (keys data) = true ->
  load_run server_ok data st = (Ok tt, st') ->
  consistent st'
  /\ forall f,
       stored (Load.committed st') f
       = match lookup f data with
         | Some doc => [column_document doc]
         | None => stored (Load.committed st) f
         end.
Proof.
  intros Hst Hnd Hkept H.
  destruct (ensures_ok _ _ _ _ _ _ _ (load_run_spec data st Hst) H)
    as (Hst' & Hall & _ & Hsto).
  split; [exact Hst'|]. intros f. rewrite Hsto.
  assert (Hk : Forall (fun f => stored_text f = f) (keys data)).
  { rewrite Forall_forall in *. intros k Hin.
    apply stored_text_fits, kept_name_fits; [|now apply Hall].
    rewrite forallb_forall in Hkept. now apply Hkept. }
  destruct (column_batch_kept data Hk) as [Hkeys Hl].
  rewrite lookup_rev by now rewrite Hkeys.
  rewrite Hl. now destruct (lookup f data).
Qed.



End LoadRun.

(** ** One transaction for the batch *)

Section Atomicity.

Variable server_ok : nat -> Load.request -> bool.

Lemma keeps_ret {A} (a : A) : keeps_committed (@ret Load.store A a).
Proof. intros st. reflexivity. Qed.

Lemma keeps_raise {A} (e : exn) : keeps_committed (@raise Load.store A e).
Proof. intros st. reflexivity. Qed.

Lemma keeps_bind {A B} (m : Load.db A) (k : A -> Load.db B) :
  keeps_committed m -> (forall a, keeps_committed (k a)) ->
  keeps_committed (bind m k).
Proof.
  intros Hm Hk st. unfold bind. specialize (Hm st).
  destruct (m st) as [[a|e] st1]; simpl in *; auto.
  now rewrite Hk.
Qed.

(** Only [Commit] changes the committed relations. *)
Lemma keeps_execute (rq : Load.request) :
  rq <> Load.Commit -> keeps_committed (Load.execute server_ok rq).
Proof.
  intros Hrq st. unfold Load.execute.
  destruct (server_ok (Load.clock st) rq); [|reflexivity].
  destruct rq as [ | | |f|di n de id|id|f di n de|doc it q u tot| ]; simpl;
    try reflexivity; try congruence.
  - now destruct (Load.document_columns di n) as [[di' n']|].
  - destruct (Load.varchar 255 f) as [f'|]; [|reflexivity].
    destruct (Load.document_columns di n) as [[di' n']|]; [|reflexivity].
    now destruct (Load.has_document _ _ || Load.has_filename _ _).
  - destruct (Load.item_columns it q u tot) as [li|]; [|reflexivity].
    now destruct (Load.has_item _ _ || negb (Load.has_document _ _)).
Qed.

Lemma keeps_insert_items (doc_id : Z) (its : list line_item) :
  keeps_committed (Load.insert_items server_ok doc_id its).
Proof.
  induction its as [|it rest IH]; simpl.
  - apply keeps_ret.
  - apply keeps_bind; [apply keeps_execute; discriminate | intros; exact IH].
Qed.

Lemma keeps_load_document (f : string) (doc : document) :
  keeps_committed (Load.load_document server_ok f doc).
Proof.
  unfold Load.load_document.
  apply keeps_bind; [apply keeps_execute; discriminate | intros rows].
  apply keeps_bind; [|intros; apply keeps_insert_items].
  destruct (Load.fetchone rows).
  - do 2 (apply keeps_bind; [apply keeps_execute; discriminate | intros]).
    apply keeps_ret.
  - apply keeps_bind; [apply keeps_execute; discriminate | intros rows'].
    destruct (Load.fetchone rows'); [apply keeps_ret | apply keeps_raise].
Qed.

Lemma keeps_load_loop (data : pydict document) :
  keeps_committed (Load.load_loop server_ok data).
Proof.
  induction data as [|[f doc] rest IH]; simpl.
  - apply keeps_ret.
  - apply keeps_bind; [apply keeps_load_document | intros; exact IH].
Qed.

(** [load] commits the relations the loop has left, or nothing. *)
Lemma load_commits_once (data : pydict document) (st : Load.store) :
  match Load.load server_ok data st with
  | (Ok _, st') =>
      exists st1,
        Load.load_loop server_ok data st = (Ok tt, st1)
        /\ Load.committed st' = Load.working st1
  | (Raise _, st') => Load.committed st' = Load.committed st
  end.
Proof.
  pose proof (keeps_load_loop data st) as Hk.
  unfold Load.load, bind.
  destruct (Load.load_loop server_ok data st) as [[[]|e] st1]; simpl in Hk;
    [|exact Hk].
  unfold Load.commit, bind, Load.execute.
  destruct (server_ok (Load.clock st1) Load.Commit); simpl.
  - exists st1. auto.
  - exact Hk.
Qed.

Lemma load_surfaces (data : pydict document) (st : Load.store) :
  match Load.load_loop server_ok data st with
  | (Raise e, st1) => Load.load server_ok data st = (Raise e, st1)
  | (Ok _, _) => True
  end.
Proof.
  unfold Load.load, bind.
  now destruct (Load.load_loop server_ok data st) as [[[]|e] st1].
Qed.

(** [Load.__init__] leaves the committed relations as they are, and where
    it returns the transaction sees them. *)
Lemma init_keeps (st : Load.store) :
  Load.committed (snd (Load.init server_ok st)) = Load.committed st
  /\ (fst (Load.init server_ok st) = Ok tt ->
      Load.working (snd (Load.init server_ok st)) = Load.committed st).
Proof.
  unfold Load.init, Load._create_tables, Load.commit, bind, Load.execute.
  destruct (server_ok (Load.clock st) Load.Connect); simpl;
    [|split; [reflexivity | discriminate]].
  destruct (server_ok _ Load.CreateDocuments); simpl;
    [|split; [reflexivity | discriminate]].
  destruct (server_ok _ Load.CreateLineItems); simpl;
    [|split; [reflexivity | discriminate]].
  destruct (server_ok _ Load.Commit); simpl;
    [|split; [reflexivity | discriminate]].
  split; reflexivity.
Qed.

(** A run that raises has committed nothing. *)
Lemma load_run_rolls_back (data : pydict document) (st : Load.store) :
  match load_run server_ok data st with
  | (Raise _, st') => Load.committed st' = Load.committed st
  | (Ok _, _) => True
  end.
Proof.
  destruct (init_keeps st) as [Hi _].
  unfold load_run, bind.
  destruct (Load.init server_ok st) as [[[]|e] st1]; simpl in Hi; [|exact Hi].
  pose proof (load_commits_once data st1) as Hl.
  destruct (Load.load server_ok data st1) as [[[]|e] st2]; simpl; [auto|].
  congruence.
Qed.

End Atomicity.

Section Pipeline.

Variable repr : pyval -> string.
Variable invoke_model : string -> result string.
Variable json_loads : string -> option (pydict pyval).
Variable server_ok : nat -> Load.request -> bool.
Variable report : Load.tables -> result unit.

(** [run_etl] is the two pure stages, then one run of the loading stage,
    then the report on what is committed. *)
Lemma run_etl_stages (images : list string) (st : Load.store) :
  run_etl repr invoke_model json_loads server_ok report images st
  = match Extract.extract_text_from_images invoke_model json_loads images
    with
    | Raise e => (Raise e, st)
    | Ok extracted_data =>
        match Transform.transform repr extracted_data with
        | Raise e => (Raise e, st)
        | Ok transformed_data =>
            match load_run server_ok transformed_data st with
            | (Raise e, st') => (Raise e, st')
            | (Ok _, st') => (report (Load.committed st'), st')
            end
        end
    end.
Proof.
  unfold run_etl, load_run, bind, lift.
  destruct (Extract.extract_text_from_images _ _ images) as [ex|e]; auto.
  destruct (Transform.transform repr ex) as [tr|e]; auto.
  destruct (Load.init server_ok st) as [[[]|e] st1]; auto.
  destruct (Load.load server_ok tr st1) as [[[]|e] st2]; auto.
Qed.

(** C2.  The loop of [load] commits nothing; [load] commits once, after
    the loop, the relations the loop has left; where any step of the batch
    raises, [load] raises the same exception, the run has committed
    nothing, and [run_etl] raises it to its caller. *)
Theorem load_atomic (data : pydict document) (st : Load.store) :
  Load.committed (snd (Load.load_loop server_ok data st)) = Load.committed st
  /\ match Load.load server_ok data st with
     | (Ok _, st') =>
         exists st1,
           Load.load_loop server_ok data st = (Ok tt, st1)
           /\ Load.committed st' = Load.working st1
     | (Raise _, st') => Load.committed st' = Load.committed st
     end
  /\ match Load.load_loop server_ok data st with
     | (Raise e, st1) => Load.load server_ok data st = (Raise e, st1)
     | (Ok _, _) => True
     end
  /\ match load_run server_ok data st with
     | (Raise _, st') => Load.committed st' = Load.committed st
     | (Ok _, _) => True
     end
  /\ forall images extracted_data,
       Extract.extract_text_from_images invoke_model json_loads images
       = Ok extracted_data ->
       Transform.transform repr extracted_data = Ok data ->
       match load_run server_ok data st with
       | (Raise e, st') =>
           run_etl repr invoke_model json_loads server_ok report images st
           = (Raise e, st')
       | (Ok _, _) => True
       end.
Proof.
  split; [apply keeps_load_loop|].
  split; [apply load_commits_once|].
  split; [apply load_surfaces|].
  split; [apply load_run_rolls_back|].
  intros images ex Hex Htr. rewrite run_etl_stages, Hex, Htr.
  now destruct (load_run server_ok data st) as [[[]|e] st'].
Qed.

(** C7, as the code has it.  With the response for image 000 holding the
    object of the scenario: where the response for image 001 is a text
    without a balanced object, the server refuses nothing and the report
    is written, image 001 is skipped (extraction yields the one entry
    000.jpg), [run_etl] returns and the store, empty before, holds the one
    document row of 000.jpg with its one line item (Widget, 2, 10.5, 0);
    where the call for image 001 raises, [run_etl] raises the same
    exception and the store is untouched. *)
Theorem batch_of_two (text0 span0 : string) :
  invoke_model "000" = Ok text0 ->
  Extract.first_object text0 = Some span0 ->
  json_loads span0 = Some invoice_000 ->
  (forall text1,
     invoke_model "001" = Ok text1 ->
     Extract.first_object text1 = None ->
     (forall n rq, server_ok n rq = true) ->
     (forall t, report t = Ok tt) ->
     exists st',
       Extract.extract_text_from_images invoke_model json_loads
         ["000"; "001"] = Ok [("000.jpg", invoice_000)]
       /\ run_etl repr invoke_model json_loads server_ok report
            ["000"; "001"] Load.fresh = (Ok tt, st')
       /\ Load.documents (Load.committed st')
          = [Load.mk_documents_row 1 "000.jpg" "INV-1" "Acme" "N/A"]
       /\ Load.items (Load.committed st')
          = [Load.mk_line_items_row 1 1 "Widget" 2 (21 # 2) 0])
  /\ (forall e,
        invoke_model "001" = Raise e ->
        run_etl repr invoke_model json_loads server_ok report ["000"; "001"]
          Load.fresh = (Raise e, Load.fresh)).
Proof.
  intros H0 Hspan Hjson. split.
  - intros text1 H1 Hnone Hok Hrep.
    assert (Hex : Extract.extract_text_from_images invoke_model json_loads
                    ["000"; "001"] = Ok [("000.jpg", invoice_000)]).
    { unfold Extract.extract_text_from_images. cbn [Extract.extract_loop].
      rewrite H0. cbn [rbind]. rewrite Hspan, Hjson, H1. cbn [rbind].
      now rewrite Hnone. }
    rewrite run_etl_stages, Hex.
    change (Transform.transform repr [("000.jpg", invoice_000)])
      with (Ok [("000.jpg",
                 mk_document "INV-1" "Acme" "N/A"
                   [mk_line_item "Widget" 2 (21 # 2) 0])]).
    cbv iota beta.
    unfold load_run, Load.init, Load._create_tables, Load.load, Load.commit,
      Load.load_loop, Load.load_document, Load.insert_items, Load.close,
      Load.execute, bind, ret.
    repeat (rewrite Hok; cbv).
    rewrite Hrep. eexists. split; [reflexivity|].
    split; [reflexivity|]. split; reflexivity.
  - intros e H1. rewrite run_etl_stages.
    unfold Extract.extract_text_from_images. cbn [Extract.extract_loop].
    rewrite H0. cbn [rbind]. rewrite Hspan, Hjson, H1. reflexivity.
Qed.

End Pipeline.

(** C7, as the claim has it, fails where the extraction of image 001 fails
    by raising: the batch is aborted, [run_etl] raises to its caller, and
    the store holds no document at all. *)
Lemma extraction_failure_aborts_batch :
  let invoke_model i :=
    if String.eqb i "000" then Ok "{invoice}" else Raise ClientError in
  run_etl (fun _ => "") invoke_model (fun _ => Some invoice_000)
    (fun _ _ => true) (fun _ => Ok tt) ["000"; "001"] Load.fresh
  = (Raise ClientError, Load.fresh)
  /\ Load.documents (Load.committed Load.fresh) = [].
Proof. split; reflexivity. Qed.


(** * The theorems at concrete inputs *)


Lemma load_atomic_witness :
  let ok := refuses_file "001.jpg" in
  let repr := fun _ : pyval => "" in
  let invoke_model := fun _ : string => Ok "{invoice}" in
  let json_loads := fun _ : string => Some invoice_000 in
  let report := fun _ : Load.tables => Ok tt in
  let doc := mk_document "INV-1" "Acme" "N/A"
               [mk_line_item "Widget" 2 (21 # 2) 0] in
  let data := [("000.jpg", doc); ("001.jpg", doc)] in
  fst (load_run ok data Load.fresh) = Raise DatabaseError
  /\ Load.committed (snd (load_run ok data Load.fresh)) = Load.empty_tables
  /\ fst (run_etl repr invoke_model json_loads ok report ["000"; "001"]
            Load.fresh) = Raise DatabaseError.
Proof.
  intros ok repr invoke_model json_loads report doc data.
  destruct (load_atomic repr invoke_model json_loads ok report data
              Load.fresh) as (_ & _ & _ & Hrun & Hetl).
  specialize (Hetl ["000"; "001"]
                [("000.jpg", invoice_000); ("001.jpg", invoice_000)]
                eq_refl eq_refl).
  split; [reflexivity|]. split.
  - exact Hrun.
  - exact (f_equal fst Hetl).
Defined.

Lemma batch_of_two_witness :
  let repr := fun _ : pyval => "" in
  let json_loads := fun _ : string => Some invoice_000 in
  let ok := fun (_ : nat) (_ : Load.request) => true in
  let report := fun _ : Load.tables => Ok tt in
  let skipping i :=
    if String.eqb i "000" then Ok "Here it is: {invoice} done"
    else Ok "no object here" in
  let failing i :=
    if String.eqb i "000" then Ok "Here it is: {invoice} done"
    else Raise ClientError in
  (exists st',
     Extract.extract_text_from_images skipping json_loads ["000"; "001"]
     = Ok [("000.jpg", invoice_000)]
     /\ run_etl repr skipping json_loads ok report ["000"; "001"] Load.fresh
        = (Ok tt, st')
     /\ Load.documents (Load.committed st')
        = [Load.mk_documents_row 1 "000.jpg" "INV-1" "Acme" "N/A"]
     /\ Load.items (Load.committed st')
        = [Load.mk_line_items_row 1 1 "Widget" 2 (21 # 2) 0])
  /\ run_etl repr failing json_loads ok report ["000"; "001"] Load.fresh
     = (Raise ClientError, Load.fresh).
Proof.
  intros repr json_loads ok report skipping failing. split.
  - apply (proj1 (batch_of_two repr skipping json_loads ok report
                    "Here it is: {invoice} done" "{invoice}"
                    eq_refl eq_refl eq_refl) "no object here");
      reflexivity.
  - apply (proj2 (batch_of_two repr failing json_loads ok report
                    "Here it is: {invoice} done" "{invoice}"
                    eq_refl eq_refl eq_refl) ClientError).
    reflexivity.
Defined.

Lemma store_invariants_witness :
  let ok := refuses_file "001.jpg" in
  let doc := mk_document "INV-1" "Acme" "N/A"
               [mk_line_item "Widget" 2 (21 # 2) 0] in
  let first := [[("000.jpg", doc)]] in
  let further := [[("000.jpg", doc); ("001.jpg", doc)]; [("002.jpg", doc)]] in
  NoDup (map Load.d_filename
           (Load.documents (Load.committed (load_runs ok first Load.fresh))))
  /\ exists r',
       In r' (Load.documents
                (Load.committed
                   (load_runs ok (first ++ further) Load.fresh)))
       /\ Load.d_id r' = 1
       /\ Load.d_filename r' = "000.jpg".
Proof.
  intros ok doc first further.
  destruct (store_invariants ok first) as (Hunique & _ & Hkept).
  split; [exact Hunique|].
  apply (Hkept further
           (Load.mk_documents_row 1 "000.jpg" "INV-1" "Acme" "N/A")).
  left. reflexivity.
Defined.

(** * Texts put end to end *)

Lemma length_app (a b : string) :
  String.length (a ++ b) = (String.length a + String.length b)%nat.
Proof. induction a as [|c a IH]; simpl; auto. Qed.

Lemma app_assoc_text (a b c : string) : (a ++ b) ++ c = a ++ b ++ c.
Proof. induction a as [|x a IH]; simpl; congruence. Qed.

(** * Further properties of Transform *)

Lemma tidy_from_rstrip (b : bool) (s : string) :
  tidy_from b s = true ->
  Transform.rstrip s = s /\ (s = EmptyString -> b = false).
Proof.
  revert b. induction s as [|c r IH]; intros b H.
  - simpl in H. split; [reflexivity | intros _; now destruct b].
  - split; [|discriminate]. cbn [tidy_from] in H. cbn [Transform.rstrip].
    destruct (is_space c) eqn:Hc.
    + apply andb_prop in H as [_ Hr]. destruct (IH true Hr) as [E Hne].
      rewrite E. destruct r; [now specialize (Hne eq_refl) | reflexivity].
    + destruct (IH false H) as [E _]. rewrite E. now destruct r.
Qed.

Lemma tidy_from_sub_spaces (b : bool) (s : string) :
  tidy_from b s = true -> Transform.sub_spaces b s = s.
Proof.
  revert b. induction s as [|c r IH]; intros b H; [reflexivity|].
  cbn [tidy_from] in H. cbn [Transform.sub_spaces].
  destruct (is_space c) eqn:Hc.
  - apply andb_prop in H as [H Hr]. apply andb_prop in H as [Hsp Hb].
    apply Ascii.eqb_eq in Hsp. apply negb_true_iff in Hb. subst c b.
    now rewrite (IH true Hr).
  - now rewrite (IH false H).
Qed.

(** A tidy text is left as it is by the strip and by the substitution. *)
Lemma tidy_fixed (s : string) :
  tidy s = true -> Transform.sub_spaces false (Transform.strip s) = s.
Proof.
  destruct s as [|c r]; [reflexivity|]. unfold tidy. intros H.
  apply andb_prop in H as [Hc Ht]. apply negb_true_iff in Hc.
  unfold Transform.strip. cbn [Transform.lstrip]. rewrite Hc.
  destruct (tidy_from_rstrip _ _ Ht) as [-> _].
  now apply tidy_from_sub_spaces.
Qed.

Section TransformMore.

Variable repr : pyval -> string.

Local Abbreviation _clean_text := (Transform._clean_text repr).
Local Abbreviation _to_decimal := (Transform._to_decimal repr).
Local Abbreviation clean_item := (Transform.clean_item repr).
Local Abbreviation _clean_line_items := (Transform._clean_line_items repr).
Local Abbreviation _clean_document := (Transform._clean_document repr).
Local Abbreviation transform := (Transform.transform repr).

Lemma clean_text_is_tidy (v : pyval) : tidy (_clean_text v) = true.
Proof.
  unfold Transform._clean_text.
  destruct (negb (truthy v) || eq_str v "N/A");
    [reflexivity | apply clean_text_tidy].
Qed.

(** X1.  Whatever value it is given, [_clean_text] returns a text with no
    whitespace at either end, no whitespace character but the space and no
    two spaces in a row; and unless it returns the sentinel for a falsy or
    sentinel value, the characters of its result that are not whitespace
    are those of the text of the value, in order. *)
Theorem clean_text_normal_form (v : pyval) :
  tidy (_clean_text v) = true
  /\ visible (_clean_text v)
     = if negb (truthy v) || eq_str v "N/A" then "N/A"
       else visible (Transform.str repr v).
Proof.
  split; [apply clean_text_is_tidy|].
  unfold Transform._clean_text.
  destruct (negb (truthy v) || eq_str v "N/A");
    [reflexivity | apply clean_text_visible].
Qed.

(** X2.  Cleaning a cleaned text again changes nothing, but for the empty
    result of a blank text, which the second cleaning turns into the
    sentinel. *)
Theorem clean_text_twice (v : pyval) :
  _clean_text (PStr (_clean_text v))
  = if String.eqb (_clean_text v) "" then "N/A" else _clean_text v.
Proof.
  pose proof (clean_text_is_tidy v) as Ht.
  set (r := _clean_text v) in *.
  destruct (String.eqb_spec r "") as [->|Hne]; [reflexivity|].
  unfold Transform._clean_text at 1. cbn [truthy eq_str Transform.str].
  destruct (String.eqb_spec r "") as [|_]; [contradiction|].
  cbn [negb orb].
  destruct (String.eqb_spec r "N/A") as [->|_]; [reflexivity|].
  now apply tidy_fixed.
Qed.

(** X3.  [_to_decimal] raises on a [bool] and on nothing else, and what it
    raises is [InvalidOperation]. *)
Theorem to_decimal_raises_only_on_bool (v : pyval) :
  match _to_decimal v with
  | Ok _ => coercible v = true
  | Raise e => e = InvalidOperation /\ exists b, v = PBool b
  end.
Proof.
  destruct v as [ |b|z|q|s|l|d]; try reflexivity.
  - rewrite to_decimal_of_bool. eauto.
  - now rewrite to_decimal_of_int.
  - now rewrite to_decimal_of_str.
Qed.

Lemma Decimal_cons (c : ascii) (r : string) :
  Transform.Decimal (String c r)
  = if Ascii.eqb c "-"
    then option_map (fun q => Qred (- q)) (Transform.unsigned_decimal r)
    else Transform.unsigned_decimal (String c r).
Proof. destruct c as [[] [] [] [] [] [] [] []]; reflexivity. Qed.

Lemma count_all_digits (s : string) :
  Transform.all_digits s = true ->
  count_if (Ascii.eqb ".") s = O
  /\ count_if is_digit s = String.length s.
Proof.
  induction s as [|c r IH]; [auto|].
  cbn [Transform.all_digits count_if String.length].
  intros H. apply andb_prop in H as [Hc Hr]. destruct (IH Hr) as [H1 H2].
  rewrite Hc, H1, H2.
  destruct (Ascii.eqb_spec "."%char c) as [<-|_];
    [vm_compute in Hc; discriminate | split; reflexivity].
Qed.

Lemma count_split_point (s ip : string) (fp : option string) :
  Transform.split_point s = (ip, fp) ->
  count_if (Ascii.eqb ".") s
  = (count_if (Ascii.eqb ".") ip
     + match fp with
       | Some f => S (count_if (Ascii.eqb ".") f)
       | None => 0
       end)%nat
  /\ count_if is_digit s
     = (count_if is_digit ip
        + match fp with Some f => count_if is_digit f | None => 0 end)%nat.
Proof.
  revert ip fp. induction s as [|c r IH]; intros ip fp H.
  - injection H as <- <-. auto.
  - cbn [Transform.split_point] in H. cbn [count_if].
    rewrite (Ascii.eqb_sym "."%char c).
    destruct (Ascii.eqb_spec c ".") as [->|Hc].
    + injection H as <- <-. cbn [count_if].
      change (is_digit ".") with false. split; reflexivity.
    + destruct (Transform.split_point r) as [ip' fp'].
      injection H as <- <-. destruct (IH ip' fp' eq_refl) as [H1 H2].
      cbn [count_if]. rewrite H1, H2.
      apply Ascii.eqb_neq in Hc. rewrite (Ascii.eqb_sym "."%char c), Hc.
      split; lia.
Qed.

(** A text that [Decimal] accepts holds one point at most and one digit at
    least. *)
Lemma unsigned_decimal_shape (s : string) (q : Q) :
  Transform.unsigned_decimal s = Some q ->
  (count_if (Ascii.eqb ".") s <= 1)%nat /\ (1 <= count_if is_digit s)%nat.
Proof.
  unfold Transform.unsigned_decimal.
  destruct (Transform.split_point s) as [ip fp] eqn:Hs.
  destruct (count_split_point _ _ _ Hs) as [H1 H2].
  set (f := match fp with Some f => f | None => EmptyString end).
  destruct (Transform.all_digits ip) eqn:Hip; [|discriminate].
  destruct (Transform.all_digits f) eqn:Hf; [|discriminate].
  destruct (0 <? String.length (ip ++ f))%nat eqn:Hl; [|discriminate].
  intros _. apply Nat.ltb_lt in Hl. rewrite length_app in Hl.
  destruct (count_all_digits _ Hip) as [D1 D2].
  destruct (count_all_digits _ Hf) as [F1 F2].
  rewrite H1, H2, D1, D2. subst f.
  destruct fp as [f|]; simpl in *; rewrite ?F1, ?F2; lia.
Qed.

Lemma Decimal_shape (s : string) (q : Q) :
  Transform.Decimal s = Some q ->
  (count_if (Ascii.eqb ".") s <= 1)%nat /\ (1 <= count_if is_digit s)%nat.
Proof.
  destruct s as [|c r]; [discriminate|]. rewrite Decimal_cons.
  destruct (Ascii.eqb_spec c "-") as [->|_].
  - destruct (Transform.unsigned_decimal r) as [q'|] eqn:E; [|discriminate].
    intros _. destruct (unsigned_decimal_shape _ _ E). simpl. auto.
  - apply unsigned_decimal_shape.
Qed.

Lemma count_cleaned (s : string) :
  count_if (Ascii.eqb ".")
    (Transform.replace_comma (Transform.keep_numeric s))
  = count_if is_separator s
  /\ count_if is_digit (Transform.replace_comma (Transform.keep_numeric s))
     = count_if is_digit s.
Proof.
  induction s as [|c r [IH1 IH2]]; [split; reflexivity|].
  cbn [Transform.keep_numeric count_if].
  destruct (Transform.is_numeric_char c) eqn:Hn.
  - cbn [Transform.replace_comma count_if]. rewrite IH1, IH2.
    unfold is_separator.
    destruct (Ascii.eqb_spec c ",") as [->|Hc]; [split; reflexivity|].
    now rewrite (Ascii.eqb_sym "."%char c).
  - unfold Transform.is_numeric_char in Hn.
    apply orb_false_elim in Hn as [Hn _].
    apply orb_false_elim in Hn as [Hn Hcomma].
    apply orb_false_elim in Hn as [Hd Hpoint].
    unfold is_separator. rewrite Hd, Hcomma, Hpoint, IH1, IH2.
    split; reflexivity.
Qed.

(** X4.  A text with two separators or more (commas and points together),
    or with no digit at all, is coerced to zero. *)
Theorem to_decimal_malformed (s : string) :
  (2 <= count_if is_separator s)%nat \/ count_if is_digit s = O ->
  _to_decimal (PStr s) = Ok 0%Q.
Proof.
  intros H. rewrite to_decimal_of_str.
  destruct (Transform.Decimal _) as [q|] eqn:E; [|reflexivity].
  apply Decimal_shape in E. destruct (count_cleaned s) as [C1 C2].
  rewrite C1, C2 in E. lia.
Qed.

Lemma cleaned_of_uint (d : Decimal.uint) :
  Transform.replace_comma
    (Transform.keep_numeric (NilEmpty.string_of_uint d))
  = NilEmpty.string_of_uint d.
Proof. induction d; simpl; congruence. Qed.

Lemma cleaned_of_int (z : Z) :
  Transform.replace_comma (Transform.keep_numeric (Z_to_string z))
  = Z_to_string z.
Proof.
  unfold Z_to_string. destruct z as [|p|p]; [reflexivity | |];
    cbn [Z.to_int NilZero.string_of_int];
    rewrite string_of_uint_nonnil by apply Unsigned.to_uint_nonnil.
  - apply cleaned_of_uint.
  - change (Transform.replace_comma (Transform.keep_numeric
              (String "-" (NilEmpty.string_of_uint (Pos.to_uint p)))))
      with (String "-" (Transform.replace_comma (Transform.keep_numeric
              (NilEmpty.string_of_uint (Pos.to_uint p))))).
    now rewrite cleaned_of_uint.
Qed.

(** X5.  An integer sent as text is coerced to the number that the integer
    itself is coerced to; for an integer of magnitude at most 2^53, which
    a binary64 float holds exactly, that number is the integer. *)
Theorem to_decimal_int_text (z : Z) :
  _to_decimal (PStr (Z_to_string z)) = _to_decimal (PInt z)
  /\ (- 2 ^ 53 <= z <= 2 ^ 53 ->
      _to_decimal (PStr (Z_to_string z)) = Ok (inject_Z z)).
Proof.
  assert (H : _to_decimal (PStr (Z_to_string z)) = Ok (inject_Z z)).
  { rewrite to_decimal_of_str, cleaned_of_int. now rewrite decimal_of_int. }
  split; [now rewrite H, to_decimal_of_int | intros _; exact H].
Qed.

Lemma keep_numeric_app (a b : string) :
  Transform.keep_numeric (a ++ b)
  = Transform.keep_numeric a ++ Transform.keep_numeric b.
Proof.
  induction a as [|c a IH]; simpl; auto.
  destruct (Transform.is_numeric_char c); simpl; now rewrite IH.
Qed.

Lemma replace_comma_idem (s : string) :
  Transform.replace_comma (Transform.replace_comma s)
  = Transform.replace_comma s.
Proof.
  induction s as [|c r IH]; [reflexivity|].
  cbn [Transform.replace_comma]. rewrite IH. f_equal.
  destruct (Ascii.eqb_spec c ",") as [->|Hc]; [reflexivity|].
  apply Ascii.eqb_neq in Hc. now rewrite Hc.
Qed.

Lemma keep_numeric_replace_comma (s : string) :
  Transform.keep_numeric (Transform.replace_comma s)
  = Transform.replace_comma (Transform.keep_numeric s).
Proof.
  induction s as [|c r IH]; [reflexivity|].
  cbn [Transform.replace_comma Transform.keep_numeric].
  destruct (Ascii.eqb_spec c ",") as [->|Hc].
  - change (Transform.is_numeric_char ".") with true.
    change (Transform.is_numeric_char ",") with true.
    cbn [Transform.replace_comma]. now rewrite IH.
  - apply Ascii.eqb_neq in Hc.
    destruct (Transform.is_numeric_char c); [|exact IH].
    cbn [Transform.replace_comma]. now rewrite Hc, IH.
Qed.

(** X6.  The coercion of a text reads its digits, commas, points and minus
    signs only: a character of any other kind, wherever it stands, does not
    change the result; and a comma counts as a point. *)
Theorem to_decimal_reads_numeric (a b : string) (c : ascii) :
  (Transform.is_numeric_char c = false ->
   _to_decimal (PStr (a ++ String c b)) = _to_decimal (PStr (a ++ b)))
  /\ _to_decimal (PStr (Transform.replace_comma a)) = _to_decimal (PStr a).
Proof.
  split.
  - intros Hc. rewrite !to_decimal_of_str, !keep_numeric_app. simpl.
    now rewrite Hc.
  - rewrite !to_decimal_of_str, keep_numeric_replace_comma.
    now rewrite replace_comma_idem.
Qed.

(** ** Line items and the mapping *)

Lemma clean_loop_map (l : list pyval) (cleaned : list line_item) :
  Transform.clean_loop repr l cleaned
  = (cs <- map_result clean_item (dict_elements l) ;;
     Ok (cleaned ++ cs)%list)%result.
Proof.
  revert cleaned. induction l as [|x l IH]; intros cleaned;
    cbn [Transform.clean_loop dict_elements map_result rbind].
  - now rewrite app_nil_r.
  - destruct x as [ |b|z|q|s|l'|it]; auto.
    cbn [map_result].
    destruct (clean_item it) as [c|e]; cbn [rbind]; auto.
    rewrite IH. destruct (map_result _ _); cbn [rbind]; auto.
    now rewrite <- app_assoc.
Qed.

Lemma clean_line_items_list (l : list pyval) :
  _clean_line_items (PList l) = map_result clean_item (dict_elements l).
Proof.
  unfold Transform._clean_line_items.
  destruct l as [|x l]; [reflexivity|]. cbn [truthy Transform.is_list].
  cbn [negb orb]. rewrite clean_loop_map. now destruct (map_result _ _).
Qed.

Lemma clean_line_items_not_list (v : pyval) :
  Transform.is_list v = false -> _clean_line_items v = Ok [].
Proof.
  intros H. unfold Transform._clean_line_items. rewrite H.
  now rewrite orb_true_r.
Qed.

(** X7.  The line items of a list are the cleaned dicts of the list, in
    order: an element that is no dict is skipped, and the first dict whose
    cleaning raises makes the whole raise; a value that is no list gives the
    empty sequence. *)
Theorem clean_line_items_spec (v : pyval) :
  _clean_line_items v
  = match v with
    | PList l => map_result clean_item (dict_elements l)
    | _ => Ok []
    end.
Proof.
  destruct v as [ |b|z|q|s|l|d]; try apply clean_line_items_list;
    unfold Transform._clean_line_items; simpl; rewrite ?orb_true_r; auto.
Qed.

End TransformMore.

Lemma to_decimal_malformed_witness :
  Transform._to_decimal (fun _ => EmptyString) (PStr "1.234,56") = Ok 0%Q
  /\ Transform._to_decimal (fun _ => EmptyString) (PStr "n/a -") = Ok 0%Q.
Proof.
  split.
  - apply to_decimal_malformed. left. simpl. lia.
  - apply to_decimal_malformed. right. reflexivity.
Defined.

Lemma to_decimal_int_text_witness :
  Transform._to_decimal (fun _ => EmptyString) (PStr "-42")
  = Ok (inject_Z (-42)).
Proof.
  apply (proj2 (to_decimal_int_text (fun _ => EmptyString) (-42))). lia.
Defined.

Lemma to_decimal_reads_numeric_witness :
  Transform._to_decimal (fun _ => EmptyString) (PStr "USD 10,50")
  = Transform._to_decimal (fun _ => EmptyString) (PStr "USD10,50")
  /\ Transform._to_decimal (fun _ => EmptyString) (PStr "10.50")
     = Transform._to_decimal (fun _ => EmptyString) (PStr "10,50").
Proof.
  split.
  - apply (proj1 (to_decimal_reads_numeric (fun _ => EmptyString)
                    "USD" "10,50" " "%char)). reflexivity.
  - apply (proj2 (to_decimal_reads_numeric (fun _ => EmptyString)
                    "10,50" EmptyString " "%char)).
Defined.


Section TransformMapping.

Variable repr : pyval -> string.

Local Abbreviation _to_decimal := (Transform._to_decimal repr).
Local Abbreviation clean_item := (Transform.clean_item repr).
Local Abbreviation _clean_document := (Transform._clean_document repr).
Local Abbreviation transform := (Transform.transform repr).

Lemma to_decimal_not_coercible (v : pyval) :
  coercible v = false -> _to_decimal v = Raise InvalidOperation.
Proof.
  destruct v; try discriminate. intros _. apply to_decimal_of_bool.
Qed.

Lemma clean_item_raises (it : pydict pyval) :
  item_coercible it = false -> clean_item it = Raise InvalidOperation.
Proof.
  unfold item_coercible, Transform.clean_item. intros H.
  destruct (coercible (get it "quantity" (get it "qty" (PInt 0)))) eqn:Hq;
    [|now rewrite (to_decimal_not_coercible _ Hq)].
  destruct (to_decimal_returns repr _ Hq) as [q ->]. cbn [rbind].
  destruct (coercible (get it "unit_price" (get it "price"
              (get it "unit" (PInt 0))))) eqn:Hu;
    [|now rewrite (to_decimal_not_coercible _ Hu)].
  destruct (to_decimal_returns repr _ Hu) as [u ->]. cbn [rbind].
  cbn [andb] in H. now rewrite (to_decimal_not_coercible _ H).
Qed.

Lemma map_clean_item_raises (l : list pyval) :
  forallb element_coercible l = false ->
  map_result clean_item (dict_elements l) = Raise InvalidOperation.
Proof.
  induction l as [|x l IH]; [discriminate|].
  cbn [forallb]. intros H.
  destruct x as [ |b|z|q|s|l'|it]; cbn [element_coercible andb] in H;
    cbn [dict_elements]; auto.
  cbn [map_result]. destruct (item_coercible it) eqn:Hit.
  - destruct (clean_item_returns repr it Hit) as [c ->]. cbn [rbind].
    now rewrite (IH H).
  - now rewrite (clean_item_raises it Hit).
Qed.

Lemma clean_document_raises (doc : pydict pyval) :
  document_coercible doc = false ->
  _clean_document doc = Raise InvalidOperation.
Proof.
  unfold document_coercible, Transform._clean_document.
  destruct (get doc "line_items" (get doc "items" (PList [])));
    try discriminate.
  intros H. rewrite clean_line_items_list.
  now rewrite (map_clean_item_raises _ H).
Qed.

Lemma map_result_each {A B} (f : A -> result B) (l : list A)
    (r : list B) :
  map_result f l = Ok r -> Forall2 (fun a b => f a = Ok b) l r.
Proof.
  revert r. induction l as [|a l IH]; intros r; cbn [map_result].
  - intros [= <-]. constructor.
  - destruct (f a) as [b|e] eqn:E; [|discriminate]. cbn [rbind].
    destruct (map_result f l) as [bs|e]; [|discriminate]. cbn [rbind].
    intros [= <-]. constructor; auto.
Qed.

Lemma clean_item_resolved (it : pydict pyval) (li : line_item) :
  clean_item it = Ok li -> resolved repr it li.
Proof.
  rewrite (proj2 (alias_equations repr) it). unfold resolved.
  destruct (numeric_field repr ["quantity"; "qty"] it) as [q|e];
    [|discriminate].
  destruct (numeric_field repr ["unit_price"; "price"; "unit"] it)
    as [u|e]; [|discriminate].
  destruct (numeric_field repr ["total"; "amount"] it) as [t|e];
    [|discriminate].
  cbn [rbind]. intros [= <-]. cbn [item quantity unit_price total]. auto.
Qed.

(** C4.  On every input document [_clean_document] either returns or
    raises [InvalidOperation], and it raises exactly where a numeric field
    of a line item resolves to a [bool].  Where it returns, every field of
    the document is the cleaned value of the first key of its alias list
    that is present in the input (document_id, id, number; name,
    contractor, supplier, client; description, desc), 'N/A' where none is
    present; and the line items are, one for each dict of the list under
    the first of line_items, items that is present and in the same order,
    with each field the cleaned or coerced value of the first key of its
    alias list that is present in that dict (item, description, name;
    quantity, qty; unit_price, price, unit; total, amount), 'N/A' or 0
    where none is present.  On a document with the JSON value [true] as a
    quantity it raises, and no field is resolved. *)
Theorem alias_resolution :
  (forall doc : pydict pyval,
     match _clean_document doc with
     | Ok d =>
         document_coercible doc = true
         /\ document_id d
            = text_field repr ["document_id"; "id"; "number"] doc
         /\ name d
            = text_field repr ["name"; "contractor"; "supplier"; "client"]
                doc
         /\ description d = text_field repr ["description"; "desc"] doc
         /\ Forall2 (resolved repr) (item_dicts doc) (line_items d)
     | Raise e => e = InvalidOperation /\ document_coercible doc = false
     end)
  /\ _clean_document
       [("document_id", PStr "INV-1");
        ("line_items", PList [PDict [("quantity", PBool true)]])]
     = Raise InvalidOperation.
Proof.
  split; [|reflexivity].
  intros doc. destruct (document_coercible doc) eqn:Hc.
  2:{ now rewrite (clean_document_raises doc Hc). }
  destruct (clean_document_returns repr doc Hc) as [d Hd]. rewrite Hd.
  rewrite (proj1 (alias_equations repr) doc) in Hd.
  destruct (items_field repr doc) as [its|e] eqn:Hits; [|discriminate].
  cbn [rbind] in Hd. injection Hd as <-.
  cbn [document_id name description line_items].
  split; [reflexivity|]. split; [reflexivity|]. split; [reflexivity|].
  split; [reflexivity|].
  unfold items_field in Hits. unfold item_dicts.
  destruct (first_present ["line_items"; "items"] doc) as [v|].
  2:{ injection Hits as <-. constructor. }
  destruct v as [ |b|z|q|s|l|dd];
    try (rewrite clean_line_items_not_list in Hits by reflexivity;
         injection Hits as <-; constructor).
  rewrite clean_line_items_list in Hits.
  apply map_result_each in Hits.
  eapply Forall2_impl; [|exact Hits].
  intros it li. apply clean_item_resolved.
Qed.

Lemma transform_loop_raises (e : pydict (pydict pyval))
    (acc : pydict document) :
  forallb document_coercible (map snd e) = false ->
  Transform.transform_loop repr e acc = Raise InvalidOperation.
Proof.
  revert acc. induction e as [|[f data] e IH]; intros acc; [discriminate|].
  cbn [map snd forallb Transform.transform_loop]. intros H.
  destruct (document_coercible data) eqn:Hd.
  - destruct (clean_document_returns repr data Hd) as [d ->]. cbn [rbind].
    now apply IH.
  - now rewrite (clean_document_raises data Hd).
Qed.

(** X8.  [transform] returns exactly on the batches in which no numeric
    field of any line item resolves to a [bool]; on the others it raises
    [InvalidOperation]. *)
Theorem transform_returns_iff (e : pydict (pydict pyval)) :
  match transform e with
  | Ok _ => forallb document_coercible (map snd e) = true
  | Raise ex =>
      ex = InvalidOperation
      /\ forallb document_coercible (map snd e) = false
  end.
Proof.
  destruct (forallb document_coercible (map snd e)) eqn:H.
  - destruct (transform_returns repr e H) as [t ->]. reflexivity.
  - unfold Transform.transform. rewrite (transform_loop_raises e [] H). auto.
Qed.

Lemma setitem_new {V} (d : pydict V) (k : string) (v : V) :
  ~ In k (keys d) -> setitem d k v = (d ++ [(k, v)])%list.
Proof.
  induction d as [|[k0 v0] d IH]; simpl; intros Hn; auto.
  destruct (String.eqb_spec k k0) as [->|Hk].
  - exfalso. auto.
  - f_equal. apply IH. intros Hin. auto.
Qed.

Lemma transform_loop_entries (e : pydict (pydict pyval))
    (acc : pydict document) :
  NoDup (keys acc ++ keys e) ->
  Transform.transform_loop repr e acc
  = (entries <- map_result (clean_entry repr) e ;;
     Ok (acc ++ entries)%list)%result.
Proof.
  revert acc. induction e as [|[f data] e IH]; intros acc Hnd;
    cbn [Transform.transform_loop map_result rbind].
  - now rewrite app_nil_r.
  - unfold clean_entry at 1. cbn [fst snd].
    destruct (_clean_document data) as [doc|ex]; cbn [rbind]; auto.
    assert (Hf : ~ In f (keys acc)).
    { simpl in Hnd. apply NoDup_remove_2 in Hnd. intros Hin. apply Hnd.
      apply in_or_app. now left. }
    rewrite (setitem_new acc f doc Hf). rewrite IH.
    + destruct (map_result _ e); cbn [rbind]; auto.
      now rewrite <- app_assoc.
    + unfold keys in *. rewrite map_app. simpl. rewrite <- app_assoc.
      exact Hnd.
Qed.

(** X9.  On a mapping, whose file names are distinct, [transform] is the
    cleaning of each entry in turn: its result holds the same file names in
    the same order, each with the cleaned document of its entry, and it
    raises what the first failing entry raises. *)
Theorem transform_entries (e : pydict (pydict pyval)) :
  NoDup (keys e) -> transform e = map_result (clean_entry repr) e.
Proof.
  intros Hnd. unfold Transform.transform.
  rewrite (transform_loop_entries e [] Hnd).
  now destruct (map_result _ e).
Qed.

End TransformMapping.

Lemma transform_entries_witness :
  Transform.transform (fun _ => EmptyString)
    [("000.jpg", invoice_000); ("001.jpg", [("id", PInt 7)])]
  = map_result (clean_entry (fun _ => EmptyString))
      [("000.jpg", invoice_000); ("001.jpg", [("id", PInt 7)])].
Proof.
  apply transform_entries.
  repeat constructor; simpl; intuition discriminate.
Defined.

(** * Further properties of Extract *)

Lemma find_app_none (a b : string) :
  Extract.find "{" a = None -> Extract.find "{" b = None ->
  Extract.find "{" (a ++ b) = None.
Proof.
  induction a as [|c a IH]; simpl; auto.
  destruct (Ascii.eqb c "{"); [discriminate|].
  destruct (Extract.find "{" a); [discriminate|].
  intros _ Hb. now rewrite (IH eq_refl Hb).
Qed.

(** Where a text opens with prose that holds no brace, the first brace of
    the whole stands after that prose. *)
Lemma first_brace_after (p t pre r : string) :
  Extract.find "{" p = None ->
  p ++ t = pre ++ String "{" r ->
  Extract.find "{" pre = None ->
  exists pre', pre = p ++ pre' /\ t = pre' ++ String "{" r.
Proof.
  revert pre. induction p as [|c p IH]; intros pre Hp E Hpre.
  - now exists pre.
  - simpl in Hp. destruct (Ascii.eqb_spec c "{") as [->|Hc]; [discriminate|].
    destruct (Extract.find "{" p) eqn:Hp'; [discriminate|].
    destruct pre as [|c' pre]; simpl in E.
    + injection E as E _. congruence.
    + injection E as <- E. simpl in Hpre.
      destruct (Ascii.eqb c "{"); [discriminate|].
      destruct (Extract.find "{" pre) eqn:Hpre'; [discriminate|].
      destruct (IH pre eq_refl E Hpre') as (tail & -> & ->).
      now exists tail.
Qed.

(** X10.  What the scan cuts out of a text is a balanced span of the text,
    after a part that holds no opening brace; and the scan run on the span
    itself returns the span. *)
Theorem first_object_is_balanced (text span : string) :
  Extract.first_object text = Some span ->
  balanced_span span
  /\ Extract.first_object span = Some span
  /\ exists pre post,
       text = pre ++ span ++ post /\ Extract.find "{" pre = None.
Proof.
  intros H. destruct (first_object_sound _ _ H) as (pre & post & E & Hp & Hb).
  split; [exact Hb|]. split; [|now exists pre, post].
  pose proof (first_object_found EmptyString span EmptyString eq_refl Hb)
    as Hf.
  simpl in Hf. now rewrite append_empty in Hf.
Qed.

Lemma first_object_is_balanced_witness :
  balanced_span "{a}"
  /\ Extract.first_object "{a}" = Some "{a}"
  /\ exists pre post,
       "so {a} or {b}" = pre ++ "{a}" ++ post
       /\ Extract.find "{" pre = None.
Proof.
  apply (first_object_is_balanced "so {a} or {b}" "{a}"). reflexivity.
Defined.

(** X11.  Text after the span that the scan cuts out, and prose without a
    brace before the text, do not change what the scan returns. *)
Theorem first_object_context (p text more : string) :
  Extract.find "{" p = None ->
  (forall span,
     Extract.first_object text = Some span ->
     Extract.first_object (text ++ more) = Some span)
  /\ Extract.first_object (p ++ text) = Extract.first_object text.
Proof.
  intros Hp. split.
  - intros span H.
    destruct (first_object_sound _ _ H) as (pre & post & -> & Hpre & Hb).
    rewrite !app_assoc_text. now apply first_object_found.
  - destruct (Extract.first_object text) as [span|] eqn:H.
    + destruct (first_object_sound _ _ H) as (pre & post & -> & Hpre & Hb).
      rewrite <- app_assoc_text. apply first_object_found; auto.
      now apply find_app_none.
    + destruct (Extract.first_object (p ++ text)) as [s|] eqn:H';
        [|reflexivity].
      destruct (first_object_sound _ _ H') as (pre & post & E & Hpre & Hb).
      pose proof Hb as ([r ->] & _).
      change (String "{" r ++ post) with (String "{" (r ++ post)) in E.
      destruct (first_brace_after _ _ _ _ Hp E Hpre) as (pre' & -> & ->).
      assert (Hpre' : Extract.find "{" pre' = None).
      { clear - Hpre. induction p as [|c p IH]; simpl in Hpre; auto.
        destruct (Ascii.eqb c "{"); [discriminate|].
        destruct (Extract.find "{" (p ++ pre')); [discriminate | auto]. }
      change (String "{" (r ++ post)) with (String "{" r ++ post) in H.
      rewrite (first_object_found pre' (String "{" r) post Hpre' Hb) in H.
      discriminate.
Qed.

Lemma first_object_context_witness :
  Extract.first_object ("so {a}" ++ " or {b}") = Some "{a}"
  /\ Extract.first_object ("Here: " ++ "so {a}")
     = Extract.first_object "so {a}".
Proof.
  destruct (first_object_context "Here: " "so {a}" " or {b}" eq_refl)
    as [H1 H2].
  split; [apply H1; reflexivity | exact H2].
Defined.

Lemma app_inj_tail_text (a b s : string) : a ++ s = b ++ s -> a = b.
Proof.
  revert b. induction a as [|c a IH]; intros b E.
  - destruct b as [|c' b]; auto.
    apply (f_equal String.length) in E. simpl in E.
    rewrite length_app in E. lia.
  - destruct b as [|c' b].
    + apply (f_equal String.length) in E. simpl in E.
      rewrite length_app in E. lia.
    + simpl in E. injection E as <- E. f_equal. auto.
Qed.

Lemma NoDup_keys_setitem {V} (d : pydict V) (k : string) (v : V) :
  NoDup (keys d) -> NoDup (keys (setitem d k v)).
Proof.
  induction d as [|[k0 v0] d IH]; simpl; intros Hnd.
  - repeat constructor. intros [].
  - inversion Hnd as [|? ? Hn Hd]; subst.
    destruct (String.eqb_spec k k0) as [->|Hk]; simpl; auto.
    constructor; auto.
    intros Hin. apply (in_keys_setitem d k0 k v) in Hin as [E|Hin]; auto.
Qed.

Lemma lookup_in_keys {V} (d : pydict V) (k : string) :
  In k (keys d) <-> lookup k d <> None.
Proof.
  pose proof (lookup_none_keys d k) as H. destruct (lookup k d).
  - split; [discriminate|]. intros _.
    destruct (in_dec string_dec k (keys d)) as [Hin|Hn]; auto.
    apply H in Hn. discriminate.
  - split; [|congruence]. intros Hin. exfalso. now apply H.
Qed.

Section ExtractMore.

Variable invoke_model : string -> result string.
Variable json_loads : string -> option (pydict pyval).

Local Abbreviation extract_loop :=
  (Extract.extract_loop invoke_model json_loads).

(** What the loop adds to the dict it is entered with. *)
Lemma extract_loop_spec (images : list string)
    (acc r : pydict (pydict pyval)) :
  extract_loop images acc = Ok r ->
  NoDup (keys acc) ->
  NoDup (keys r)
  /\ (forall i, In i images ->
        exists text,
          invoke_model i = Ok text
          /\ match Extract.first_object text with
             | Some span =>
                 json_loads span <> None
                 /\ lookup (i ++ ".jpg") r = json_loads span
             | None => True
             end)
  /\ (forall k,
        lookup k r = lookup k acc
        \/ exists i text span,
             In i images /\ k = i ++ ".jpg"
             /\ invoke_model i = Ok text
             /\ Extract.first_object text = Some span).
Proof.
  revert acc. induction images as [|i rest IH]; intros acc H Hnd.
  - simpl in H. injection H as <-.
    split; [exact Hnd|]. split; [intros i []|]. intros k. now left.
  - cbn [Extract.extract_loop] in H.
    destruct (invoke_model i) as [text|e] eqn:Hi; [|discriminate].
    cbn [rbind] in H.
    destruct (Extract.first_object text) as [span|] eqn:Hs.
    + destruct (json_loads span) as [obj|] eqn:Hj; [|discriminate].
      destruct (IH _ H (NoDup_keys_setitem acc (i ++ ".jpg") obj Hnd))
        as (Hr & Himg & Hkey).
      split; [exact Hr|]. split.
      * intros i' [<-|Hin]; [|now apply Himg].
        exists text. split; [exact Hi|]. rewrite Hs, Hj.
        split; [discriminate|].
        destruct (Hkey (i ++ ".jpg"))
          as [E|(i2 & text2 & span2 & Hin2 & E2 & Hi2 & Hs2)].
        -- rewrite E, lookup_setitem. now rewrite String.eqb_refl.
        -- apply app_inj_tail_text in E2. subst i2.
           destruct (Himg i Hin2) as (text3 & Hi3 & H3).
           assert (text3 = text) by congruence. subst text3.
           rewrite Hs, Hj in H3. now destruct H3.
      * intros k. destruct (Hkey k) as [E|(i2 & t2 & s2 & Hin2 & H2)].
        -- rewrite lookup_setitem in E.
           destruct (String.eqb_spec k (i ++ ".jpg")) as [Ek|Hk].
           ++ right. exists i, text, span. simpl. auto.
           ++ now left.
        -- right. exists i2, t2, s2. simpl. tauto.
    + destruct (IH _ H Hnd) as (Hr & Himg & Hkey).
      split; [exact Hr|]. split.
      * intros i' [<-|Hin]; [|now apply Himg].
        exists text. now rewrite Hs.
      * intros k. destruct (Hkey k) as [E|(i2 & t2 & s2 & Hin2 & H2)].
        -- now left.
        -- right. exists i2, t2, s2. simpl. tauto.
Qed.

(** X12.  Where the extraction of a batch returns: its result is a proper
    dict (no file name twice, also when an image is listed twice); the call
    for every image of the batch has returned, and where the response holds
    a span, the span has parsed and its object stands under the name of
    the image followed by '.jpg'; and every name of the result is that of
    an image of the batch whose response holds a span. *)
Theorem extract_result (images : list string) (r : pydict (pydict pyval)) :
  Extract.extract_text_from_images invoke_model json_loads images = Ok r ->
  NoDup (keys r)
  /\ (forall i, In i images ->
        exists text,
          invoke_model i = Ok text
          /\ match Extract.first_object text with
             | Some span =>
                 json_loads span <> None
                 /\ lookup (i ++ ".jpg") r = json_loads span
             | None => True
             end)
  /\ (forall k, In k (keys r) ->
        exists i text span,
          In i images /\ k = i ++ ".jpg"
          /\ invoke_model i = Ok text
          /\ Extract.first_object text = Some span).
Proof.
  intros H. unfold Extract.extract_text_from_images in H.
  destruct (extract_loop_spec images [] r H (NoDup_nil _))
    as (Hr & Himg & Hkey).
  split; [exact Hr|]. split; [exact Himg|].
  intros k Hin. apply lookup_in_keys in Hin.
  destruct (Hkey k) as [E|Hk]; [|exact Hk].
  simpl in E. congruence.
Qed.

Lemma extract_loop_returns_iff (images : list string)
    (acc : pydict (pydict pyval)) :
  match extract_loop images acc with
  | Ok _ => forallb (image_ok invoke_model json_loads) images = true
  | Raise _ => forallb (image_ok invoke_model json_loads) images = false
  end.
Proof.
  revert acc. induction images as [|i rest IH]; intros acc; [reflexivity|].
  cbn [Extract.extract_loop forallb]. unfold image_ok at 1 3.
  destruct (invoke_model i) as [text|e]; cbn [rbind]; [|reflexivity].
  destruct (Extract.first_object text) as [span|].
  - destruct (json_loads span) as [obj|]; [|reflexivity].
    cbn [andb]. apply IH.
  - cbn [andb]. apply IH.
Qed.

(** X13.  The extraction of a batch returns exactly when, for every image
    of the batch, the call returns and the span cut out of the response, if
    there is one, parses; one image for which this fails makes the whole
    extraction raise. *)
Theorem extract_returns_iff (images : list string) :
  match Extract.extract_text_from_images invoke_model json_loads images with
  | Ok _ => forallb (image_ok invoke_model json_loads) images = true
  | Raise _ => forallb (image_ok invoke_model json_loads) images = false
  end.
Proof. apply extract_loop_returns_iff. Qed.

End ExtractMore.

Lemma extract_result_witness :
  let invoke_model i :=
    if String.eqb i "000" then Ok "see {a}" else Ok "nothing" in
  let json_loads s := Some [("span", PStr s)] in
  NoDup (keys [("000.jpg", [("span", PStr "{a}")])])
  /\ lookup "000.jpg" [("000.jpg", [("span", PStr "{a}")])]
     = Some [("span", PStr "{a}")].
Proof.
  intros invoke_model json_loads.
  destruct (extract_result invoke_model json_loads ["000"; "001"; "000"]
              [("000.jpg", [("span", PStr "{a}")])] eq_refl)
    as (Hnd & Himg & _).
  split; [exact Hnd|].
  destruct (Himg "000" (or_introl eq_refl)) as (text & Ht & Hs).
  injection Ht as <-. exact (proj2 Hs).
Defined.

(** * Further properties of Load *)

Lemma lookup_permutation {V} (f : string) (b1 b2 : pydict V) :
  NoDup (keys b1) -> Permutation b1 b2 -> lookup f b1 = lookup f b2.
Proof.
  intros Hnd Hp.
  assert (Hk : Permutation (keys b1) (keys b2)) by now apply Permutation_map.
  assert (Hnd2 : NoDup (keys b2)) by now apply (Permutation_NoDup Hk).
  destruct (lookup f b1) as [v|] eqn:E.
  - symmetry. apply (lookup_some_in f v b2 Hnd2).
    apply (Permutation_in _ Hp). now apply (lookup_some_in f v b1 Hnd).
  - symmetry. apply lookup_none_keys. apply lookup_none_keys in E.
    intros Hin. apply E. apply (Permutation_in _ (Permutation_sym Hk) Hin).
Qed.

(** A name under which a document is stored is the file name of a row. *)
Lemma stored_has_name (t : Load.tables) (g : string) :
  stored t g <> [] -> Load.has_filename g t = true.
Proof.
  unfold stored, Load.has_filename.
  induction (Load.documents t) as [|r l IH]; simpl; [congruence|].
  destruct (String.eqb (Load.d_filename r) g); simpl; auto.
Qed.

Section LoadMore.

Variable server_ok : nat -> Load.request -> bool.


(** X15.  A second run on the same batch changes no stored document: the
    documents under every file name are after it what they were after the
    first run. *)
Theorem load_run_again (data : pydict document) (st st1 st2 : Load.store) :
  consistent st ->
  NoDup (keys data) ->
  load_run server_ok data st = (Ok tt, st1) ->
  load_run server_ok data st1 = (Ok tt, st2) ->
  forall f, stored (Load.committed st2) f = stored (Load.committed st1) f.
Proof.
  intros Hst Hnd H1 H2 f.
  destruct (ensures_ok _ _ _ _ _ _ _ (load_run_spec server_ok data st Hst)
              H1) as (Hst1 & _ & _ & E1).
  destruct (ensures_ok _ _ _ _ _ _ _
              (load_run_spec server_ok data st1 Hst1) H2)
    as (_ & _ & _ & E2).
  rewrite E2, E1. now destruct (lookup f (rev (column_batch data))).
Qed.

(** X16.  The order of the entries of a batch does not matter to the
    stored documents: two runs from the same store on batches that hold the
    same entries in another order leave the same documents under every file
    name. *)
Theorem load_run_order (b1 b2 : pydict document) (st s1 s2 : Load.store) :
  consistent st ->
  NoDup (keys b1) ->
  Permutation b1 b2 ->
  load_run server_ok b1 st = (Ok tt, s1) ->
  load_run server_ok b2 st = (Ok tt, s2) ->
  forall f, stored (Load.committed s1) f = stored (Load.committed s2) f.
Proof.
  intros Hst Hnd Hp H1 H2 f.
  destruct (ensures_ok _ _ _ _ _ _ _ (load_run_spec server_ok b1 st Hst)
              H1) as (_ & _ & C1 & E1).
  destruct (ensures_ok _ _ _ _ _ _ _ (load_run_spec server_ok b2 st Hst)
              H2) as (_ & _ & C2 & E2).
  now rewrite E1, E2, (last_stored_permutation b1 b2 _ _ f Hnd Hp C1 C2).
Qed.

(** X17.  A batch loaded in one run and the same batch loaded in two runs,
    its first part and then the rest, leave the same documents under every
    file name. *)
Theorem load_run_split (b1 b2 : pydict document)
    (st s s1 s2 : Load.store) :
  consistent st ->
  NoDup (keys (b1 ++ b2)%list) ->
  load_run server_ok (b1 ++ b2)%list st = (Ok tt, s) ->
  load_run server_ok b1 st = (Ok tt, s1) ->
  load_run server_ok b2 s1 = (Ok tt, s2) ->
  forall f, stored (Load.committed s) f = stored (Load.committed s2) f.
Proof.
  intros Hst Hnd H H1 H2 f.
  destruct (ensures_ok _ _ _ _ _ _ _
              (load_run_spec server_ok (b1 ++ b2)%list st Hst) H)
    as (_ & _ & _ & E).
  destruct (ensures_ok _ _ _ _ _ _ _ (load_run_spec server_ok b1 st Hst)
              H1) as (Hs1 & _ & _ & E1).
  destruct (ensures_ok _ _ _ _ _ _ _ (load_run_spec server_ok b2 s1 Hs1)
              H2) as (_ & _ & _ & E2).
  rewrite E, E2, E1. unfold column_batch.
  rewrite map_app, rev_app_distr, lookup_app.
  now destruct (lookup f (rev (map _ b2))).
Qed.

(** X28.  A batch that holds a file name that the server cuts (a name of
    more than 255 characters, all spaces after the 255th) loads once at
    most: after a run that returns, no run on the same batch returns, the
    name as it was cut being in the relation. *)
Theorem cut_name_loads_once (data : pydict document) (f : string)
    (d : document) (st st1 : Load.store) :
  consistent st ->
  In (f, d) data ->
  fits_name f = false ->
  load_run server_ok data st = (Ok tt, st1) ->
  forall st2, load_run server_ok data st1 <> (Ok tt, st2).
Proof.
  intros Hst Hin Hlong H1 st2 H2.
  destruct (ensures_ok _ _ _ _ _ _ _ (load_run_spec server_ok data st Hst)
              H1) as (Hst1 & _ & _ & E1).
  destruct (ensures_ok _ _ _ _ _ _ _
              (load_run_spec server_ok data st1 Hst1) H2)
    as (_ & _ & C2 & _).
  apply in_split in Hin as (p & q & ->).
  destruct (C2 p (f, d) q eq_refl Hlong) as [Habs _]. cbn [fst] in Habs.
  rewrite stored_has_name in Habs; [discriminate|].
  rewrite E1.
  destruct (lookup (stored_text f)
              (rev (column_batch (p ++ (f, d) :: q)%list)))
    as [doc|] eqn:E; [discriminate|].
  exfalso.
  apply (proj1 (none_stored_under _ _) E (f, d));
    [apply in_or_app; right; now left | reflexivity].
Qed.

(** ** No constraint of the schema is ever violated *)

Lemma outcome_ret {A} (a : A) (st : Load.store)
    (Q : A -> Load.store -> Prop) :
  Q a st -> outcome (ret a) st Q.
Proof. intros H. exact H. Qed.

Lemma outcome_bind {A B} (m : Load.db A) (k : A -> Load.db B)
    (st : Load.store) (Q : B -> Load.store -> Prop) :
  outcome m st (fun a st' => outcome (k a) st' Q) ->
  outcome (bind m k) st Q.
Proof. unfold outcome, bind. destruct (m st) as [[a|e] st']; auto. Qed.

Lemma outcome_weaken {A} (m : Load.db A) (st : Load.store)
    (Q Q' : A -> Load.store -> Prop) :
  outcome m st Q -> (forall a st', Q a st' -> Q' a st') -> outcome m st Q'.
Proof. unfold outcome. destruct (m st) as [[a|e] st']; auto. Qed.

Lemma outcome_perform (rq : Load.request) (st : Load.store)
    (Q : list Z -> Load.store -> Prop) :
  match Load.perform rq (Load.tick st) with
  | (Ok rows, st') => Q rows st'
  | (Raise e, _) => e = DatabaseError
  end ->
  outcome (Load.execute server_ok rq) st Q.
Proof.
  intros H. unfold outcome, Load.execute.
  destruct (server_ok (Load.clock st) rq); [exact H | reflexivity].
Qed.

Lemma outcome_safe {A} (m : Load.db A) (st : Load.store)
    (Q : A -> Load.store -> Prop) :
  safe m -> consistent st -> outcome m st Q ->
  outcome m st (fun a st' => Q a st' /\ consistent st').
Proof.
  intros Hs Hst. destruct (Hs st Hst) as [Hc _]. unfold outcome.
  destruct (m st) as [[a|e] st']; simpl in *; auto.
Qed.

Lemma insert_items_outcome (doc_id : Z) (its : list line_item)
    (st : Load.store) :
  In doc_id (map Load.d_id (Load.documents (Load.working st))) ->
  Forall (fun r => Load.li_id r < Load.line_items_id_seq st)
    (Load.items (Load.working st)) ->
  outcome (Load.insert_items server_ok doc_id its) st (fun _ _ => True).
Proof.
  revert st. induction its as [|it rest IH]; intros st Hdoc Hseq.
  - exact I.
  - cbn [Load.insert_items]. apply outcome_bind.
    apply outcome_perform. unfold Load.perform.
    destruct (Load.item_columns _ _ _ _) as [li|]; [|reflexivity].
    cbn [Load.working Load.tick Load.line_items_id_seq
         Load.documents_id_seq Load.committed Load.clock].
    replace (Load.has_item _ _) with false
      by (symmetry; apply has_item_false; now apply below_not_in).
    replace (Load.has_document _ _) with true
      by (symmetry; now apply has_document_true).
    cbn [orb negb].
    apply IH; simpl; [exact Hdoc|].
    apply Forall_app. split.
    + eapply Forall_impl; [|exact Hseq]. simpl. intros; lia.
    + constructor; [simpl; lia | constructor].
Qed.

Lemma load_document_outcome (f : string) (doc : document)
    (st : Load.store) :
  wf_tables (Load.working st) (Load.documents_id_seq st)
    (Load.line_items_id_seq st) ->
  kept_name f = true ->
  outcome (Load.load_document server_ok f doc) st (fun _ _ => True).
Proof.
  intros Hwf Hkept. unfold Load.load_document.
  apply outcome_bind. apply outcome_perform.
  unfold Load.perform at 1. cbn [Load.working Load.tick].
  destruct (map Load.d_id _) as [|id ids] eqn:Hsel;
    cbn [Load.fetchone hd_error].
  - apply select_none in Hsel.
    apply outcome_bind. apply outcome_bind.
    apply outcome_perform. unfold Load.perform at 1.
    destruct (Load.varchar 255 f) as [f'|] eqn:Ef; [|reflexivity].
    assert (f' = f).
    { unfold kept_name in Hkept. rewrite Ef in Hkept.
      now apply String.eqb_eq. }
    subst f'.
    destruct (Load.document_columns _ _) as [[di' n']|]; [|reflexivity].
    cbn [Load.working Load.tick Load.line_items_id_seq
         Load.documents_id_seq Load.committed Load.clock].
    replace (Load.has_document _ _) with false
      by (symmetry; apply has_document_false; apply below_not_in;
          apply (wf_document_seq _ _ _ Hwf)).
    replace (Load.has_filename _ _) with false
      by (symmetry; now apply has_filename_false).
    cbn [orb Load.fetchone hd_error]. apply outcome_ret.
    apply insert_items_outcome; simpl.
    + rewrite map_app. apply in_or_app. right. now left.
    + apply (wf_item_seq _ _ _ Hwf).
  - apply select_some in Hsel as [Hid _].
    apply outcome_bind. apply outcome_bind.
    apply outcome_perform. unfold Load.perform at 1.
    destruct (Load.document_columns _ _) as [[di' n']|]; [|reflexivity].
    apply outcome_bind.
    apply outcome_perform. unfold Load.perform at 1.
    apply outcome_ret.
    apply insert_items_outcome; simpl.
    + now rewrite map_id_rewrite.
    + apply Forall_filter_weak. apply (wf_item_seq _ _ _ Hwf).
Qed.

Lemma load_loop_outcome (data : pydict document) (st : Load.store) :
  consistent st ->
  forallb kept_name (keys data) = true ->
  outcome (Load.load_loop server_ok data) st (fun _ _ => True).
Proof.
  revert st. induction data as [|[f doc] rest IH]; intros st Hst Hkept.
  - exact I.
  - cbn [keys map fst forallb] in Hkept.
    apply andb_prop in Hkept as [Hf Hrest].
    cbn [Load.load_loop]. apply outcome_bind.
    eapply outcome_weaken.
    + apply outcome_safe;
        [apply safe_load_document | exact Hst |
         apply load_document_outcome;
           [apply (working_wf _ Hst) | exact Hf]].
    + simpl. intros _ st1 [_ Hst1]. now apply IH.
Qed.

Lemma commit_outcome (st : Load.store) :
  outcome (Load.commit server_ok) st (fun _ _ => True).
Proof.
  unfold Load.commit. apply outcome_bind.
  apply outcome_perform. exact I.
Qed.

Lemma load_run_outcome (data : pydict document) (st : Load.store) :
  consistent st ->
  forallb kept_name (keys data) = true ->
  outcome (load_run server_ok data) st (fun _ _ => True).
Proof.
  intros Hst Hkept. unfold load_run. apply outcome_bind.
  eapply outcome_weaken.
  - apply outcome_safe; [apply safe_init | exact Hst |].
    unfold Load.init, Load._create_tables.
    do 3 (apply outcome_bind; apply outcome_perform;
          cbv beta iota zeta delta [Load.perform]).
    apply commit_outcome.
  - simpl. intros _ st1 [_ Hst1]. apply outcome_bind.
    unfold Load.load. apply outcome_bind.
    eapply outcome_weaken; [apply (load_loop_outcome data st1 Hst1 Hkept)|].
    simpl. intros _ st2 _.
    eapply outcome_weaken; [apply commit_outcome|].
    simpl. intros _ st3 _. exact I.
Qed.

(** X18.  From a consistent store, on a batch that holds no file name
    that the server cuts, the only exception that a run can raise is the
    [DatabaseError] of a request that the server refuses or of a value
    that it does not take: looking the file name up before inserting, and
    taking keys from the sequences, the code never violates the unique,
    primary-key or foreign-key constraint of the schema. *)
Theorem load_run_raises_only_refusals (data : pydict document)
    (st : Load.store) :
  consistent st ->
  forallb kept_name (keys data) = true ->
  match load_run server_ok data st with
  | (Raise e, _) => e = DatabaseError
  | (Ok _, _) => True
  end.
Proof.
  intros Hst Hkept. pose proof (load_run_outcome data st Hst Hkept) as H.
  unfold outcome in H. now destruct (load_run server_ok data st) as [[u|e] s].
Qed.

End LoadMore.


Lemma load_run_again_witness :
  let ok := fun (_ : nat) (_ : Load.request) => true in
  let doc := mk_document "INV-1" "Acme" "N/A"
               [mk_line_item "Widget" 2 (21 # 2) 0] in
  let st1 := snd (load_run ok [("000.jpg", doc)] Load.fresh) in
  let st2 := snd (load_run ok [("000.jpg", doc)] st1) in
  stored (Load.committed st2) "000.jpg"
  = stored (Load.committed st1) "000.jpg".
Proof.
  intros ok doc st1 st2.
  assert (Hnd : NoDup (keys [("000.jpg", doc)]))
    by (constructor; [intros [] | constructor]).
  assert (H1 : load_run ok [("000.jpg", doc)] Load.fresh = (Ok tt, st1))
    by (vm_compute; reflexivity).
  assert (H2 : load_run ok [("000.jpg", doc)] st1 = (Ok tt, st2))
    by (vm_compute; reflexivity).
  exact (load_run_again ok [("000.jpg", doc)] Load.fresh st1 st2
           fresh_consistent Hnd H1 H2 "000.jpg").
Defined.

Lemma load_run_order_witness :
  let ok := fun (_ : nat) (_ : Load.request) => true in
  let d0 := mk_document "INV-1" "Acme" "N/A" [] in
  let d1 := mk_document "INV-2" "Bolt" "N/A"
              [mk_line_item "Nut" 1 1 1] in
  let b1 := [("000.jpg", d0); ("001.jpg", d1)] in
  let b2 := [("001.jpg", d1); ("000.jpg", d0)] in
  let s1 := snd (load_run ok b1 Load.fresh) in
  let s2 := snd (load_run ok b2 Load.fresh) in
  stored (Load.committed s1) "001.jpg" = stored (Load.committed s2) "001.jpg".
Proof.
  intros ok d0 d1 b1 b2 s1 s2.
  assert (Hnd : NoDup (keys b1)).
  { constructor; [|constructor; [intros [] | constructor]].
    intros [E|[]]. discriminate E. }
  assert (H1 : load_run ok b1 Load.fresh = (Ok tt, s1))
    by (vm_compute; reflexivity).
  assert (H2 : load_run ok b2 Load.fresh = (Ok tt, s2))
    by (vm_compute; reflexivity).
  exact (load_run_order ok b1 b2 Load.fresh s1 s2 fresh_consistent Hnd
           (perm_swap _ _ []) H1 H2 "001.jpg").
Defined.

Lemma load_run_split_witness :
  let ok := fun (_ : nat) (_ : Load.request) => true in
  let d0 := mk_document "INV-1" "Acme" "N/A" [] in
  let d1 := mk_document "INV-2" "Bolt" "N/A"
              [mk_line_item "Nut" 1 1 1] in
  let b1 := [("000.jpg", d0)] in
  let b2 := [("001.jpg", d1)] in
  let s := snd (load_run ok (b1 ++ b2)%list Load.fresh) in
  let s1 := snd (load_run ok b1 Load.fresh) in
  let s2 := snd (load_run ok b2 s1) in
  stored (Load.committed s) "000.jpg" = stored (Load.committed s2) "000.jpg".
Proof.
  intros ok d0 d1 b1 b2 s s1 s2.
  assert (Hnd : NoDup (keys (b1 ++ b2)%list)).
  { constructor; [|constructor; [intros [] | constructor]].
    intros [E|[]]. discriminate E. }
  assert (H : load_run ok (b1 ++ b2)%list Load.fresh = (Ok tt, s))
    by (vm_compute; reflexivity).
  assert (H1 : load_run ok b1 Load.fresh = (Ok tt, s1))
    by (vm_compute; reflexivity).
  assert (H2 : load_run ok b2 s1 = (Ok tt, s2))
    by (vm_compute; reflexivity).
  exact (load_run_split ok b1 b2 Load.fresh s s1 s2 fresh_consistent Hnd
           H H1 H2 "000.jpg").
Defined.

Lemma cut_name_loads_once_witness :
  let ok := fun (_ : nat) (_ : Load.request) => true in
  let f := "a" ++ String.concat "" (repeat " " 255) in
  let doc := mk_document "INV-1" "Acme" "N/A" [] in
  let st1 := snd (load_run ok [(f, doc)] Load.fresh) in
  fst (load_run ok [(f, doc)] Load.fresh) = Ok tt
  /\ fst (load_run ok [(f, doc)] st1) = Raise IntegrityError
  /\ forall st2, load_run ok [(f, doc)] st1 <> (Ok tt, st2).
Proof.
  intros ok f doc st1.
  split; [vm_compute; reflexivity|]. split; [vm_compute; reflexivity|].
  assert (H1 : load_run ok [(f, doc)] Load.fresh = (Ok tt, st1))
    by (vm_compute; reflexivity).
  apply (cut_name_loads_once ok [(f, doc)] f doc Load.fresh st1
           fresh_consistent (or_introl eq_refl));
    [vm_compute; reflexivity | exact H1].
Defined.

Lemma load_run_raises_only_refusals_witness :
  let ok := refuses_file "001.jpg" in
  let doc := mk_document "INV-1" "Acme" "N/A" [] in
  let data := [("000.jpg", doc); ("001.jpg", doc)] in
  fst (load_run ok data Load.fresh) = Raise DatabaseError
  /\ match load_run ok data Load.fresh with
     | (Raise e, _) => e = DatabaseError
     | (Ok _, _) => True
     end.
Proof.
  intros ok doc data. split; [vm_compute; reflexivity|].
  exact (load_run_raises_only_refusals ok data Load.fresh fresh_consistent
           eq_refl).
Defined.

(** * The pipeline from end to end *)

Lemma only_spaces_last (s : string) (c : ascii) :
  c <> " "%char -> Load.only_spaces (s ++ String c "") = false.
Proof.
  intros Hc. induction s as [|a s IH]; simpl.
  - apply Ascii.eqb_neq in Hc. now rewrite Hc.
  - rewrite IH. apply andb_false_r.
Qed.

(** A text that does not end with a space is stored as it is or
    refused. *)
Lemma varchar_not_cut (n : nat) (s s' : string) (c : ascii) :
  c <> " "%char ->
  Load.varchar n (s ++ String c "") = Some s' ->
  s' = s ++ String c "".
Proof.
  intros Hc. revert n s'. induction s as [|a s IH]; intros n s'.
  - cbn [append]. destruct n as [|n].
    + rewrite varchar_full. cbn [Load.only_spaces].
      apply Ascii.eqb_neq in Hc. rewrite Hc. discriminate.
    + rewrite varchar_next, varchar_empty. now intros [= <-].
  - change ((String a s ++ String c "")%string)
      with (String a (s ++ String c "")).
    destruct n as [|n].
    + rewrite varchar_full.
      change (String a (s ++ String c ""))
        with ((String a s ++ String c "")%string).
      rewrite only_spaces_last by exact Hc. discriminate.
    + rewrite varchar_next.
      destruct (Load.varchar n (s ++ String c "")) as [r|] eqn:E;
        [|discriminate].
      intros [= <-]. now rewrite (IH n r E).
Qed.

(** The file name of an image is one that the server does not cut. *)
Lemma image_name_kept (i : string) : kept_name (i ++ ".jpg") = true.
Proof.
  unfold kept_name.
  destruct (Load.varchar 255 (i ++ ".jpg")) as [f'|] eqn:E; [|reflexivity].
  change ".jpg" with (".jp" ++ "g") in E |- *.
  rewrite <- app_assoc_text in E |- *.
  apply varchar_not_cut in E; [|discriminate].
  subst f'. apply String.eqb_refl.
Qed.

Section PipelineMore.

Variable repr : pyval -> string.
Variable invoke_model : string -> result string.
Variable json_loads : string -> option (pydict pyval).
Variable server_ok : nat -> Load.request -> bool.
Variable report : Load.tables -> result unit.

(** The cleaning of the entries keeps the file names and cleans the object
    under each. *)
Lemma map_clean_lookup (r : pydict (pydict pyval)) (t : pydict document) :
  map_result (clean_entry repr) r = Ok t ->
  keys t = keys r
  /\ forall f,
       match lookup f r with
       | Some d =>
           exists doc,
             Transform._clean_document repr d = Ok doc
             /\ lookup f t = Some doc
       | None => lookup f t = None
       end.
Proof.
  revert t. induction r as [|[k d] r IH]; intros t H.
  - injection H as <-. split; [reflexivity | intros f; reflexivity].
  - cbn [map_result] in H. unfold clean_entry at 1 in H. cbn [fst snd] in H.
    destruct (Transform._clean_document repr d) as [doc|e] eqn:Hd;
      [|discriminate].
    cbn [rbind] in H.
    destruct (map_result (clean_entry repr) r) as [bs|e]; [|discriminate].
    cbn [rbind] in H. injection H as <-.
    destruct (IH bs eq_refl) as [Hk Hl]. split.
    + simpl. now rewrite Hk.
    + intros f. simpl. destruct (String.eqb f k); [|apply Hl].
      exists doc. now split.
Qed.

(** X19.  Where [run_etl] returns from a consistent store: the store is
    consistent; for every image of the batch the call has returned, and
    where the response holds a span, the span has parsed to an object whose
    cleaning returned, and the committed relations hold under the name of
    the image followed by '.jpg' that one cleaned document, as its columns
    hold it (texts as VARCHAR(255) holds them, numbers rounded to two
    decimals); an image whose response holds no span, and every file name
    that is not of the batch, has what it had before. *)
Theorem run_etl_effect (images : list string) (st st' : Load.store) :
  consistent st ->
  run_etl repr invoke_model json_loads server_ok report images st
  = (Ok tt, st') ->
  consistent st'
  /\ (forall i, In i images ->
        exists text,
          invoke_model i = Ok text
          /\ match Extract.first_object text with
             | Some span =>
                 exists d doc,
                   json_loads span = Some d
                   /\ Transform._clean_document repr d = Ok doc
                   /\ stored (Load.committed st') (i ++ ".jpg")
                      = [column_document doc]
             | None =>
                 stored (Load.committed st') (i ++ ".jpg")
                 = stored (Load.committed st) (i ++ ".jpg")
             end)
  /\ (forall f, (forall i, In i images -> f <> i ++ ".jpg") ->
        stored (Load.committed st') f = stored (Load.committed st) f).
Proof.
  intros Hst H. rewrite run_etl_stages in H.
  destruct (Extract.extract_text_from_images invoke_model json_loads images)
    as [r|e] eqn:Hex; [|discriminate].
  destruct (Transform.transform repr r) as [t|e] eqn:Htr; [|discriminate].
  destruct (load_run server_ok t st) as [[[]|e] s] eqn:Hrun;
    [|discriminate].
  assert (s = st') by congruence. subst s. clear H.
  unfold Extract.extract_text_from_images in Hex.
  destruct (extract_loop_spec invoke_model json_loads images [] r Hex
              (NoDup_nil _)) as (Hnd & Himg & Hkey).
  unfold Transform.transform in Htr.
  rewrite (transform_loop_entries repr r [] Hnd) in Htr.
  destruct (map_result (clean_entry repr) r) as [t'|e] eqn:Hmap;
    [|discriminate].
  cbn [rbind app] in Htr. injection Htr as ->.
  destruct (map_clean_lookup r t Hmap) as [Hkeys Hlk].
  assert (Hndt : NoDup (keys t)) by now rewrite Hkeys.
  assert (Hkept : forallb kept_name (keys t) = true).
  { apply forallb_forall. intros k Hk. rewrite Hkeys in Hk.
    apply lookup_in_keys in Hk.
    destruct (Hkey k) as [E|(i & text & span & _ & -> & _)];
      [simpl in E; congruence | apply image_name_kept]. }
  destruct (load_run_stored server_ok t st st' Hst Hndt Hkept Hrun)
    as [Hst' Hsto].
  assert (Habsent : forall f,
            (forall i text span, In i images -> f = i ++ ".jpg" ->
               invoke_model i = Ok text ->
               Extract.first_object text = Some span -> False) ->
            stored (Load.committed st') f = stored (Load.committed st) f).
  { intros f Hf. rewrite Hsto.
    destruct (Hkey f) as [E|(i & text & span & Hin & -> & Hi & Hs)].
    - simpl in E. specialize (Hlk f). rewrite E in Hlk. now rewrite Hlk.
    - exfalso. exact (Hf i text span Hin eq_refl Hi Hs). }
  split; [exact Hst'|]. split.
  - intros i Hin. destruct (Himg i Hin) as (text & Hi & Hs).
    exists text. split; [exact Hi|].
    destruct (Extract.first_object text) as [span|] eqn:Hspan.
    + destruct Hs as [Hj Hl].
      destruct (json_loads span) as [d|] eqn:Hd; [|congruence].
      specialize (Hlk (i ++ ".jpg")). rewrite Hl in Hlk.
      destruct Hlk as (doc & Hc & Ht).
      exists d, doc. split; [reflexivity|]. split; [exact Hc|].
      now rewrite Hsto, Ht.
    + apply Habsent. intros i2 text2 span2 _ E Hi2 Hs2.
      apply app_inj_tail_text in E. subst i2. congruence.
  - intros f Hf. apply Habsent. intros i text span Hin E _ _.
    exact (Hf i Hin E).
Qed.

(** X20.  [run_etl] from a consistent store raises in one of four ways:
    the extraction of some image fails (a call that raises, or a span that
    does not parse) and the store is untouched; or a numeric field resolves
    to a [bool], the exception is [InvalidOperation] and the store is
    untouched; or the server refuses a request or does not take a value,
    the exception is [DatabaseError] and nothing is committed; or the batch
    is committed and the report raises. *)
Theorem run_etl_failures (images : list string) (st st' : Load.store)
    (e : exn) :
  consistent st ->
  run_etl repr invoke_model json_loads server_ok report images st
  = (Raise e, st') ->
  (forallb (image_ok invoke_model json_loads) images = false /\ st' = st)
  \/ (e = InvalidOperation /\ st' = st)
  \/ (e = DatabaseError /\ Load.committed st' = Load.committed st)
  \/ (exists data,
        load_run server_ok data st = (Ok tt, st')
        /\ report (Load.committed st') = Raise e).
Proof.
  intros Hst H. rewrite run_etl_stages in H.
  pose proof (extract_loop_returns_iff invoke_model json_loads images [])
    as Hex.
  unfold Extract.extract_text_from_images in H.
  destruct (Extract.extract_loop invoke_model json_loads images [])
    as [r|e1] eqn:Hr; [|left; split; [exact Hex | congruence]].
  right. unfold Transform.transform in H.
  destruct (forallb document_coercible (map snd r)) eqn:Hco.
  - right.
    destruct (extract_loop_spec invoke_model json_loads images [] r Hr
                (NoDup_nil _)) as (Hnd & _ & Hkey).
    destruct (transform_returns repr r Hco) as [t Ht].
    unfold Transform.transform in Ht. rewrite Ht in H.
    rewrite (transform_loop_entries repr r [] Hnd) in Ht.
    destruct (map_result (clean_entry repr) r) as [t'|e0] eqn:Hmap;
      [|discriminate].
    cbn [rbind app] in Ht. injection Ht as ->.
    destruct (map_clean_lookup r t Hmap) as [Hkeys _].
    assert (Hkept : forallb kept_name (keys t) = true).
    { apply forallb_forall. intros k Hk. rewrite Hkeys in Hk.
      apply lookup_in_keys in Hk.
      destruct (Hkey k) as [E|(i & text & span & _ & -> & _)];
        [simpl in E; congruence | apply image_name_kept]. }
    pose proof (load_run_rolls_back server_ok t st) as Hroll.
    pose proof (load_run_outcome server_ok t st Hst Hkept) as Hout.
    unfold outcome in Hout.
    destruct (load_run server_ok t st) as [[[]|e2] s] eqn:Hrun.
    + right. exists t. injection H as H1 H2. subst s. now split.
    + left. injection H as H1 H2. subst. now split.
  - left. rewrite (transform_loop_raises repr r [] Hco) in H.
    injection H as H1 H2. now split.
Qed.

End PipelineMore.

Lemma run_etl_effect_witness :
  let repr := fun _ : pyval => EmptyString in
  let invoke_model i :=
    if String.eqb i "000" then Ok "{}" else Ok "nothing" in
  let json_loads := fun _ : string => Some invoice_000 in
  let ok := fun (_ : nat) (_ : Load.request) => true in
  let report := fun _ : Load.tables => Ok tt in
  let st' := snd (run_etl repr invoke_model json_loads ok report
                    ["000"; "001"] Load.fresh) in
  stored (Load.committed st') "002.jpg" = [].
Proof.
  intros repr invoke_model json_loads ok report st'.
  assert (Hrun : run_etl repr invoke_model json_loads ok report
                   ["000"; "001"] Load.fresh = (Ok tt, st'))
    by (vm_compute; reflexivity).
  destruct (run_etl_effect repr invoke_model json_loads ok report
              ["000"; "001"] Load.fresh st' fresh_consistent Hrun)
    as (_ & _ & H).
  apply (H "002.jpg"). intros i [<-|[<-|[]]]; discriminate.
Defined.

Lemma run_etl_failures_witness :
  let repr := fun _ : pyval => EmptyString in
  let invoke_model i :=
    if String.eqb i "000" then Ok "{}" else Raise ClientError in
  let json_loads := fun _ : string => Some invoice_000 in
  let ok := fun (_ : nat) (_ : Load.request) => true in
  let report := fun _ : Load.tables => Ok tt in
  forallb (image_ok invoke_model json_loads) ["000"; "001"] = false
  \/ ClientError = InvalidOperation
  \/ ClientError = DatabaseError
  \/ exists data,
       load_run ok data Load.fresh = (Ok tt, Load.fresh)
       /\ report (Load.committed Load.fresh) = Raise ClientError.
Proof.
  intros repr invoke_model json_loads ok report.
  assert (Hrun : run_etl repr invoke_model json_loads ok report
                   ["000"; "001"] Load.fresh = (Raise ClientError, Load.fresh))
    by (vm_compute; reflexivity).
  destruct (run_etl_failures repr invoke_model json_loads ok report
              ["000"; "001"] Load.fresh Load.fresh ClientError
              fresh_consistent Hrun) as [[H _]|[[H _]|[[H _]|H]]]; auto.
Defined.

(** * Properties of Analyze *)

Lemma all_chars_app (p : ascii -> bool) (a b : string) :
  all_chars p (a ++ b) = all_chars p a && all_chars p b.
Proof.
  induction a as [|c a IH]; simpl; auto. rewrite IH. apply andb_assoc.
Qed.

Lemma all_chars_weaken (p q : ascii -> bool) (s : string) :
  (forall c, p c = true -> q c = true) ->
  all_chars p s = true -> all_chars q s = true.
Proof.
  intros Hpq. induction s as [|c s IH]; simpl; auto.
  intros [Hc Hs]%andb_prop. now rewrite (Hpq c Hc), IH.
Qed.

Lemma lstrip_parts (p : ascii -> bool) (s : string) :
  exists pre,
    s = pre ++ Analyze.lstrip_chars p s /\ all_chars p pre = true.
Proof.
  induction s as [|c s (pre & E & Hpre)]; cbn [Analyze.lstrip_chars].
  - now exists "".
  - destruct (p c) eqn:Hc.
    + exists (String c pre). simpl. rewrite Hc, Hpre. now rewrite <- E.
    + now exists "".
Qed.

Lemma rstrip_parts (p : ascii -> bool) (s : string) :
  exists post,
    s = Analyze.rstrip_chars p s ++ post /\ all_chars p post = true.
Proof.
  induction s as [|c s (post & E & Hpost)]; cbn [Analyze.rstrip_chars].
  - now exists "".
  - destruct (Analyze.rstrip_chars p s) as [|c' r'] eqn:Hr.
    + destruct (p c) eqn:Hc.
      * exists (String c post). simpl in E. subst post. simpl.
        now rewrite Hc, Hpost.
      * exists post. simpl in E. subst post. now split.
    + exists post. split; [|exact Hpost].
      change (String c s = String c (String c' r' ++ post)).
      now rewrite <- E.
Qed.

Lemma lstrip_clean_head (p : ascii -> bool) (s : string) :
  clean_head p (Analyze.lstrip_chars p s) = true.
Proof.
  induction s as [|c s IH]; cbn [Analyze.lstrip_chars]; auto.
  destruct (p c) eqn:Hc; auto. simpl. now rewrite Hc.
Qed.

Lemma rstrip_clean_last (p : ascii -> bool) (s : string) :
  clean_last p (Analyze.rstrip_chars p s) = true.
Proof.
  induction s as [|c s IH]; cbn [Analyze.rstrip_chars]; auto.
  destruct (Analyze.rstrip_chars p s) as [|c' r'].
  - destruct (p c) eqn:Hc; simpl; auto. now rewrite Hc.
  - exact IH.
Qed.

Lemma rstrip_keeps_head (p q : ascii -> bool) (s : string) :
  clean_head q s = true -> clean_head q (Analyze.rstrip_chars p s) = true.
Proof.
  destruct s as [|c s]; cbn [Analyze.rstrip_chars]; auto. intros H.
  destruct (Analyze.rstrip_chars p s); [destruct (p c)|]; auto.
Qed.

Lemma lstrip_fixed (p : ascii -> bool) (s : string) :
  clean_head p s = true -> Analyze.lstrip_chars p s = s.
Proof.
  destruct s as [|c s]; simpl; auto. now destruct (p c).
Qed.

Lemma rstrip_fixed (p : ascii -> bool) (s : string) :
  clean_last p s = true -> Analyze.rstrip_chars p s = s.
Proof.
  induction s as [|c s IH]; auto. cbn [Analyze.rstrip_chars clean_last].
  destruct s as [|c' s'].
  - simpl. now destruct (p c).
  - intros H. now rewrite (IH H).
Qed.

Lemma strip_fixed (p : ascii -> bool) (s : string) :
  clean_head p s = true -> clean_last p s = true -> Analyze.strip_chars p s = s.
Proof.
  intros Hh Hl. unfold Analyze.strip_chars.
  now rewrite (lstrip_fixed p s Hh), (rstrip_fixed p s Hl).
Qed.

Lemma strip_clean (p : ascii -> bool) (s : string) :
  clean_head p (Analyze.strip_chars p s) = true
  /\ clean_last p (Analyze.strip_chars p s) = true.
Proof.
  unfold Analyze.strip_chars. split.
  - apply rstrip_keeps_head, lstrip_clean_head.
  - apply rstrip_clean_last.
Qed.

Lemma strip_parts (p : ascii -> bool) (s : string) :
  exists pre post,
    s = pre ++ Analyze.strip_chars p s ++ post
    /\ all_chars p pre = true /\ all_chars p post = true.
Proof.
  destruct (lstrip_parts p s) as (pre & E1 & Hpre).
  destruct (rstrip_parts p (Analyze.lstrip_chars p s)) as (post & E2 & Hpost).
  exists pre, post. unfold Analyze.strip_chars. now rewrite <- E2, <- E1.
Qed.

Lemma clean_head_weaken (p q : ascii -> bool) (s : string) :
  (forall c, q c = true -> p c = true) ->
  clean_head p s = true -> clean_head q s = true.
Proof.
  intros Hqp. destruct s as [|c s]; simpl; auto.
  destruct (q c) eqn:Hq; auto. now rewrite (Hqp c Hq).
Qed.

Lemma clean_last_weaken (p q : ascii -> bool) (s : string) :
  (forall c, q c = true -> p c = true) ->
  clean_last p s = true -> clean_last q s = true.
Proof.
  intros Hqp. induction s as [|c s IH]; auto. cbn [clean_last].
  destruct s as [|c' s']; [|exact IH].
  destruct (q c) eqn:Hq; auto. now rewrite (Hqp c Hq).
Qed.

Lemma backquote_in_fence (c : ascii) :
  Analyze.among "```" c = true -> Analyze.among Analyze.fence c = true.
Proof.
  unfold Analyze.fence. cbn [Analyze.among append].
  destruct (Ascii.eqb c "`"); cbn [orb]; [reflexivity | discriminate].
Qed.

(** The second of the three [strip] calls finds nothing to take off. *)
Lemma strip_backquotes_idle (latex : string) :
  Analyze.strip_chars (Analyze.among "```")
    (Analyze.strip_chars (Analyze.among Analyze.fence) latex)
  = Analyze.strip_chars (Analyze.among Analyze.fence) latex.
Proof.
  destruct (strip_clean (Analyze.among Analyze.fence) latex) as [Hh Hl].
  apply strip_fixed.
  - exact (clean_head_weaken _ _ _ backquote_in_fence Hh).
  - exact (clean_last_weaken _ _ _ backquote_in_fence Hl).
Qed.

Lemma lstrip_all (p : ascii -> bool) (pre s : string) :
  all_chars p pre = true ->
  Analyze.lstrip_chars p (pre ++ s) = Analyze.lstrip_chars p s.
Proof.
  induction pre as [|c pre IH]; simpl; auto.
  intros [Hc Hpre]%andb_prop. rewrite Hc. auto.
Qed.

Lemma rstrip_all (p : ascii -> bool) (post : string) :
  all_chars p post = true -> Analyze.rstrip_chars p post = "".
Proof.
  induction post as [|c post IH]; simpl; auto.
  intros [Hc Hpost]%andb_prop. now rewrite (IH Hpost), Hc.
Qed.

Lemma rstrip_app_all (p : ascii -> bool) (s post : string) :
  all_chars p post = true ->
  Analyze.rstrip_chars p (s ++ post) = Analyze.rstrip_chars p s.
Proof.
  intros Hpost. induction s as [|c s IH]; simpl.
  - now apply rstrip_all.
  - now rewrite IH.
Qed.

Lemma strip_wrapped (p : ascii -> bool) (pre body post : string) :
  all_chars p pre = true ->
  all_chars p post = true ->
  clean_head p body = true ->
  clean_last p body = true ->
  Analyze.strip_chars p (pre ++ body ++ post) = body.
Proof.
  intros Hpre Hpost Hh Hl. unfold Analyze.strip_chars.
  rewrite (lstrip_all p pre _ Hpre).
  destruct body as [|c body].
  - simpl. destruct (lstrip_parts p post) as (a & E & Ha).
    assert (Hr : all_chars p (Analyze.lstrip_chars p post) = true).
    { rewrite E, all_chars_app in Hpost.
      now apply andb_prop in Hpost as [_ H]. }
    now apply rstrip_all.
  - rewrite lstrip_fixed by exact Hh.
    rewrite (rstrip_app_all p _ post Hpost).
    now apply rstrip_fixed.
Qed.

Section AnalyzeFacts.

Variable generate : Load.tables -> result string.

Local Abbreviation analyze := (Analyze.analyze generate).

(** X21.  Of the three [strip] calls of [analyze] the second never takes a
    character off: the report is the reply stripped of the characters of
    the fence literal, then of whitespace. *)
Theorem analyze_two_strips (t : Load.tables) :
  analyze t
  = (latex <- generate t ;;
     Ok (Analyze.strip_chars is_space
           (Analyze.strip_chars (Analyze.among Analyze.fence) latex)))%result.
Proof.
  unfold Analyze.analyze. destruct (generate t) as [latex|e]; auto.
  cbn [rbind]. now rewrite strip_backquotes_idle.
Qed.

(** X22.  [analyze] changes nothing inside the reply: the report is a
    contiguous part of it, what is cut off before and after consists of
    characters of the fence literal and of whitespace only, and the report
    neither begins nor ends with whitespace.  [analyze] raises only what
    the generation raises. *)
Theorem analyze_cuts_ends (t : Load.tables) :
  match generate t with
  | Ok latex =>
      exists pre report post,
        analyze t = Ok report
        /\ latex = pre ++ report ++ post
        /\ all_chars wrapping pre = true
        /\ all_chars wrapping post = true
        /\ clean_head is_space report = true
        /\ clean_last is_space report = true
  | Raise e => analyze t = Raise e
  end.
Proof.
  unfold Analyze.analyze. destruct (generate t) as [latex|e]; auto.
  cbn [rbind]. rewrite strip_backquotes_idle.
  destruct (strip_parts (Analyze.among Analyze.fence) latex)
    as (pre1 & post1 & E1 & Hpre1 & Hpost1).
  set (s1 := Analyze.strip_chars (Analyze.among Analyze.fence) latex) in *.
  destruct (strip_parts is_space s1) as (pre2 & post2 & E2 & Hpre2 & Hpost2).
  destruct (strip_clean is_space s1) as [Hh Hl].
  exists (pre1 ++ pre2), (Analyze.strip_chars is_space s1), (post2 ++ post1).
  split; [reflexivity|]. split.
  - rewrite E1 at 1. rewrite E2 at 1. now rewrite !app_assoc_text.
  - rewrite !all_chars_app. unfold wrapping.
    rewrite (all_chars_weaken _ _ pre1 (fun c H => orb_true_intro _ _
               (or_introl H)) Hpre1).
    rewrite (all_chars_weaken _ _ post1 (fun c H => orb_true_intro _ _
               (or_introl H)) Hpost1).
    rewrite (all_chars_weaken _ _ pre2 (fun c H => orb_true_intro _ _
               (or_intror H)) Hpre2).
    rewrite (all_chars_weaken _ _ post2 (fun c H => orb_true_intro _ _
               (or_intror H)) Hpost2).
    now rewrite Hh, Hl.
Qed.

(** X23.  A reply that wraps a body in characters of the fence literal,
    as in the fence '```latex', a line feed, the body, a line feed and
    '```', gives back the body as it is, where the body neither begins nor
    ends with a character of the literal or with whitespace. *)
Theorem analyze_fenced (t : Load.tables) (pre body post : string) :
  generate t = Ok (pre ++ body ++ post) ->
  all_chars (Analyze.among Analyze.fence) pre = true ->
  all_chars (Analyze.among Analyze.fence) post = true ->
  clean_head wrapping body = true ->
  clean_last wrapping body = true ->
  analyze t = Ok body.
Proof.
  intros Hg Hpre Hpost Hh Hl. unfold Analyze.analyze. rewrite Hg.
  cbn [rbind]. rewrite strip_backquotes_idle.
  assert (Hf : forall c, Analyze.among Analyze.fence c = true ->
                 wrapping c = true)
    by (intros c H; unfold wrapping; now rewrite H).
  assert (Hs : forall c, is_space c = true -> wrapping c = true)
    by (intros c H; unfold wrapping; rewrite H; apply orb_true_r).
  rewrite (strip_wrapped _ pre body post Hpre Hpost
             (clean_head_weaken _ _ _ Hf Hh) (clean_last_weaken _ _ _ Hf Hl)).
  f_equal. apply strip_fixed.
  - exact (clean_head_weaken _ _ _ Hs Hh).
  - exact (clean_last_weaken _ _ _ Hs Hl).
Qed.

(** X24.  The fence is taken off by character, so a reply that begins
    with a whitespace character other than a line feed keeps its fence:
    of such a character, the fence literal and a body that is not empty
    and does not end with a character of the literal or with whitespace,
    the report is the fence literal followed by the body. *)
Theorem analyze_keeps_fence (t : Load.tables) (c : ascii) (body : string) :
  generate t = Ok (String c (Analyze.fence ++ body)) ->
  is_space c = true ->
  c <> Analyze.newline ->
  body <> "" ->
  clean_last wrapping body = true ->
  analyze t = Ok (Analyze.fence ++ body).
Proof.
  intros Hg Hc Hn Hb Hl. unfold Analyze.analyze. rewrite Hg.
  cbn [rbind]. rewrite strip_backquotes_idle.
  assert (Hcf : Analyze.among Analyze.fence c = false).
  { unfold Analyze.fence. cbn [Analyze.among append].
    destruct (Ascii.eqb_spec c Analyze.newline) as [E|_]; [contradiction|].
    revert Hc. clear.
    repeat match goal with
           | |- context [Ascii.eqb c ?x] =>
               destruct (Ascii.eqb_spec c x) as [->|_];
               [vm_compute; discriminate|]
           end.
    reflexivity. }
  assert (Hlast : forall (p : ascii -> bool) (a : string),
            clean_last p body = true -> clean_last p (a ++ body) = true).
  { intros p a H. induction a as [|x a IH]; auto.
    cbn [append clean_last]. destruct (a ++ body) as [|y r] eqn:E; auto.
    destruct a; [simpl in E; contradiction | discriminate]. }
  assert (Hf : forall c, Analyze.among Analyze.fence c = true ->
                 wrapping c = true)
    by (intros x H; unfold wrapping; now rewrite H).
  assert (Hs : forall c, is_space c = true -> wrapping c = true)
    by (intros x H; unfold wrapping; rewrite H; apply orb_true_r).
  rewrite (strip_fixed (Analyze.among Analyze.fence)).
  - f_equal. unfold Analyze.strip_chars. cbn [Analyze.lstrip_chars]. rewrite Hc.
    rewrite lstrip_fixed by reflexivity.
    apply rstrip_fixed. apply Hlast.
    exact (clean_last_weaken _ _ _ Hs Hl).
  - cbn [clean_head]. now rewrite Hcf.
  - apply (Hlast _ (String c Analyze.fence)).
    exact (clean_last_weaken _ _ _ Hf Hl).
Qed.

End AnalyzeFacts.

Lemma analyze_fenced_witness :
  Analyze.analyze
    (fun _ => Ok (Analyze.fence ++ "\begin{document}\end{document}"
                  ++ String Analyze.newline "```"))
    Load.empty_tables
  = Ok "\begin{document}\end{document}".
Proof.
  apply (analyze_fenced _ Load.empty_tables Analyze.fence
           "\begin{document}\end{document}"
           (String Analyze.newline "```")); reflexivity.
Defined.

Lemma analyze_keeps_fence_witness :
  Analyze.analyze
    (fun _ => Ok (String " " (Analyze.fence ++ "\end{document}")))
    Load.empty_tables
  = Ok (Analyze.fence ++ "\end{document}").
Proof.
  apply (analyze_keeps_fence _ Load.empty_tables " " "\end{document}");
    try reflexivity; discriminate.
Defined.

(** * Properties of the polling *)

Lemma endswith_app (stem suffix : string) :
  Poll.endswith (stem ++ suffix) suffix = true.
Proof.
  induction stem as [|c stem IH].
  - cbn [append]. destruct suffix; cbn [Poll.endswith];
      now rewrite String.eqb_refl.
  - change ((String c stem ++ suffix)%string)
      with (String c (stem ++ suffix)).
    cbn [Poll.endswith]. rewrite IH. apply orb_true_r.
Qed.

(** An occurrence of '.jpg' that begins in [stem] and ends in the suffix
    '.jpg' would have a point after its first character. *)
Lemma prefix_jpg_app (c : ascii) (stem : string) :
  String.prefix ".jpg" (String c stem) = false ->
  String.prefix ".jpg" (String c stem ++ ".jpg") = false.
Proof.
  destruct stem as [|c1 [|c2 [|c3 r]]];
    cbn [String.prefix append];
    repeat match goal with
           | |- context [ascii_dec ?a ?b] =>
               destruct (ascii_dec a b) as [<-|?]
           end; auto; try discriminate.
  destruct r; discriminate.
Qed.

Lemma remove_jpg_suffix (stem : string) :
  Poll.occurs ".jpg" stem = false ->
  Poll.replace_with_empty (stem ++ ".jpg") ".jpg" = stem.
Proof.
  unfold Poll.replace_with_empty. induction stem as [|c stem IH].
  - reflexivity.
  - intros H. cbn [Poll.occurs] in H.
    apply orb_false_elim in H as [Hp Ho].
    change ((String c stem ++ ".jpg")%string)
      with (String c (stem ++ ".jpg")).
    cbn [Poll.remove_all].
    change (String c (stem ++ ".jpg"))
      with ((String c stem ++ ".jpg")%string).
    rewrite (prefix_jpg_app _ _ Hp). now rewrite (IH Ho).
Qed.

Section PollFacts.

Variable repr : pyval -> string.
Variable invoke_model : string -> result string.
Variable loads : string -> option pyval.
Variable server_ok : nat -> Load.request -> bool.
Variable report : Load.tables -> result unit.
Variable delete_ok : nat -> string -> bool.

Local Abbreviation try_block := (Poll.try_block loads).
Local Abbreviation for_messages := (Poll.for_messages loads delete_ok).
Local Abbreviation pipeline :=
  (run_etl repr invoke_model (Poll.loads_object loads) server_ok report).
Local Abbreviation poll_turn :=
  (Poll.poll_turn repr invoke_model loads server_ok report delete_ok).

(** The [try] block appends to the list it finds, and reads nothing of
    it. *)
Lemma try_block_app (images : list string) (msg : Poll.message) :
  try_block images msg
  = match try_block [] msg with
    | Some l => Some (images ++ l)%list
    | None => None
    end.
Proof.
  unfold Poll.try_block, Poll.and_then.
  destruct (loads (Poll.Body msg)) as [body|]; auto.
  destruct (Poll.has_records body) as [[]|]; auto;
    [|now rewrite app_nil_r].
  destruct (Poll.key_of body) as [[]|]; auto.
  destruct (Poll.endswith _ _); auto. now rewrite app_nil_r.
Qed.

(** The loop over the messages deletes each of them and gathers the
    images of all. *)
Lemma for_messages_spec (msgs : list Poll.message) (images : list string)
    (w : Poll.world) :
  (forall n handle, delete_ok n handle = true) ->
  for_messages msgs images w
  = (Ok (images ++ flat_map (images_of loads) msgs)%list,
     Poll.mk_world (Poll.deleted w ++ map Poll.ReceiptHandle msgs)
       (Poll.db w)).
Proof.
  intros Hok. revert images w.
  induction msgs as [|msg rest IH]; intros images w.
  - simpl. rewrite !app_nil_r. now destruct w.
  - cbn [Poll.for_messages flat_map map]. unfold bind at 1.
    unfold Poll.delete_message at 1. rewrite Hok. rewrite IH.
    cbn [Poll.deleted Poll.db]. rewrite <- !app_assoc. cbn [app].
    f_equal. f_equal. unfold images_of. rewrite try_block_app.
    destruct (try_block [] msg) as [l|].
    + now rewrite <- app_assoc.
    + reflexivity.
Qed.

(** X25.  Where the queue refuses no deletion, one turn of the loop
    deletes every message of the response, in order, whatever its body
    holds and before the pipeline is entered; the pipeline then runs once,
    on the images of all the messages in order, and not at all where no
    message gives an image. *)
Theorem poll_turn_deletes_then_runs (msgs : list Poll.message)
    (w : Poll.world) :
  (forall n handle, delete_ok n handle = true) ->
  poll_turn (Some msgs) w
  = let w1 :=
      Poll.mk_world (Poll.deleted w ++ map Poll.ReceiptHandle msgs)
        (Poll.db w) in
    match flat_map (images_of loads) msgs with
    | [] => (Ok tt, w1)
    | (_ :: _) as images => Poll.on_db (pipeline images) w1
    end.
Proof.
  intros Hok. unfold Poll.poll_turn, bind.
  rewrite (for_messages_spec msgs [] w Hok). cbn [app].
  now destruct (flat_map (images_of loads) msgs).
Qed.

(** X26.  A turn of the loop in which the pipeline raises has deleted the
    messages all the same, and the batch is not in the store: the
    committed relations are what they were, unless the batch was
    committed and it is the report that raised.  Nothing is read twice: a
    batch that fails is lost. *)
Theorem poll_turn_loses_batch (msgs : list Poll.message)
    (w w' : Poll.world) (e : exn) :
  (forall n handle, delete_ok n handle = true) ->
  poll_turn (Some msgs) w = (Raise e, w') ->
  Poll.deleted w' = (Poll.deleted w ++ map Poll.ReceiptHandle msgs)%list
  /\ (Load.committed (Poll.db w') = Load.committed (Poll.db w)
      \/ exists data,
           load_run server_ok data (Poll.db w) = (Ok tt, Poll.db w')
           /\ report (Load.committed (Poll.db w')) = Raise e).
Proof.
  intros Hok H. unfold Poll.poll_turn, bind in H.
  rewrite (for_messages_spec msgs [] w Hok) in H. cbn [app] in H.
  destruct (flat_map (images_of loads) msgs) as [|i images];
    [discriminate|].
  unfold Poll.on_db in H. cbn [Poll.db Poll.deleted] in H.
  rewrite run_etl_stages in H.
  destruct (Extract.extract_text_from_images _ _ _) as [r|e1].
  - destruct (Transform.transform repr r) as [t|e2].
    + pose proof (load_run_rolls_back server_ok t (Poll.db w)) as Hroll.
      destruct (load_run server_ok t (Poll.db w)) as [[[]|e3] s] eqn:Hrun;
        injection H as H1 <-; cbn [Poll.db Poll.deleted].
      * split; [reflexivity|]. right. exists t. now split.
      * split; [reflexivity|]. now left.
    + injection H as _ <-. split; [reflexivity|]. now left.
  - injection H as _ <-. split; [reflexivity|]. now left.
Qed.

(** X27.  A notification whose key is a stem followed by '.jpg', the stem
    holding no '.jpg', gives the stem as its image, so that [Extract]
    reads back the object of that key. *)
Theorem notified_key_read_back (msg : Poll.message) (body : pyval)
    (stem : string) :
  loads (Poll.Body msg) = Some body ->
  Poll.key_of body = Some (PStr (stem ++ ".jpg")) ->
  Poll.occurs ".jpg" stem = false ->
  images_of loads msg = [stem].
Proof.
  intros Hb Hk Ho. unfold images_of, Poll.try_block. rewrite Hb.
  cbn [Poll.and_then].
  assert (Hr : Poll.has_records body = Some true).
  { unfold Poll.key_of, Poll.and_then, Poll.item in Hk.
    destruct body as [| | | | | |d]; try discriminate.
    cbn [Poll.has_records]. now destruct (lookup "Records" d). }
  rewrite Hr, Hk. cbn [Poll.and_then].
  now rewrite endswith_app, (remove_jpg_suffix stem Ho).
Qed.

End PollFacts.

Lemma poll_turn_deletes_then_runs_witness :
  let repr := fun _ : pyval => EmptyString in
  let invoke_model := fun _ : string => Ok "{}" in
  let loads := fun s : string =>
    if String.eqb s "{}" then Some (PDict invoice_000)
    else if String.eqb s "event" then Some (notification (PStr "000.jpg"))
    else None in
  let ok := fun (_ : nat) (_ : Load.request) => true in
  let report := fun _ : Load.tables => Ok tt in
  let delete_ok := fun (_ : nat) (_ : string) => true in
  let msgs := [Poll.mk_message "event" "h1"; Poll.mk_message "junk" "h2"] in
  let w := Poll.mk_world [] Load.fresh in
  let w' := snd (Poll.poll_turn repr invoke_model loads ok report delete_ok
                   (Some msgs) w) in
  Poll.deleted w' = ["h1"; "h2"]
  /\ stored (Load.committed (Poll.db w')) "000.jpg"
     = [mk_document "INV-1" "Acme" "N/A"
          [mk_line_item "Widget" 2 (21 # 2) 0]].
Proof.
  intros repr invoke_model loads ok report delete_ok msgs w w'.
  pose proof (poll_turn_deletes_then_runs repr invoke_model loads ok report
                delete_ok msgs w (fun _ _ => eq_refl)) as H.
  subst w'. rewrite H. split; vm_compute; reflexivity.
Defined.

Lemma poll_turn_loses_batch_witness :
  let repr := fun _ : pyval => EmptyString in
  let invoke_model := fun _ : string => Raise ClientError in
  let loads := fun s : string =>
    if String.eqb s "event" then Some (notification (PStr "000.jpg"))
    else None in
  let ok := fun (_ : nat) (_ : Load.request) => true in
  let report := fun _ : Load.tables => Ok tt in
  let delete_ok := fun (_ : nat) (_ : string) => true in
  let msgs := [Poll.mk_message "event" "h1"] in
  let w := Poll.mk_world [] Load.fresh in
  let w' := snd (Poll.poll_turn repr invoke_model loads ok report delete_ok
                   (Some msgs) w) in
  Poll.deleted w' = ["h1"].
Proof.
  intros repr invoke_model loads ok report delete_ok msgs w w'.
  assert (Hrun : Poll.poll_turn repr invoke_model loads ok report delete_ok
                   (Some msgs) w = (Raise ClientError, w'))
    by (vm_compute; reflexivity).
  exact (proj1 (poll_turn_loses_batch repr invoke_model loads ok report
                  delete_ok msgs w w' ClientError (fun _ _ => eq_refl)
                  Hrun)).
Defined.

Lemma notified_key_read_back_witness :
  let loads := fun _ : string =>
    Some (notification (PStr "scans/000.jpg")) in
  images_of loads (Poll.mk_message "event" "h1") = ["scans/000"].
Proof.
  intros loads.
  apply (notified_key_read_back loads (Poll.mk_message "event" "h1")
           (notification (PStr "scans/000.jpg")) "scans/000");
    reflexivity.
Defined.
